(** * TianshanOS font tooling: bdf2fnt.py and ttf2fnt.py

    A shallow embedding of the two font converters under [tools/] and the
    properties of their glyph pipeline: BDF parsing, baseline placement on a
    fixed canvas, MSB-first bit packing, and the TFNT container in its
    fixed-size (bdf2fnt) and variable-size (ttf2fnt) layouts, with the two
    inspection commands [verify_glyph] and [preview_glyph] that decode a
    packed bitmap again.

    Python integers are [Z]; bytes are [Z] in [0, 256); Python lists are
    [list]; strings are [string]; the property dictionary of [parse_bdf] is
    a [gmap string Z]; the code point set of [get_font_codepoints] is a
    [gset Z]. Exceptions are values of [exn] carried by the [result] monad.
    Pillow, which ttf2fnt.py draws with, is the interface [Rasterizer]. *)

From Stdlib Require Import ZArith Lia Ascii.
From stdpp Require Import base tactics option numbers list sorting gmap strings.

Local Open Scope Z_scope.

(** * Python values *)

(** ** Exceptions and the result monad *)

Inductive exn : Set :=
  | ValueError   (* int() on a bad literal, bytes() on a value out of range *)
  | IndexError   (* list index out of range *)
  | StructError. (* struct.pack on a value outside the field's range *)

Inductive result (A : Type) : Type :=
  | Ok (a : A)
  | Raise (e : exn).
Arguments Ok {A} a.
Arguments Raise {A} e.

#[global] Instance result_ret : MRet result := λ A a, Ok a.
#[global] Instance result_bind : MBind result := λ A B f m,
  match m with
  | Ok a => f a
  | Raise e => Raise e
  end.

(** ** Lists and bytes

    [l[i]] with [0 <= i < len(l)] addresses element [i]; with
    [-len(l) <= i < 0] it addresses element [len(l) + i]; anything else raises
    IndexError. *)

Definition py_index (n : nat) (i : Z) : result nat :=
  if decide (0 ≤ i < Z.of_nat n) then Ok (Z.to_nat i)
  else if decide (- Z.of_nat n ≤ i < 0) then Ok (Z.to_nat (Z.of_nat n + i))
  else Raise IndexError.

Definition py_getitem {A} (l : list A) (i : Z) : result A :=
  k ← py_index (length l) i;
  match l !! k with
  | Some x => Ok x
  | None => Raise IndexError
  end.

Definition py_setitem {A} (l : list A) (i : Z) (v : A) : result (list A) :=
  k ← py_index (length l) i;
  Ok (<[k:=v]> l).

(** Truthiness of a Python integer. *)
Definition truthy (x : Z) : bool := negb (x =? 0).

(** [bytes(l)] for a list of integers: every item must be in [range(256)]. *)
Definition py_bytes (l : list Z) : result (list Z) :=
  if decide (Forall (λ b, 0 ≤ b < 256) l) then Ok l else Raise ValueError.

(** [bytes(n)]: [n] zero bytes. *)
Definition zero_bytes (n : nat) : list Z := replicate n 0.

(** ** The stable sort

    [list.sort(key=...)] and [sorted] are stable; the result of a stable
    sort is determined by its input, so insertion from the right, placing
    an element before the first one whose key is not smaller, computes it. *)

Fixpoint insert_by {A} (key : A → Z) (x : A) (l : list A) : list A :=
  match l with
  | [] => [x]
  | y :: l' =>
      if decide (key x ≤ key y) then x :: l else y :: insert_by key x l'
  end.

Definition py_sorted {A} (key : A → Z) (l : list A) : list A :=
  foldr (insert_by key) [] l.

(** ** Strings

    bdf2fnt.py reads the font as latin-1, so every character of a line is
    one of the 256 values of [ascii]. *)

(** [str.isspace] on the code points below 256: TAB to CR, FS to US, the
    space, NEL (0x85) and the no-break space (0xA0). *)
Definition py_isspace (c : ascii) : bool :=
  let n := Z.of_N (Ascii.N_of_ascii c) in
  bool_decide (9 ≤ n ≤ 13 ∨ 28 ≤ n ≤ 32 ∨ n = 133 ∨ n = 160).

Fixpoint lstrip (s : string) : string :=
  match s with
  | String c rest => if py_isspace c then lstrip rest else s
  | EmptyString => EmptyString
  end.

(** [s.strip()] *)
Definition strip (s : string) : string :=
  String.rev (lstrip (String.rev (lstrip s))).

(** [s.startswith(prefix)] *)
Fixpoint startswith (prefix s : string) : bool :=
  match prefix, s with
  | EmptyString, _ => true
  | String p prefix', String c s' => bool_decide (p = c) && startswith prefix' s'
  | String _ _, EmptyString => false
  end.

(** [s.split()]: the maximal runs of non-space characters. [word] holds the
    characters of the current run, last one first. *)
Fixpoint split_from (word : string) (s : string) : list string :=
  let flush := if decide (word = EmptyString) then [] else [String.rev word] in
  match s with
  | EmptyString => flush
  | String c rest =>
      if py_isspace c then flush ++ split_from EmptyString rest
      else split_from (String c word) rest
  end.

Definition split (s : string) : list string := split_from EmptyString s.

(** The value of a digit character: [0-9], [a-z] and [A-Z] count up to 35. *)
Definition digit_of (c : ascii) : option Z :=
  let n := Z.of_N (Ascii.N_of_ascii c) in
  if decide (48 ≤ n ≤ 57) then Some (n - 48)
  else if decide (97 ≤ n ≤ 122) then Some (n - 87)
  else if decide (65 ≤ n ≤ 90) then Some (n - 55)
  else None.

(** The digits of an [int] literal: single underscores may separate
    digits; [after_digit] tells whether the previous character was one. *)
Fixpoint int_digits (base : Z) (s : string) (acc : Z) (after_digit : bool) : option Z :=
  match s with
  | EmptyString => if after_digit then Some acc else None
  | String c rest =>
      if decide (c = "_"%char) then
        if after_digit then int_digits base rest acc false else None
      else
        match digit_of c with
        | Some d =>
            if decide (d < base) then int_digits base rest (acc * base + d) true
            else None
        | None => None
        end
  end.

(** An unsigned literal; base 16 accepts a [0x] or [0X] prefix, which one
    underscore may follow. *)
Definition int_unsigned (base : Z) (s : string) : option Z :=
  match s with
  | String "0" (String x rest) =>
      if decide (base = 16 ∧ (x = "x"%char ∨ x = "X"%char)) then
        match rest with
        | String "_" rest' => int_digits base rest' 0 false
        | _ => int_digits base rest 0 false
        end
      else int_digits base s 0 false
  | _ => int_digits base s 0 false
  end.

(** [int(s, base)] for a string without surrounding space, base 10 or 16.
    (CPython's limit of 4300 digits on decimal literals is not modelled.) *)
Definition py_int (base : Z) (s : string) : result Z :=
  let parsed :=
    match s with
    | String "+" rest => int_unsigned base rest
    | String "-" rest => Z.opp <$> int_unsigned base rest
    | _ => int_unsigned base s
    end in
  match parsed with
  | Some z => Ok z
  | None => Raise ValueError
  end.

(** [int(parts[k])] *)
Definition int_field (parts : list string) (k : Z) : result Z :=
  s ← py_getitem parts k;
  py_int 10 s.

(** ** struct.pack, little-endian, no padding *)

(** One unsigned field of [n] bytes ([B]: 1, [H]: 2, [I]: 4); a value
    outside [0, 2^(8n)) raises struct.error. *)
Definition pack_uint (n : Z) (x : Z) : result (list Z) :=
  if decide (0 ≤ x < 2 ^ (8 * n)) then Ok (Z_to_little_endian n 8 x)
  else Raise StructError.

(** [b'TFNT'] *)
Definition FONT_MAGIC : list Z := [84; 70; 78; 84].

Definition FONT_VERSION : Z := 1.

(** [struct.pack('<4sBBBBII', magic, version, a, b, flags, count, aux)] *)
Definition pack_header (magic : list Z) (version dim_a dim_b flags count aux : Z)
  : result (list Z) :=
  v ← pack_uint 1 version;
  a ← pack_uint 1 dim_a;
  b ← pack_uint 1 dim_b;
  f ← pack_uint 1 flags;
  c ← pack_uint 4 count;
  x ← pack_uint 4 aux;
  Ok (magic ++ v ++ a ++ b ++ f ++ c ++ x).

(** [struct.pack('<HI', codepoint, offset)] *)
Definition pack_entry_fixed (codepoint offset : Z) : result (list Z) :=
  c ← pack_uint 2 codepoint;
  o ← pack_uint 4 offset;
  Ok (c ++ o).

(** [struct.pack('<IIBB', cp, bitmap_offset, width, height)] *)
Definition pack_entry_variable (cp bitmap_offset width height : Z) : result (list Z) :=
  c ← pack_uint 4 cp;
  o ← pack_uint 4 bitmap_offset;
  w ← pack_uint 1 width;
  h ← pack_uint 1 height;
  Ok (c ++ o ++ w ++ h).

(** * bdf2fnt.py *)

(** ** Glyph records *)

(** The dictionary appended to [glyphs] by [parse_bdf]. *)
Record bdf_glyph : Type := BdfGlyph {
  encoding : Z;
  dwidth : Z;
  bbx_w : Z;
  bbx_h : Z;
  bbx_x : Z;
  bbx_y : Z;
  bitmap : list Z
}.

(** ** [parse_bdf] *)

(** What the outer loop (lines 53-70) reads from a line. *)
Inductive font_line : Type :=
  | FontBoundingBox (w h x y : Z)
  | FontAscent (a : Z)
  | FontDescent (d : Z)
  | Chars (n : Z)
  | StartChar
  | OtherFontLine.

Definition read_font_line (raw : string) : result font_line :=
  let line := strip raw in
  if startswith "FONTBOUNDINGBOX " line then
    let parts := split line in
    w ← int_field parts 1;
    h ← int_field parts 2;
    x ← int_field parts 3;
    y ← int_field parts 4;
    Ok (FontBoundingBox w h x y)
  else if startswith "FONT_ASCENT " line then
    a ← int_field (split line) 1; Ok (FontAscent a)
  else if startswith "FONT_DESCENT " line then
    d ← int_field (split line) 1; Ok (FontDescent d)
  else if startswith "CHARS " line then
    n ← int_field (split line) 1; Ok (Chars n)
  else if startswith "STARTCHAR " line then Ok StartChar
  else Ok OtherFontLine.

Definition apply_font_line (fl : font_line) (properties : gmap string Z)
  : gmap string Z :=
  match fl with
  | FontBoundingBox w h x y =>
      <["fbb_y" := y]> (<["fbb_x" := x]> (<["fbb_height" := h]>
        (<["fbb_width" := w]> properties)))
  | FontAscent a => <["ascent" := a]> properties
  | FontDescent d => <["descent" := d]> properties
  | Chars n => <["char_count" := n]> properties
  | StartChar | OtherFontLine => properties
  end.

(** The local variables of the glyph loop (lines 71-74). *)
Record glyph_scan : Type := GlyphScan {
  gs_encoding : option Z;
  gs_dwidth : Z;
  gs_bbx_w : Z;
  gs_bbx_h : Z;
  gs_bbx_x : Z;
  gs_bbx_y : Z;
  gs_bitmap_rows : list Z
}.

Definition glyph_scan_init : glyph_scan := GlyphScan None 0 0 0 0 0 [].

(** What the glyph loop (lines 78-90) reads from a line. *)
Inductive glyph_line : Type :=
  | Encoding (e : Z)
  | DWidth (d : Z)
  | Bbx (w h x y : Z)
  | BitmapMarker
  | OtherGlyphLine.

Definition read_glyph_line (raw : string) : result glyph_line :=
  let gline := strip raw in
  if startswith "ENCODING " gline then
    e ← int_field (split gline) 1; Ok (Encoding e)
  else if startswith "DWIDTH " gline then
    d ← int_field (split gline) 1; Ok (DWidth d)
  else if startswith "BBX " gline then
    let parts := split gline in
    w ← int_field parts 1;
    h ← int_field parts 2;
    x ← int_field parts 3;
    y ← int_field parts 4;
    Ok (Bbx w h x y)
  else if decide (gline = "BITMAP") then Ok BitmapMarker
  else Ok OtherGlyphLine.

Definition apply_glyph_line (gl : glyph_line) (g : glyph_scan) : glyph_scan :=
  match gl with
  | Encoding e =>
      GlyphScan (Some e) (gs_dwidth g) (gs_bbx_w g) (gs_bbx_h g) (gs_bbx_x g)
        (gs_bbx_y g) (gs_bitmap_rows g)
  | DWidth d =>
      GlyphScan (gs_encoding g) d (gs_bbx_w g) (gs_bbx_h g) (gs_bbx_x g)
        (gs_bbx_y g) (gs_bitmap_rows g)
  | Bbx w h x y =>
      GlyphScan (gs_encoding g) (gs_dwidth g) w h x y (gs_bitmap_rows g)
  | BitmapMarker | OtherGlyphLine => g
  end.

(** What the bitmap loop (lines 92-97) reads from a line. *)
Inductive bitmap_line : Type :=
  | EndChar
  | BlankRow
  | Row (row_val : Z).

Definition read_bitmap_line (raw : string) : result bitmap_line :=
  if decide (strip raw = "ENDCHAR") then Ok EndChar
  else
    let hex_str := strip raw in
    if decide (hex_str = EmptyString) then Ok BlankRow
    else row_val ← py_int 16 hex_str; Ok (Row row_val).

Definition append_row (row_val : Z) (g : glyph_scan) : glyph_scan :=
  GlyphScan (gs_encoding g) (gs_dwidth g) (gs_bbx_w g) (gs_bbx_h g) (gs_bbx_x g)
    (gs_bbx_y g) (gs_bitmap_rows g ++ [row_val]).

(** Lines 102-112: the glyph is kept when it has an encoding [>= 0]. *)
Definition close_glyph (g : glyph_scan) (glyphs : list bdf_glyph) : list bdf_glyph :=
  match gs_encoding g with
  | Some e =>
      if decide (e >= 0) then
        glyphs ++ [BdfGlyph e (gs_dwidth g) (gs_bbx_w g) (gs_bbx_h g) (gs_bbx_x g)
                     (gs_bbx_y g) (gs_bitmap_rows g)]
      else glyphs
  | None => glyphs
  end.

(** Where the shared cursor [i] of the three nested loops stands. *)
Inductive scan_state : Type :=
  | ScanningFont
  | ScanningGlyph (g : glyph_scan)
  | ScanningBitmap (g : glyph_scan).

(** Lines 51-114 as a scan over the remaining lines. The glyph loop ends at
    the end of the bitmap ([break]) or of the input; the line on which the
    bitmap loop stops (ENDCHAR) is consumed by the outer [i += 1]. *)
Fixpoint parse_lines (lines : list string) (st : scan_state)
    (properties : gmap string Z) (glyphs : list bdf_glyph)
  : result (gmap string Z * list bdf_glyph) :=
  match lines with
  | [] =>
      match st with
      | ScanningFont => Ok (properties, glyphs)
      | ScanningGlyph g | ScanningBitmap g => Ok (properties, close_glyph g glyphs)
      end
  | raw :: rest =>
      match st with
      | ScanningFont =>
          fl ← read_font_line raw;
          match fl with
          | StartChar => parse_lines rest (ScanningGlyph glyph_scan_init) properties glyphs
          | _ => parse_lines rest ScanningFont (apply_font_line fl properties) glyphs
          end
      | ScanningGlyph g =>
          gl ← read_glyph_line raw;
          match gl with
          | BitmapMarker => parse_lines rest (ScanningBitmap g) properties glyphs
          | _ => parse_lines rest (ScanningGlyph (apply_glyph_line gl g)) properties glyphs
          end
      | ScanningBitmap g =>
          bl ← read_bitmap_line raw;
          match bl with
          | EndChar => parse_lines rest ScanningFont properties (close_glyph g glyphs)
          | BlankRow => parse_lines rest (ScanningBitmap g) properties glyphs
          | Row row_val =>
              parse_lines rest (ScanningBitmap (append_row row_val g)) properties glyphs
          end
      end
  end.

(** [parse_bdf] on the lines of the file ([f.readlines()]). *)
Definition parse_bdf (lines : list string)
  : result (gmap string Z * list bdf_glyph) :=
  parse_lines lines ScanningFont ∅ [].

(** ** [render_glyph_to_fixed_size] *)

(** [canvas = [[0] * target_width for _ in range(target_height)]]: every row
    is a list object of its own, so rows are not aliased. *)
Definition new_canvas (target_width target_height : Z) : list (list Z) :=
  replicate (Z.to_nat target_height) (replicate (Z.to_nat target_width) 0).

Definition baseline_y (font_ascent : Z) : Z := font_ascent - 1.

Definition glyph_top_y (g : bdf_glyph) (font_ascent : Z) : Z :=
  baseline_y font_ascent - (bbx_y g + bbx_h g - 1).

Definition glyph_left_x (g : bdf_glyph) : Z := bbx_x g.

Definition byte_width (w : Z) : Z := (w + 7) `div` 8 * 8.

(** [canvas[canvas_y][canvas_x] = 1] *)
Definition canvas_set (canvas : list (list Z)) (canvas_y canvas_x : Z)
  : result (list (list Z)) :=
  row ← py_getitem canvas canvas_y;
  row' ← py_setitem row canvas_x 1;
  py_setitem canvas canvas_y row'.

(** The loop [for bit_idx in range(bbx_w)] over one source row. *)
Fixpoint place_bits (w left target_width canvas_y row_val : Z)
    (bit_idxs : list Z) (canvas : list (list Z)) : result (list (list Z)) :=
  match bit_idxs with
  | [] => Ok canvas
  | bit_idx :: rest =>
      let canvas_x := left + bit_idx in
      if decide (canvas_x < 0 ∨ canvas_x >= target_width) then
        place_bits w left target_width canvas_y row_val rest canvas
      else
        let bit_pos := byte_width w - 1 - bit_idx in
        if truthy (Z.land (row_val ≫ bit_pos) 1) then
          canvas' ← canvas_set canvas canvas_y canvas_x;
          place_bits w left target_width canvas_y row_val rest canvas'
        else
          place_bits w left target_width canvas_y row_val rest canvas
  end.

(** The loop [for row_idx, row_val in enumerate(bitmap)]; [row_idx] is the
    index of the head of [rows]. *)
Fixpoint place_rows (w top left target_width target_height : Z)
    (row_idx : Z) (rows : list Z) (canvas : list (list Z))
  : result (list (list Z)) :=
  match rows with
  | [] => Ok canvas
  | row_val :: rest =>
      let canvas_y := top + row_idx in
      if decide (canvas_y < 0 ∨ canvas_y >= target_height) then
        place_rows w top left target_width target_height (row_idx + 1) rest canvas
      else
        canvas' ← place_bits w left target_width canvas_y row_val
                     (seqZ 0 w) canvas;
        place_rows w top left target_width target_height (row_idx + 1) rest canvas'
  end.

(** Lines 131-174: the canvas after placement. *)
Definition render_canvas (g : bdf_glyph) (target_width target_height font_ascent : Z)
  : result (list (list Z)) :=
  let canvas := new_canvas target_width target_height in
  if decide (bbx_w g = 0 ∨ bbx_h g = 0 ∨ bitmap g = []) then Ok canvas
  else
    place_rows (bbx_w g) (glyph_top_y g font_ascent) (glyph_left_x g)
      target_width target_height 0 (bitmap g) canvas.

(** [result[i // 8] |= (0x80 >> (i % 8))] on a bytearray: the new value must
    be a byte, else ValueError. *)
Definition bytearray_or (buf : list Z) (i : Z) (mask : Z) : result (list Z) :=
  old ← py_getitem buf i;
  let new := Z.lor old mask in
  if decide (0 ≤ new < 256) then py_setitem buf i new else Raise ValueError.

(** The loop [for i, bit in enumerate(bits)]; [i] is the index of the head. *)
Fixpoint pack_loop (i : Z) (bits : list Z) (buf : list Z) : result (list Z) :=
  match bits with
  | [] => Ok buf
  | bit :: rest =>
      if truthy bit then
        buf' ← bytearray_or buf (i `div` 8) (0x80 ≫ (i `mod` 8));
        pack_loop (i + 1) rest buf'
      else pack_loop (i + 1) rest buf
  end.

(** Lines 182-188: pack a flat bit list MSB first. *)
Definition pack_bits (bits : list Z) : result (list Z) :=
  let byte_count := (Z.of_nat (length bits) + 7) `div` 8 in
  pack_loop 0 bits (replicate (Z.to_nat byte_count) 0).

(** Lines 177-179: [bits.extend(row)] for every canvas row. *)
Definition flatten_canvas (canvas : list (list Z)) : list Z := concat canvas.

(** Lines 131-188: placement on the canvas, then packing. *)
Definition render_glyph_to_fixed_size (g : bdf_glyph)
    (target_width target_height font_ascent font_descent : Z) : result (list Z) :=
  canvas ← render_canvas g target_width target_height font_ascent;
  pack_bits (flatten_canvas canvas).

(** ** [create_fnt_file] *)

(** What the three [f.write] calls put in the output file. *)
Record fnt_file : Type := FntFile {
  fnt_header : list Z;
  fnt_index : list Z;
  fnt_bitmap : list Z
}.

Definition file_bytes (f : fnt_file) : list Z :=
  fnt_header f ++ fnt_index f ++ fnt_bitmap f.

(** [properties.get('ascent', properties.get('fbb_height', 9))] *)
Definition font_ascent_of (properties : gmap string Z) : Z :=
  default (default 9 (properties !! "fbb_height")) (properties !! "ascent").

(** [properties.get('descent', 0)] *)
Definition font_descent_of (properties : gmap string Z) : Z :=
  default 0 (properties !! "descent").

(** [target_width] after lines 206-207; [None] is an absent [--width]. *)
Definition target_width_of (properties : gmap string Z) (target_width : option Z) : Z :=
  match target_width with
  | None => default 9 (properties !! "fbb_width")
  | Some w => w
  end.

(** [target_height] after lines 208-209. *)
Definition target_height_of (properties : gmap string Z) (target_height : option Z) : Z :=
  match target_height with
  | None => font_ascent_of properties + font_descent_of properties
  | Some h => h
  end.

(** Lines 214-215. *)
Definition valid_glyphs (glyphs : list bdf_glyph) : list bdf_glyph :=
  py_sorted encoding (filter (λ g, 0 < encoding g ≤ 65535) glyphs).

(** Lines 221-224: the list [rendered] of (codepoint, bitmap) pairs. *)
Fixpoint render_all (gs : list bdf_glyph)
    (target_width target_height font_ascent font_descent : Z)
  : result (list (Z * list Z)) :=
  match gs with
  | [] => Ok []
  | g :: rest =>
      bitmap ← render_glyph_to_fixed_size g target_width target_height
                 font_ascent font_descent;
      rendered ← render_all rest target_width target_height font_ascent font_descent;
      Ok ((encoding g, bitmap) :: rendered)
  end.

(** Lines 248-251: the loop over [enumerate(rendered)]; [i] is the index of
    the head, [index_data] and [bitmap_data] the two bytearrays. *)
Fixpoint build_index (bitmap_start bytes_per_glyph i : Z)
    (rendered : list (Z * list Z)) (index_data bitmap_data : list Z)
  : result (list Z * list Z) :=
  match rendered with
  | [] => Ok (index_data, bitmap_data)
  | (codepoint, bitmap) :: rest =>
      let offset := bitmap_start + i * bytes_per_glyph in
      entry ← pack_entry_fixed codepoint offset;
      build_index bitmap_start bytes_per_glyph (i + 1) rest
        (index_data ++ entry) (bitmap_data ++ bitmap)
  end.

(** Lines 203-257. The output file is opened only after header, index and
    bitmap data have been built: [Raise] leaves the output path untouched,
    [Ok f] is the file written. *)
Definition encode_fnt (properties : gmap string Z) (glyphs : list bdf_glyph)
    (target_width target_height : option Z) : result fnt_file :=
  let font_ascent := font_ascent_of properties in
  let font_descent := font_descent_of properties in
  let target_width := target_width_of properties target_width in
  let target_height := target_height_of properties target_height in
  rendered ← render_all (valid_glyphs glyphs) target_width target_height
               font_ascent font_descent;
  let bytes_per_glyph := (target_width * target_height + 7) `div` 8 in
  let glyph_count := Z.of_nat (length rendered) in
  header ← pack_header FONT_MAGIC 1 target_width target_height 0 glyph_count 16;
  let index_size := glyph_count * 6 in
  let bitmap_start := 16 + index_size in
  '(index_data, bitmap_data) ← build_index bitmap_start bytes_per_glyph 0 rendered [] [];
  Ok (FntFile header index_data bitmap_data).

(** [create_fnt_file]: parse, then encode (lines 196-257). *)
Definition create_fnt_file (lines : list string) (target_width target_height : option Z)
  : result fnt_file :=
  '(properties, glyphs) ← parse_bdf lines;
  encode_fnt properties glyphs target_width target_height.

(** ** [verify_glyph] *)

(** Lines 292-295: whether pixel [bit_idx] of a packed bitmap is drawn. *)
Definition shown_pixel (bitmap : list Z) (bit_idx : Z) : result bool :=
  let byte_idx := bit_idx `div` 8 in
  let bit_pos := 7 - bit_idx `mod` 8 in
  byte ← py_getitem bitmap byte_idx;
  Ok (truthy (Z.land byte (1 ≪ bit_pos))).

(** Lines 289-299: the rows printed, [true] for a filled cell. *)
Definition shown_rows (bitmap : list Z) (target_width target_height : Z)
  : result (list (list bool)) :=
  mapM (λ y, mapM (λ x, shown_pixel bitmap (y * target_width + x)) (seqZ 0 target_width))
       (seqZ 0 target_height).

(** Lines 279-280: the first glyph with the encoding asked for. *)
Fixpoint find_encoding (codepoint : Z) (glyphs : list bdf_glyph) : option bdf_glyph :=
  match glyphs with
  | [] => None
  | g :: rest => if decide (encoding g = codepoint) then Some g
                 else find_encoding codepoint rest
  end.

(** Lines 271-302; [None] is the message that the character was not
    found. The ascent defaults to 9 here, not to the bounding box height. *)
Definition verify_glyph (lines : list string) (codepoint target_width : Z)
    (target_height : option Z) : result (option (list (list bool))) :=
  '(properties, glyphs) ← parse_bdf lines;
  let font_ascent := default 9 (properties !! "ascent") in
  let font_descent := default 0 (properties !! "descent") in
  let target_height :=
    match target_height with
    | None => font_ascent + font_descent
    | Some h => h
    end in
  match find_encoding codepoint glyphs with
  | Some g =>
      bitmap ← render_glyph_to_fixed_size g target_width target_height
                 font_ascent font_descent;
      rows ← shown_rows bitmap target_width target_height;
      Ok (Some rows)
  | None => Ok None
  end.

(** * ttf2fnt.py *)

(** ** The outline rasterizer (Pillow) as an interface *)

(** [font.getbbox(char)] inside the [try] of [render_glyph]. *)
Inductive bbox_result : Type :=
  | GetbboxRaises
  | GetbboxNone
  | Getbbox (x0 y0 x1 y1 : Z).

(** The Pillow calls of ttf2fnt.py. [font] is an [ImageFont] loaded at a
    pixel size, [image] an [Image]. *)
Class Rasterizer (font image : Type) : Type := {
  (** [ImageFont.truetype(str(ttf_path), size)]; [None] when it raises. *)
  truetype : Z → option font;
  font_getbbox : font → Z → bbox_result;
  (** [Image.new('L', (canvas_w, canvas_h), 0)] followed by
      [draw.text((x, y), char, font=font, fill=255)]. *)
  draw_text : font → Z → Z → Z → Z → Z → image;
  (** [img.getbbox()] *)
  image_getbbox : image → option (Z * Z * Z * Z);
  (** [img.crop(box)] *)
  image_crop : image → Z * Z * Z * Z → image;
  (** The grey values of an image in row-major order. *)
  image_getdata : image → list Z
}.

(** ** [get_font_codepoints] *)

(** One unicode cmap subtable of [font['cmap'].tables]. *)
Record cmap_table : Type := CmapTable {
  isUnicode : bool;
  cmap_keys : list Z
}.

(** Lines 53-64; the font is given by its cmap subtables. *)
Definition get_font_codepoints (tables : list cmap_table) : list Z :=
  let codepoints : gset Z :=
    foldl (λ acc table,
             if isUnicode table then acc ∪ list_to_set (cmap_keys table) else acc)
          ∅ tables in
  py_sorted id (filter (λ cp, cp >= 0x20) (elements codepoints)).

(** ** [render_glyph] and [create_font_file] *)

(** [lambda x: 1 if x > 30 else 0] *)
Definition threshold (x : Z) : Z := if decide (x > 30) then 1 else 0.

(** The loop [for pixel in pixels] with its accumulators [byte], [bit_pos]
    and [packed], followed by [if bit_pos > 0: packed.append(byte)]. *)
Fixpoint pack_pixels_loop (pixels : list Z) (byte bit_pos : Z) (packed : list Z)
  : list Z :=
  match pixels with
  | [] => if decide (bit_pos > 0) then packed ++ [byte] else packed
  | pixel :: rest =>
      let byte := if truthy pixel then Z.lor byte (1 ≪ (7 - bit_pos)) else byte in
      let bit_pos := bit_pos + 1 in
      if decide (bit_pos = 8) then pack_pixels_loop rest 0 0 (packed ++ [byte])
      else pack_pixels_loop rest byte bit_pos packed
  end.

Definition pack_pixels (pixels : list Z) : result (list Z) :=
  py_bytes (pack_pixels_loop pixels 0 0 []).

(** An element of the list [glyphs] of [create_font_file]. *)
Record ttf_glyph : Type := TtfGlyph {
  tg_cp : Z;
  tg_bitmap : list Z;
  tg_width : Z;
  tg_height : Z
}.

(** How a run of [create_font_file] ends, and what it leaves at the output
    path: [None] when the path was never opened, otherwise the bytes
    written before the file was closed. *)
Inductive outcome : Type :=
  | Returned (success : bool)
  | Raised (e : exn).

Record run : Type := Run {
  run_outcome : outcome;
  run_file : option (list Z)
}.

Section render.
Context {font image : Type} `{Rasterizer font image}.

(** Lines 81-139. [chr(codepoint)] stands outside the [try] and raises
    ValueError outside [range(0x110000)]. The first component is [None] for
    Python's [None]. *)
Definition render_glyph (fnt : font) (codepoint size : Z)
  : result (option (list Z) * Z * Z) :=
  if decide (0 ≤ codepoint < 0x110000) then
    match font_getbbox fnt codepoint with
    | GetbboxRaises => Ok (None, 0, 0)
    | GetbboxNone => Ok (None, 0, 0)
    | Getbbox x0 y0 x1 y1 =>
        if decide (x1 ≤ x0 ∨ y1 ≤ y0) then
          if decide (codepoint = 0x20) then Ok (Some (zero_bytes 1), size `div` 3, size)
          else Ok (None, 0, 0)
        else
          let glyph_width := x1 - x0 in
          let glyph_height := y1 - y0 in
          let canvas_w := glyph_width + 2 in
          let canvas_h := glyph_height + 2 in
          let img := draw_text fnt canvas_w canvas_h (1 - x0) (1 - y0) codepoint in
          match image_getbbox img with
          | None => Ok (None, 0, 0)
          | Some (cx0, cy0, cx1, cy1) =>
              let glyph_img := image_crop img (cx0, cy0, cx1, cy1) in
              let final_width := cx1 - cx0 in
              let final_height := cy1 - cy0 in
              let pixels := threshold <$> image_getdata glyph_img in
              packed ← pack_pixels pixels;
              Ok (Some packed, final_width, final_height)
          end
    end
  else Raise ValueError.

(** Lines 175-180: the loop over [codepoints] with its accumulators. *)
Fixpoint render_codepoints (fnt : font) (size : Z) (codepoints : list Z)
    (glyphs : list ttf_glyph) (max_width max_height : Z)
  : result (list ttf_glyph * Z * Z) :=
  match codepoints with
  | [] => Ok (glyphs, max_width, max_height)
  | cp :: rest =>
      '(bitmap, width, height) ← render_glyph fnt cp size;
      match bitmap with
      | Some bm =>
          if decide (bm ≠ [] ∧ width > 0 ∧ height > 0) then
            render_codepoints fnt size rest (glyphs ++ [TtfGlyph cp bm width height])
              (Z.max max_width width) (Z.max max_height height)
          else render_codepoints fnt size rest glyphs max_width max_height
      | None => render_codepoints fnt size rest glyphs max_width max_height
      end
  end.

(** Lines 217-222: the index loop; [f] is the file content so far. *)
Fixpoint write_index (glyphs : list ttf_glyph) (bitmap_offset : Z) (f : list Z)
  : list Z * option exn :=
  match glyphs with
  | [] => (f, None)
  | g :: rest =>
      match pack_entry_variable (tg_cp g) bitmap_offset (tg_width g) (tg_height g) with
      | Ok entry =>
          write_index rest (bitmap_offset + Z.of_nat (length (tg_bitmap g))) (f ++ entry)
      | Raise e => (f, Some e)
      end
  end.

(** Lines 225-226. *)
Definition write_bitmaps (glyphs : list ttf_glyph) (f : list Z) : list Z :=
  foldl (λ f g, f ++ tg_bitmap g) f glyphs.

(** Lines 156-235. *)
Definition create_font_file (tables : list cmap_table) (size : Z) : run :=
  let codepoints := get_font_codepoints tables in
  match truetype size with
  | None => Run (Returned false) None
  | Some fnt =>
      match render_codepoints fnt size codepoints [] 0 0 with
      | Raise e => Run (Raised e) None
      | Ok (glyphs, max_width, max_height) =>
          if decide (glyphs = []) then Run (Returned false) None
          else
            let header_size := 16 in
            let index_entry_size := 10 in
            let index_size := Z.of_nat (length glyphs) * index_entry_size in
            (* with open(output_path, 'wb') as f: *)
            match pack_header FONT_MAGIC FONT_VERSION max_width max_height 1
                    (Z.of_nat (length glyphs)) 0 with
            | Raise e => Run (Raised e) (Some [])
            | Ok header =>
                match write_index glyphs (header_size + index_size) header with
                | (f, Some e) => Run (Raised e) (Some f)
                | (f, None) => Run (Returned true) (Some (write_bitmaps glyphs f))
                end
            end
      end
  end.

(** [sys.exit(0 if success else 1)]; an uncaught exception exits with 1. *)
Definition exit_code (r : run) : Z :=
  match run_outcome r with
  | Returned true => 0
  | _ => 1
  end.

End render.

(** ** [preview_glyph] *)

(** Lines 256-258: whether the pixel at [bit_index] is drawn; a pixel past
    the end of the bitmap is left blank. *)
Definition preview_pixel (bitmap : list Z) (bit_index : Z) : result bool :=
  let byte_idx := bit_index `div` 8 in
  let bit_pos := 7 - bit_index `mod` 8 in
  if decide (byte_idx < Z.of_nat (length bitmap)) then
    byte ← py_getitem bitmap byte_idx;
    Ok (truthy (Z.land byte (1 ≪ bit_pos)))
  else Ok false.

(** Lines 255-262: one row; [bit_index] runs on from row to row. *)
Fixpoint preview_row (bitmap : list Z) (xs : list Z) (bit_index : Z)
  : result (list bool * Z) :=
  match xs with
  | [] => Ok ([], bit_index)
  | _ :: rest =>
      drawn ← preview_pixel bitmap bit_index;
      '(row, bit_index') ← preview_row bitmap rest (bit_index + 1);
      Ok (drawn :: row, bit_index')
  end.

(** Lines 252-263: the rows printed between the frame lines. *)
Fixpoint preview_rows_from (bitmap : list Z) (width : Z) (ys : list Z) (bit_index : Z)
  : result (list (list bool)) :=
  match ys with
  | [] => Ok []
  | _ :: rest =>
      '(row, bit_index') ← preview_row bitmap (seqZ 0 width) bit_index;
      rows ← preview_rows_from bitmap width rest bit_index';
      Ok (row :: rows)
  end.

(** [bit_index = 0] before the first row. *)
Definition preview_rows (bitmap : list Z) (width height : Z) : result (list (list bool)) :=
  preview_rows_from bitmap width (seqZ 0 height) 0.

Section preview.
Context {font image : Type} `{Rasterizer font image}.

(** Lines 242-264 for a font that has been loaded; [None] is the message
    that the character is not available. *)
Definition preview_glyph (fnt : font) (codepoint size : Z)
  : result (option (list (list bool))) :=
  '(bitmap, width, height) ← render_glyph fnt codepoint size;
  match bitmap with
  | None => Ok None
  | Some bm => rows ← preview_rows bm width height; Ok (Some rows)
  end.

End preview.

(** * Specification vocabulary *)

(** ** Canvases and source bitmaps *)

(** The value of canvas cell [(y, x)], 0 outside the canvas. *)
Definition cell (c : list (list Z)) (y x : Z) : Z :=
  if decide (0 ≤ y ∧ 0 ≤ x) then
    default 0 (c !! Z.to_nat y ≫= λ row, row !! Z.to_nat x)
  else 0.

(** A canvas of [th] rows of [tw] cells. *)
Definition wf_canvas (tw th : Z) (c : list (list Z)) : Prop :=
  length c = Z.to_nat th ∧ Forall (λ row, length row = Z.to_nat tw) c.

(** Bit [b] (counted from the left) of row [r] of a source bitmap that is
    [w] pixels wide; [false] outside the bitmap. *)
Definition row_bit (w : Z) (rows : list Z) (r b : Z) : bool :=
  bool_decide (0 ≤ r ∧ 0 ≤ b < w) &&
  match rows !! Z.to_nat r with
  | Some v => Z.testbit v (byte_width w - 1 - b)
  | None => false
  end.

(** The glyphs that [render_glyph_to_fixed_size] leaves blank (line 140). *)
Definition glyph_blank (g : bdf_glyph) : Prop :=
  bbx_w g = 0 ∨ bbx_h g = 0 ∨ bitmap g = [].

(** The source bit of a glyph at row [r], column [b] of its bounding box. *)
Definition src_bit (g : bdf_glyph) (r b : Z) : bool :=
  bool_decide (¬ glyph_blank g) && row_bit (bbx_w g) (bitmap g) r b.

(** ** Packed bitmaps *)

(** A value of a [bytes] object. *)
Definition is_byte (b : Z) : Prop := 0 ≤ b < 256.

(** Bit [j] of a packed bitmap: bit [7 - j mod 8] of byte [j / 8]. *)
Definition get_bit (bs : list Z) (j : Z) : bool :=
  Z.testbit (default 0 (bs !! Z.to_nat (j `div` 8))) (7 - j `mod` 8).

(** Pixel [j] of a flat pixel list as a bit; [false] past its end. *)
Definition pixel_at (px : list Z) (j : Z) : bool :=
  bool_decide (0 ≤ j) && truthy (default 0 (px !! Z.to_nat j)).

(** [bs] is the MSB-first packing of [bits]: [ceil (len / 8)] bytes whose
    bit [j] is pixel [j]. *)
Definition packs (bits bs : list Z) : Prop :=
  Z.of_nat (length bs) = (Z.of_nat (length bits) + 7) `div` 8 ∧
  Forall is_byte bs ∧
  ∀ j, 0 ≤ j → get_bit bs j = pixel_at bits j.

(** ** Containers *)

(** [int.from_bytes(bs[pos:pos+n], 'little')]: the unsigned field of [n]
    bytes at position [pos]. *)
Definition read_uint (n : nat) (bs : list Z) (pos : nat) : Z :=
  little_endian_to_Z 8 (take n (drop pos bs)).

(** The layout of a container with [entry_size] bytes per index entry and
    the offset at byte [offset_field] of each entry, holding [bitmaps] in
    index order: the header counts the bitmaps, the first offset is
    [16 + glyph_count * entry_size], each further offset is the previous one
    plus the length of the previous bitmap, the bytes at offset [i] are
    bitmap [i], and the last bitmap ends the file. *)
Definition contiguous_layout (entry_size offset_field : nat) (bytes : list Z)
    (bitmaps : list (list Z)) : Prop :=
  let glyph_count := length bitmaps in
  let offset (i : nat) := read_uint 4 bytes (16 + entry_size * i + offset_field) in
  read_uint 4 bytes 8 = Z.of_nat glyph_count ∧
  (∀ bm, bitmaps !! 0%nat = Some bm →
     offset 0%nat = 16 + Z.of_nat glyph_count * Z.of_nat entry_size) ∧
  (∀ i bm, bitmaps !! i = Some bm →
     ((S i < glyph_count)%nat → offset (S i) = offset i + Z.of_nat (length bm)) ∧
     0 ≤ offset i ∧
     take (length bm) (drop (Z.to_nat (offset i)) bytes) = bm) ∧
  (∀ bm, last bitmaps = Some bm →
     offset (glyph_count - 1)%nat + Z.of_nat (length bm) = Z.of_nat (length bytes)).

(** The code points of the index entries, read from the bytes of a
    container whose entries are [entry_size] bytes long and start with a
    code point of [cp_bytes] bytes. *)
Definition index_codepoints (entry_size cp_bytes : nat) (bytes : list Z) : list Z :=
  let glyph_count := Z.to_nat (read_uint 4 bytes 8) in
  (λ i, read_uint cp_bytes bytes (16 + entry_size * i)) <$> seq 0 glyph_count.

(** What [create_font_file] keeps of a rendered code point (line 177). *)
Definition glyph_ok (g : ttf_glyph) : Prop :=
  0 ≤ tg_cp g < 0x110000 ∧ tg_bitmap g ≠ [] ∧ 0 < tg_width g ∧ 0 < tg_height g.

(** The fields of one variable-format index entry are in range. *)
Definition entry_fits (g : ttf_glyph) (bitmap_offset : Z) : Prop :=
  0 ≤ tg_cp g < 2 ^ 32 ∧ 0 ≤ bitmap_offset < 2 ^ 32 ∧
  0 ≤ tg_width g < 256 ∧ 0 ≤ tg_height g < 256.

(** ** Glyph blocks of a font source *)

(** Lines that the outer loop reads without entering a glyph. *)
Definition font_lines (lines : list string) (kinds : list font_line) : Prop :=
  Forall2 (λ raw fl, read_font_line raw = Ok fl ∧ fl ≠ StartChar) lines kinds.

(** Lines that the glyph loop reads without reaching a bitmap. *)
Definition glyph_lines (lines : list string) (kinds : list glyph_line) : Prop :=
  Forall2 (λ raw gl, read_glyph_line raw = Ok gl ∧ gl ≠ BitmapMarker) lines kinds.

(** Lines that the bitmap loop reads as rows. *)
Definition bitmap_lines (lines : list string) (kinds : list bitmap_line) : Prop :=
  Forall2 (λ raw bl, read_bitmap_line raw = Ok bl ∧ bl ≠ EndChar) lines kinds.

(** What the bitmap loop does with a line it has read. *)
Definition apply_bitmap_line (bl : bitmap_line) (g : glyph_scan) : glyph_scan :=
  match bl with
  | Row row_val => append_row row_val g
  | EndChar | BlankRow => g
  end.

(** A well-formed glyph block: STARTCHAR, property lines that set the
    encoding, the device width and the bounding box (so that they decide
    every field of the record), BITMAP, rows, ENDCHAR. [g] is the state of
    the scan when the block ends. *)
Definition well_formed_block (lines : list string) (g : glyph_scan) : Prop :=
  ∃ start header marker rows endchar hkinds rkinds hdr,
    lines = start :: header ++ marker :: rows ++ [endchar] ∧
    read_font_line start = Ok StartChar ∧
    glyph_lines header hkinds ∧
    (∀ g0, gs_bitmap_rows g0 = [] → foldl (flip apply_glyph_line) g0 hkinds = hdr) ∧
    read_glyph_line marker = Ok BitmapMarker ∧
    bitmap_lines rows rkinds ∧
    read_bitmap_line endchar = Ok EndChar ∧
    g = foldl (flip apply_bitmap_line) hdr rkinds.

(** A stretch of a font source that the outer loop reads from its first
    line to its last: font-level lines and well-formed glyph blocks in any
    order. [kinds] are the font-level lines and [gs] the scans of the
    blocks, both in source order. *)
Inductive font_source : list string → list font_line → list glyph_scan → Prop :=
  | font_source_end : font_source [] [] []
  | font_source_line (raw : string) (fl : font_line) (lines : list string)
        (kinds : list font_line) (gs : list glyph_scan) :
      read_font_line raw = Ok fl → fl ≠ StartChar → font_source lines kinds gs →
      font_source (raw :: lines) (fl :: kinds) gs
  | font_source_block (block : list string) (g : glyph_scan) (lines : list string)
        (kinds : list font_line) (gs : list glyph_scan) :
      well_formed_block block g → font_source lines kinds gs →
      font_source (block ++ lines) kinds (g :: gs).

(** ** Words of a line *)

(** Whether a string ends in a character that is no white space. *)
Fixpoint ends_nonspace (s : string) : bool :=
  match s with
  | EmptyString => false
  | String c EmptyString => negb (py_isspace c)
  | String _ rest => ends_nonspace rest
  end.

(** Whether no character of a string is white space. *)
Fixpoint no_space (s : string) : bool :=
  match s with
  | EmptyString => true
  | String c rest => negb (py_isspace c) && no_space rest
  end.

(** * Example inputs

    A block font: the low line (0x5F) is a solid bar of [64 * size] by 1
    pixels, every other code point in [0x21, 0x7E] a solid rectangle of
    [size / 2] by [size] pixels, the space has an empty box, and no other
    code point has a glyph. Images are lists of rows of grey values. *)

Definition block_box (size cp : Z) : option (Z * Z) :=
  if decide (cp = 0x5F) then Some (64 * size, 1)
  else if decide (0x21 ≤ cp ≤ 0x7E) then Some (size `div` 2, size)
  else None.

(** A [w] x [h] image that is 255 inside the box and 0 outside. *)
Definition block_image (w h : Z) (x0 y0 x1 y1 : Z) : list (list Z) :=
  (λ y, (λ x, if decide (y0 ≤ y < y1 ∧ x0 ≤ x < x1) then 255 else 0) <$> seqZ 0 w)
    <$> seqZ 0 h.

(** The rows and the columns of an image that hold ink. *)
Definition ink_rows (img : list (list Z)) : list Z :=
  filter (λ y, Exists (λ p, p ≠ 0) (default [] (img !! Z.to_nat y)))
         (seqZ 0 (Z.of_nat (length img))).

Definition ink_columns (img : list (list Z)) : list Z :=
  filter (λ x, Exists (λ row, default 0 (row !! Z.to_nat x) ≠ 0) img)
         (seqZ 0 (Z.of_nat (length (default [] (head img))))).

(** The bounding box of the ink, as [Image.getbbox] gives it. *)
Definition block_getbbox (img : list (list Z)) : option (Z * Z * Z * Z) :=
  match ink_columns img, ink_rows img with
  | x :: xs, y :: ys =>
      Some (x, y, default x (last xs) + 1, default y (last ys) + 1)
  | _, _ => None
  end.

(** [Image.crop] to a box inside the image. *)
Definition block_crop (img : list (list Z)) (box : Z * Z * Z * Z) : list (list Z) :=
  let '(x0, y0, x1, y1) := box in
  (λ row, take (Z.to_nat (x1 - x0)) (drop (Z.to_nat x0) row))
    <$> take (Z.to_nat (y1 - y0)) (drop (Z.to_nat y0) img).

#[global] Instance block_rasterizer : Rasterizer Z (list (list Z)) := {|
  truetype size := if decide (0 < size) then Some size else None;
  font_getbbox size cp :=
    if decide (cp = 0x20) then Getbbox 0 0 0 0
    else match block_box size cp with
         | Some (w, h) => Getbbox 0 0 w h
         | None => GetbboxNone
         end;
  draw_text size w h x y cp :=
    match block_box size cp with
    | Some (bw, bh) => block_image w h x y (x + bw) (y + bh)
    | None => block_image w h 0 0 0 0
    end;
  image_getbbox := block_getbbox;
  image_crop := block_crop;
  image_getdata img := concat img
|}.

(** Two cmap subtables; the second one is not a unicode table. *)
Definition block_tables : list cmap_table :=
  [CmapTable true [65; 66; 0x20; 10; 200]; CmapTable false [67]].

(** A font with the wide low line. *)
Definition wide_tables : list cmap_table := [CmapTable true [65; 0x5F]].

(** A font in which every code point is a solid square of [size] by
    [size] pixels. *)
Definition solid_rasterizer : Rasterizer Z (list (list Z)) := {|
  truetype size := Some size;
  font_getbbox size cp := Getbbox 0 0 size size;
  draw_text size w h x y cp := block_image w h x y (x + size) (y + size);
  image_getbbox := block_getbbox;
  image_crop := block_crop;
  image_getdata img := concat img
|}.

(** The packed bitmap of a solid square of 255 by 255 pixels: 65025 bits. *)
Definition solid_bitmap : list Z := replicate (Z.to_nat 8128) 255 ++ [128].

(** The glyph of code point [cp] in that font at 255 pixels. *)
Definition solid_glyph (cp : Z) : ttf_glyph := TtfGlyph cp solid_bitmap 255 255.

(** A cmap that maps the 600000 code points from 0x20 on. *)
Definition many_tables : list cmap_table := [CmapTable true (seqZ 0x20 600000)].

(** The container of the block font at 4 pixels: space, A and B. *)
Definition block_font_bytes : list Z :=
  [84; 70; 78; 84; 1; 2; 4; 1; 3; 0; 0; 0; 0; 0; 0; 0;
   32; 0; 0; 0; 46; 0; 0; 0; 1; 4;
   65; 0; 0; 0; 47; 0; 0; 0; 2; 4;
   66; 0; 0; 0; 48; 0; 0; 0; 2; 4;
   0; 255; 255].

(** A 5x7 glyph standing on the baseline, one bitmap row per box row. *)
Definition glyph_full_height : bdf_glyph :=
  BdfGlyph 65 6 5 7 1 0 [0xF8; 0x88; 0x88; 0xF8; 0x88; 0x88; 0x70].

(** [glyph_full_height] on a 7x9 canvas with ascent 7. *)
Definition canvas_full_height : list (list Z) :=
  [[0;1;1;1;1;1;0]; [0;1;0;0;0;1;0]; [0;1;0;0;0;1;0]; [0;1;1;1;1;1;0];
   [0;1;0;0;0;1;0]; [0;1;0;0;0;1;0]; [0;0;1;1;1;0;0]; [0;0;0;0;0;0;0];
   [0;0;0;0;0;0;0]].

(** The properties of a font that declares only its bounding box. *)
Definition properties_no_metrics : gmap string Z :=
  {[ "fbb_width" := 5; "fbb_height" := 7; "fbb_x" := 0; "fbb_y" := -1 ]}.

(** Two glyphs, given in descending order of encoding. *)
Definition two_glyphs : list bdf_glyph :=
  [BdfGlyph 66 6 5 7 0 0 [0xF8]; BdfGlyph 65 6 5 7 0 0 [0xF8; 0x88]].

(** The properties of the font of [two_glyphs]. *)
Definition two_glyphs_properties : gmap string Z :=
  {[ "fbb_width" := 5; "fbb_height" := 7 ]}.

(** What [encode_fnt] writes for [two_glyphs]. *)
Definition two_glyphs_file : fnt_file :=
  FntFile [84; 70; 78; 84; 1; 5; 7; 0; 2; 0; 0; 0; 16; 0; 0; 0]
          [65; 0; 28; 0; 0; 0; 66; 0; 33; 0; 0; 0]
          [252; 64; 0; 0; 0; 248; 0; 0; 0; 0].

(** A font with a complete block, a block without BITMAP marker and
    another complete block. *)
Definition font_missing_bitmap : list string :=
  ["FONTBOUNDINGBOX 5 7 0 -1";
   "STARTCHAR A"; "ENCODING 65"; "DWIDTH 6 0"; "BBX 5 2 0 0"; "BITMAP"; "F8"; "88";
   "ENDCHAR";
   "STARTCHAR B"; "ENCODING 66"; "DWIDTH 7 0"; "BBX 5 3 0 0"; "ENDCHAR";
   "STARTCHAR C"; "ENCODING 67"; "DWIDTH 8 0"; "BBX 5 1 0 0"; "BITMAP"; "70";
   "ENDCHAR";
   "ENDFONT"].

(** A font that ends inside its second glyph block. *)
Definition font_cut_short : list string :=
  ["FONT_ASCENT 7";
   "STARTCHAR A"; "ENCODING 65"; "DWIDTH 6 0"; "BBX 5 2 0 0"; "BITMAP"; "F8"; "88";
   "ENDCHAR";
   "STARTCHAR B"; "ENCODING 66"; "BBX 5 2 0 0"].

(** A font whose first glyph block has an encoding that is no number. *)
Definition font_bad_encoding : list string :=
  ["FONTBOUNDINGBOX 5 7 0 -1";
   "STARTCHAR A"; "ENCODING x41"; "DWIDTH 6 0"; "BBX 5 2 0 0"; "BITMAP"; "F8"; "88";
   "ENDCHAR";
   "STARTCHAR B"; "ENCODING 66"; "DWIDTH 7 0"; "BBX 5 1 0 0"; "BITMAP"; "70";
   "ENDCHAR";
   "ENDFONT"].

(** A font with two glyph blocks, the second one not encoded. *)
Definition font_two_blocks : list string :=
  ["STARTFONT 2.1"; "FONT_ASCENT 7";
   "STARTCHAR A"; "ENCODING 65"; "DWIDTH 6 0"; "BBX 5 2 0 0"; "BITMAP"; "F8"; "88";
   "ENDCHAR";
   "STARTCHAR none"; "ENCODING -1"; "DWIDTH 6 0"; "BBX 5 1 0 0"; "BITMAP"; "70";
   "ENDCHAR";
   "ENDFONT"].

(** A font without glyph blocks. *)
Definition font_without_glyphs : list string :=
  ["STARTFONT 2.1"; "FONTBOUNDINGBOX 5 7 0 -1"; "CHARS 0"; "ENDFONT"].

(** * Properties *)

(** ** The result monad and list indexing *)

Lemma bind_Ok {A B} (a : A) (f : A → result B) : (Ok a ≫= f) = f a.
Proof. reflexivity. Qed.

Lemma bind_inv {A B} (m : result A) (f : A → result B) (b : B) :
  m ≫= f = Ok b → ∃ a, m = Ok a ∧ f a = Ok b.
Proof. destruct m as [a|e]; [|done]. intros Hf. by exists a. Qed.

Lemma bind_Raise_inv {A B} (m : result A) (f : A → result B) (e : exn) :
  m ≫= f = Raise e → m = Raise e ∨ ∃ a, m = Ok a ∧ f a = Raise e.
Proof. destruct m as [a|e']; [right; by exists a|intros [= ->]; by left]. Qed.

Lemma py_index_in_range (n : nat) (i : Z) :
  0 ≤ i < Z.of_nat n → py_index n i = Ok (Z.to_nat i).
Proof. intros H. unfold py_index. by rewrite decide_True. Qed.

Lemma py_getitem_in_range {A} (l : list A) (i : Z) (x : A) :
  0 ≤ i → l !! Z.to_nat i = Some x → py_getitem l i = Ok x.
Proof.
  intros Hi Hx. unfold py_getitem.
  rewrite py_index_in_range, bind_Ok, Hx; [done|].
  apply lookup_lt_Some in Hx. lia.
Qed.

Lemma py_setitem_in_range {A} (l : list A) (i : Z) (v : A) :
  0 ≤ i < Z.of_nat (length l) → py_setitem l i v = Ok (<[Z.to_nat i:=v]> l).
Proof. intros Hi. unfold py_setitem. by rewrite py_index_in_range, bind_Ok. Qed.

Lemma length_concat_uniform {A} (rows : list (list A)) (w : nat) :
  Forall (λ row, length row = w) rows →
  length (concat rows) = (length rows * w)%nat.
Proof.
  induction 1 as [|row rows Hrow _ IH]; [done|].
  cbn. rewrite length_app, IH, Hrow. lia.
Qed.

Lemma sum_list_with_uniform {A} (f : A → nat) (l : list A) (n : nat) :
  Forall (λ x, f x = n) l → sum_list_with f l = (length l * n)%nat.
Proof. induction 1 as [|x l Hx _ IH]; [done|]. cbn. rewrite Hx, IH. lia. Qed.

(** ** Placement on the canvas *)

Lemma land_shiftr_1 (v p : Z) :
  0 ≤ p → truthy (Z.land (v ≫ p) 1) = Z.testbit v p.
Proof.
  intros Hp. unfold truthy.
  change 1 with (Z.ones 1). rewrite Z.land_ones by lia.
  change (2 ^ 1) with 2.
  rewrite <- Z.bit0_mod, Z.shiftr_spec by lia. rewrite Z.add_0_l.
  by destruct (Z.testbit v p).
Qed.

Lemma canvas_set_spec (c : list (list Z)) (tw th y x : Z) :
  wf_canvas tw th c → 0 ≤ y < th → 0 ≤ x < tw →
  ∃ c', canvas_set c y x = Ok c' ∧ wf_canvas tw th c' ∧
    ∀ y' x', cell c' y' x' = if decide (y' = y ∧ x' = x) then 1 else cell c y' x'.
Proof.
  intros [Hlen Hrows] Hy Hx. unfold canvas_set.
  destruct (lookup_lt_is_Some_2 c (Z.to_nat y)) as [row Hrow]; [lia|].
  assert (Hrl : length row = Z.to_nat tw).
  { eapply Forall_lookup_1 in Hrows; eauto. }
  rewrite (py_getitem_in_range _ _ row), bind_Ok by (done || lia).
  rewrite py_setitem_in_range, bind_Ok by lia.
  rewrite py_setitem_in_range by lia.
  eexists; split; [done|]. split.
  - split; [by rewrite length_insert|].
    apply Forall_insert; [done|]. by rewrite length_insert.
  - intros y' x'. unfold cell.
    destruct (decide (y' = y ∧ x' = x)) as [[-> ->]|Hne].
    + rewrite decide_True by lia.
      rewrite list_lookup_insert_eq by lia. cbn.
      by rewrite list_lookup_insert_eq by lia.
    + case_decide as H0; [|done].
      destruct (decide (y' = y)) as [->|Hy'].
      * rewrite list_lookup_insert_eq by lia. rewrite Hrow. cbn.
        rewrite list_lookup_insert_ne by lia. done.
      * rewrite list_lookup_insert_ne by lia. done.
Qed.

Lemma byte_width_ge (w : Z) : w ≤ byte_width w.
Proof.
  unfold byte_width.
  pose proof (Z.div_mod (w + 7) 8 ltac:(lia)).
  pose proof (Z.mod_pos_bound (w + 7) 8 ltac:(lia)). lia.
Qed.

Lemma place_bits_spec (w left tw th cy v : Z) (idxs : list Z) (c : list (list Z)) :
  wf_canvas tw th c → 0 ≤ cy < th → Forall (λ b, 0 ≤ b < w) idxs →
  ∃ c', place_bits w left tw cy v idxs c = Ok c' ∧ wf_canvas tw th c' ∧
    ∀ y x, cell c' y x =
      if decide (y = cy ∧ 0 ≤ x < tw ∧ (x - left) ∈ idxs ∧
                 Z.testbit v (byte_width w - 1 - (x - left)) = true)
      then 1 else cell c y x.
Proof.
  intros Hwf Hcy Hidx. revert c Hwf.
  induction Hidx as [|b rest Hb Hrest IH]; intros c Hwf.
  - exists c. split; [done|]. split; [done|]. intros y x.
    rewrite decide_False; [done|]. intros (_ & _ & Hin & _). by apply elem_of_nil in Hin.
  - cbn [place_bits].
    assert (Hbw : 0 ≤ byte_width w - 1 - b) by (pose proof (byte_width_ge w); lia).
    destruct (decide (left + b < 0 ∨ left + b >= tw)) as [Hout|Hin].
    + destruct (IH c Hwf) as (c' & Hrun & Hwf' & Hcell).
      exists c'. split; [done|]. split; [done|]. intros y x. rewrite Hcell.
      apply decide_ext. rewrite elem_of_cons.
      split; [tauto|]. intros (? & ? & [?|?] & ?); [lia|done].
    + rewrite land_shiftr_1 by done.
      destruct (Z.testbit v (byte_width w - 1 - b)) eqn:Hbit.
      * destruct (canvas_set_spec c tw th cy (left + b) Hwf) as (c1 & Hset & Hwf1 & Hc1);
          [lia..|].
        rewrite Hset, bind_Ok.
        destruct (IH c1 Hwf1) as (c' & Hrun & Hwf' & Hcell).
        exists c'. split; [done|]. split; [done|]. intros y x.
        rewrite Hcell, Hc1.
        destruct (decide (y = cy ∧ x = left + b)) as [[-> ->]|Hne].
        -- replace (left + b - left) with b by lia.
           rewrite (decide_True (P := _ ∧ _ ∧ _ ∈ b :: rest ∧ _)); [by case_decide|].
           repeat split; try lia; [by left | done].
        -- apply decide_ext. rewrite elem_of_cons.
           split; [tauto|]. intros (? & ? & [?|?] & ?); [lia|done].
      * destruct (IH c Hwf) as (c' & Hrun & Hwf' & Hcell).
        exists c'. split; [done|]. split; [done|]. intros y x. rewrite Hcell.
        apply decide_ext. rewrite elem_of_cons.
        split; [tauto|]. intros (? & ? & [Hxb|?] & Ht); [|done].
        rewrite Hxb in Ht. congruence.
Qed.

Lemma row_bit_nil (w r b : Z) : row_bit w [] r b = false.
Proof. unfold row_bit. rewrite lookup_nil. apply andb_false_r. Qed.

Lemma row_bit_cons_0 (w v : Z) (rest : list Z) (b : Z) :
  row_bit w (v :: rest) 0 b =
  bool_decide (0 ≤ b < w) && Z.testbit v (byte_width w - 1 - b).
Proof.
  unfold row_bit. cbn. f_equal. apply bool_decide_ext. lia.
Qed.

Lemma row_bit_cons_pos (w v : Z) (rest : list Z) (r b : Z) :
  r ≠ 0 → row_bit w (v :: rest) r b = row_bit w rest (r - 1) b.
Proof.
  intros Hr. unfold row_bit.
  destruct (decide (0 ≤ r)) as [Hr0|Hr0].
  - replace (Z.to_nat r) with (S (Z.to_nat (r - 1))) by lia. cbn.
    f_equal. apply bool_decide_ext. lia.
  - rewrite !bool_decide_eq_false_2 by lia. done.
Qed.

Lemma place_rows_spec (w top left tw th i : Z) (rows : list Z) (c : list (list Z)) :
  wf_canvas tw th c →
  ∃ c', place_rows w top left tw th i rows c = Ok c' ∧ wf_canvas tw th c' ∧
    ∀ y x, cell c' y x =
      if decide (0 ≤ y < th ∧ 0 ≤ x < tw ∧
                 row_bit w rows (y - top - i) (x - left) = true)
      then 1 else cell c y x.
Proof.
  revert i c. induction rows as [|v rest IH]; intros i c Hwf.
  - exists c. split; [done|]. split; [done|]. intros y x.
    rewrite row_bit_nil. rewrite decide_False; [done|]. by intros (_ & _ & ?).
  - cbn [place_rows].
    destruct (decide (top + i < 0 ∨ top + i >= th)) as [Hout|Hin].
    + destruct (IH (i + 1) c Hwf) as (c' & Hrun & Hwf' & Hcell).
      exists c'. split; [done|]. split; [done|]. intros y x. rewrite Hcell.
      apply decide_ext.
      destruct (decide (y - top - i = 0)) as [Hy|Hy].
      * split; intros (? & ? & _); lia.
      * rewrite row_bit_cons_pos by done.
        by replace (y - top - (i + 1)) with (y - top - i - 1) by lia.
    + destruct (place_bits_spec w left tw th (top + i) v (seqZ 0 w) c Hwf)
        as (c1 & Hbits & Hwf1 & Hc1); [lia| |].
      { apply Forall_forall. intros b Hb. apply elem_of_seqZ in Hb. lia. }
      rewrite Hbits, bind_Ok.
      destruct (IH (i + 1) c1 Hwf1) as (c' & Hrun & Hwf' & Hcell).
      exists c'. split; [done|]. split; [done|]. intros y x.
      rewrite Hcell, Hc1.
      destruct (decide (y - top - i = 0)) as [Hy|Hy].
      * replace (y - top - i) with 0 by done.
        rewrite row_bit_cons_0.
        rewrite (decide_False (P := _ ∧ _ ∧ row_bit _ _ _ _ = true)).
        2:{ intros (_ & _ & Hrb). unfold row_bit in Hrb.
            rewrite bool_decide_eq_false_2 in Hrb by lia. done. }
        apply decide_ext. rewrite elem_of_seqZ, andb_true_iff, bool_decide_eq_true.
        intuition lia.
      * rewrite row_bit_cons_pos by done.
        replace (y - top - (i + 1)) with (y - top - i - 1) by lia.
        rewrite (decide_False (P := y = top + i ∧ _)) by lia. done.
Qed.

Lemma new_canvas_wf (tw th : Z) : wf_canvas tw th (new_canvas tw th).
Proof.
  unfold new_canvas. split; [by rewrite length_replicate|].
  apply Forall_replicate. by rewrite length_replicate.
Qed.

Lemma new_canvas_cell (tw th y x : Z) : cell (new_canvas tw th) y x = 0.
Proof.
  unfold cell, new_canvas. case_decide; [|done].
  destruct (replicate _ _ !! Z.to_nat y) as [row|] eqn:Hrow; [|done].
  apply lookup_replicate in Hrow as [-> _]. cbn.
  destruct (replicate _ _ !! Z.to_nat x) as [p|] eqn:Hp; [|done].
  by apply lookup_replicate in Hp as [-> _].
Qed.

Lemma render_canvas_spec (g : bdf_glyph) (tw th asc : Z) :
  ∃ c, render_canvas g tw th asc = Ok c ∧ wf_canvas tw th c ∧
    ∀ y x, 0 ≤ y < th → 0 ≤ x < tw →
      cell c y x = Z.b2z (src_bit g (y - glyph_top_y g asc) (x - glyph_left_x g)).
Proof.
  unfold render_canvas, src_bit. fold (glyph_blank g).
  destruct (decide (glyph_blank g)) as [Hb|Hb].
  - exists (new_canvas tw th). split; [done|]. split; [apply new_canvas_wf|].
    intros y x _ _. rewrite new_canvas_cell.
    by rewrite bool_decide_eq_false_2 by tauto.
  - destruct (place_rows_spec (bbx_w g) (glyph_top_y g asc) (glyph_left_x g) tw th 0
                (bitmap g) _ (new_canvas_wf tw th)) as (c & Hrun & Hwf & Hcell).
    exists c. split; [done|]. split; [done|]. intros y x Hy Hx.
    rewrite Hcell, new_canvas_cell, bool_decide_eq_true_2 by done. cbn.
    rewrite Z.sub_0_r.
    destruct (row_bit _ _ _ _); [by rewrite decide_True|].
    rewrite decide_False; [done|]. by intros (_ & _ & ?).
Qed.

Lemma cell_outside (c : list (list Z)) (tw th y x : Z) :
  wf_canvas tw th c → ¬ (0 ≤ y < th ∧ 0 ≤ x < tw) → cell c y x = 0.
Proof.
  intros [Hlen Hrows] Hout. unfold cell. case_decide as H0; [|done].
  destruct (c !! Z.to_nat y) as [row|] eqn:Hrow; [|done]. cbn.
  destruct (row !! Z.to_nat x) as [p|] eqn:Hp; [|done].
  apply lookup_lt_Some in Hp. pose proof (lookup_lt_Some _ _ _ Hrow).
  eapply Forall_lookup_1 in Hrows; [|done]. lia.
Qed.

(** C8: for every glyph and every target size, placement returns a canvas
    (no IndexError), the canvas has exactly [target_height] rows of
    [target_width] cells, and its cell [(y, x)] holds the source bit
    [(y - glyph_top_y, x - glyph_left_x)]: source bits whose destination is
    outside the canvas are dropped, all others are placed. *)
Theorem placement_clips_to_canvas (g : bdf_glyph)
    (target_width target_height font_ascent : Z) :
  ∃ canvas,
    render_canvas g target_width target_height font_ascent = Ok canvas ∧
    length canvas = Z.to_nat target_height ∧
    Forall (λ row, length row = Z.to_nat target_width) canvas ∧
    ∀ y x,
      cell canvas y x =
      if decide (0 ≤ y < target_height ∧ 0 ≤ x < target_width) then
        Z.b2z (src_bit g (y - glyph_top_y g font_ascent) (x - glyph_left_x g))
      else 0.
Proof.
  destruct (render_canvas_spec g target_width target_height font_ascent)
    as (canvas & Hrun & Hwf & Hcell).
  exists canvas. split; [done|]. destruct Hwf as [Hlen Hrows].
  split; [done|]. split; [done|]. intros y x. case_decide as Hin.
  - apply Hcell; lia.
  - by apply (cell_outside _ target_width target_height).
Qed.

(** C4: the source bit in row [r], column [b] of a placed glyph is stored
    at canvas row [(ascent - 1) - (bbx_y + bbx_h - 1) + r], column
    [bbx_x + b]; for a glyph with one bitmap row per bounding-box row,
    [bbx_h = ascent] and [bbx_y = 0], the last bitmap row is stored in canvas
    row [ascent - 1]. *)
Theorem placement_baseline (g : bdf_glyph)
    (target_width target_height font_ascent : Z) (canvas : list (list Z)) :
  render_canvas g target_width target_height font_ascent = Ok canvas →
  glyph_top_y g font_ascent = (font_ascent - 1) - (bbx_y g + bbx_h g - 1) ∧
  glyph_left_x g = bbx_x g ∧
  (∀ r b,
     0 ≤ glyph_top_y g font_ascent + r < target_height →
     0 ≤ glyph_left_x g + b < target_width →
     cell canvas (glyph_top_y g font_ascent + r) (glyph_left_x g + b)
     = Z.b2z (src_bit g r b)) ∧
  (Z.of_nat (length (bitmap g)) = bbx_h g → bbx_h g = font_ascent → bbx_y g = 0 →
   glyph_top_y g font_ascent + (Z.of_nat (length (bitmap g)) - 1) = font_ascent - 1 ∧
   ∀ b, 0 ≤ font_ascent - 1 < target_height → 0 ≤ bbx_x g + b < target_width →
        cell canvas (font_ascent - 1) (bbx_x g + b)
        = Z.b2z (src_bit g (Z.of_nat (length (bitmap g)) - 1) b)).
Proof.
  intros Hrun.
  destruct (render_canvas_spec g target_width target_height font_ascent)
    as (c & Hrun' & _ & Hcell).
  assert (c = canvas) as -> by congruence.
  split; [done|]. split; [done|]. split.
  - intros r b Hr Hb. rewrite Hcell by done. do 2 f_equal; lia.
  - intros Hrows Hh Hy.
    assert (Htop : glyph_top_y g font_ascent + (Z.of_nat (length (bitmap g)) - 1)
                   = font_ascent - 1).
    { unfold glyph_top_y, baseline_y. lia. }
    split; [done|]. intros b Hr Hb. rewrite Hcell by done.
    unfold glyph_left_x. do 2 f_equal; lia.
Qed.

Lemma placement_baseline_witness :
  render_canvas glyph_full_height 7 9 7 = Ok canvas_full_height ∧
  glyph_top_y glyph_full_height 7 + 6 = 6 ∧
  cell canvas_full_height 6 2 = Z.b2z (src_bit glyph_full_height 6 1).
Proof.
  assert (Hrun : render_canvas glyph_full_height 7 9 7 = Ok canvas_full_height)
    by (vm_compute; reflexivity).
  split; [exact Hrun|].
  destruct (placement_baseline glyph_full_height 7 9 7 canvas_full_height Hrun)
    as (_ & _ & _ & Hlast).
  destruct (Hlast eq_refl eq_refl eq_refl) as [Hrow Hc].
  split; [exact Hrow|]. apply (Hc 1); cbn; lia.
Defined.

(** ** Bit packing *)

Lemma is_byte_lor (a b : Z) : is_byte a → is_byte b → is_byte (Z.lor a b).
Proof.
  unfold is_byte. intros [Ha0 Ha] [Hb0 Hb].
  split; [by apply Z.lor_nonneg|].
  change 256 with (2 ^ 8) in *.
  apply Z.bounded_iff_bits_nonneg; [lia|by apply Z.lor_nonneg|].
  intros l Hl. rewrite Z.lor_spec.
  rewrite (proj1 (Z.bounded_iff_bits_nonneg 8 a ltac:(lia) Ha0) Ha l Hl).
  by rewrite (proj1 (Z.bounded_iff_bits_nonneg 8 b ltac:(lia) Hb0) Hb l Hl).
Qed.

Lemma mask_bits (m k : Z) :
  0 ≤ m → 0 ≤ k → Z.testbit (0x80 ≫ m) k = bool_decide (k + m = 7).
Proof.
  intros Hm Hk. rewrite Z.shiftr_spec by done.
  change 128 with (2 ^ 7). rewrite Z.pow2_bits_eqb by lia.
  destruct (Z.eqb_spec 7 (k + m)); [by rewrite bool_decide_eq_true_2|
                                    by rewrite bool_decide_eq_false_2].
Qed.

Lemma is_byte_mask (m : Z) : 0 ≤ m < 8 → is_byte (0x80 ≫ m).
Proof.
  intros Hm. unfold is_byte. rewrite Z.shiftr_div_pow2 by lia.
  split.
  - apply Z.div_pos; [lia|]. apply Z.pow_pos_nonneg; lia.
  - apply Z.div_lt_upper_bound; [apply Z.pow_pos_nonneg; lia|].
    assert (1 ≤ 2 ^ m) by (apply (Z.pow_le_mono_r 2 0 m); lia). lia.
Qed.

Lemma div8_eq (i j : Z) : j `div` 8 = i `div` 8 → j `mod` 8 = i `mod` 8 → j = i.
Proof.
  intros Hd Hm. rewrite (Z.div_mod j 8), (Z.div_mod i 8) by lia. congruence.
Qed.

Lemma bytearray_or_spec (buf : list Z) (i : Z) :
  0 ≤ i < 8 * Z.of_nat (length buf) → Forall is_byte buf →
  ∃ buf', bytearray_or buf (i `div` 8) (0x80 ≫ (i `mod` 8)) = Ok buf' ∧
    length buf' = length buf ∧ Forall is_byte buf' ∧
    ∀ j, 0 ≤ j → get_bit buf' j = get_bit buf j || bool_decide (j = i).
Proof.
  intros Hi Hbytes.
  pose proof (Z.mod_pos_bound i 8 ltac:(lia)) as Hmod.
  assert (Hdiv : 0 ≤ i `div` 8 < Z.of_nat (length buf)).
  { split; [apply Z.div_pos; lia|]. apply Z.div_lt_upper_bound; lia. }
  destruct (lookup_lt_is_Some_2 buf (Z.to_nat (i `div` 8))) as [old Hold]; [lia|].
  assert (Hob : is_byte old) by (eapply Forall_lookup_1 in Hbytes; eauto).
  pose proof (is_byte_lor _ _ Hob (is_byte_mask _ Hmod)) as Hnew.
  unfold bytearray_or.
  rewrite (py_getitem_in_range _ _ old), bind_Ok by (done || lia).
  rewrite decide_True by done.
  rewrite py_setitem_in_range by lia.
  eexists; split; [done|]. split; [by rewrite length_insert|].
  split; [by apply Forall_insert|].
  intros j Hj. unfold get_bit.
  pose proof (Z.mod_pos_bound j 8 ltac:(lia)) as Hjmod.
  destruct (decide (j `div` 8 = i `div` 8)) as [Heq|Hne].
  - rewrite Heq, list_lookup_insert_eq, Hold by lia. cbn.
    rewrite Z.lor_spec, mask_bits by lia. f_equal.
    apply bool_decide_ext. split; [|intros ->; lia].
    intros ?. apply div8_eq; [done|lia].
  - rewrite list_lookup_insert_ne.
    2:{ intros Hc. apply Hne. apply Z2Nat.inj in Hc; [done|apply Z.div_pos; lia..]. }
    rewrite bool_decide_eq_false_2; [by rewrite orb_false_r|]. by intros ->.
Qed.

Lemma pixel_at_nil (j : Z) : pixel_at [] j = false.
Proof. unfold pixel_at. rewrite lookup_nil. apply andb_false_r. Qed.

Lemma pixel_at_cons (p : Z) (rest : list Z) (j : Z) :
  pixel_at (p :: rest) j =
  if decide (j = 0) then truthy p else pixel_at rest (j - 1).
Proof.
  unfold pixel_at. case_decide as Hj; [by subst|].
  destruct (decide (0 ≤ j)).
  - replace (Z.to_nat j) with (S (Z.to_nat (j - 1))) by lia. cbn.
    f_equal. apply bool_decide_ext. lia.
  - by rewrite !bool_decide_eq_false_2 by lia.
Qed.

Lemma pack_loop_spec (i : Z) (bits buf : list Z) :
  0 ≤ i → i + Z.of_nat (length bits) ≤ 8 * Z.of_nat (length buf) →
  Forall is_byte buf →
  ∃ buf', pack_loop i bits buf = Ok buf' ∧
    length buf' = length buf ∧ Forall is_byte buf' ∧
    ∀ j, 0 ≤ j → get_bit buf' j = get_bit buf j || pixel_at bits (j - i).
Proof.
  revert i buf. induction bits as [|bit rest IH]; intros i buf Hi Hlen Hbytes.
  - exists buf. repeat split; [done..|]. intros j _.
    by rewrite pixel_at_nil, orb_false_r.
  - cbn [pack_loop]. cbn [length] in Hlen.
    destruct (truthy bit) eqn:Hbit.
    + destruct (bytearray_or_spec buf i) as (b1 & Hor & Hl1 & Hb1 & Hbit1); [lia|done|].
      rewrite Hor, bind_Ok.
      destruct (IH (i + 1) b1) as (b2 & Hrun & Hl2 & Hb2 & Hbit2); [lia|lia|done|].
      exists b2. split; [done|]. split; [congruence|]. split; [done|].
      intros j Hj. rewrite Hbit2, Hbit1, pixel_at_cons by done.
      rewrite <- orb_assoc. f_equal.
      case_decide as Hji.
      * rewrite bool_decide_eq_true_2 by lia. by rewrite Hbit.
      * rewrite bool_decide_eq_false_2 by lia.
        by replace (j - (i + 1)) with (j - i - 1) by lia.
    + destruct (IH (i + 1) buf) as (b2 & Hrun & Hl2 & Hb2 & Hbit2); [lia|lia|done|].
      exists b2. split; [done|]. split; [done|]. split; [done|].
      intros j Hj. rewrite Hbit2, pixel_at_cons by done. f_equal.
      case_decide as Hji.
      * rewrite Hbit. unfold pixel_at. rewrite bool_decide_eq_false_2 by lia. done.
      * by replace (j - (i + 1)) with (j - i - 1) by lia.
Qed.

Lemma get_bit_nil (j : Z) : get_bit [] j = false.
Proof. unfold get_bit. rewrite lookup_nil. cbn. apply Z.bits_0. Qed.

Lemma get_bit_cons (b : Z) (tail : list Z) (j : Z) :
  0 ≤ j →
  get_bit (b :: tail) j =
  if decide (j < 8) then Z.testbit b (7 - j) else get_bit tail (j - 8).
Proof.
  intros Hj. unfold get_bit. case_decide as H8.
  - rewrite Z.div_small, Z.mod_small by lia. done.
  - replace j with (j - 8 + 1 * 8) at 1 2 by lia.
    rewrite Z.div_add, Z.mod_add by lia.
    assert (0 ≤ (j - 8) `div` 8) by (apply Z.div_pos; lia).
    replace (Z.to_nat ((j - 8) `div` 8 + 1)) with (S (Z.to_nat ((j - 8) `div` 8))) by lia.
    done.
Qed.

Lemma bit_mask_spec (n k : Z) :
  0 ≤ n → Z.testbit (1 ≪ n) k = bool_decide (k = n).
Proof.
  intros Hn. rewrite Z.shiftl_1_l, Z.pow2_bits_eqb by done.
  destruct (Z.eqb_spec n k); [by rewrite bool_decide_eq_true_2|
                              by rewrite bool_decide_eq_false_2].
Qed.

Lemma is_byte_bit_mask (n : Z) : 0 ≤ n < 8 → is_byte (1 ≪ n).
Proof.
  intros Hn. unfold is_byte. rewrite Z.shiftl_1_l. split; [lia|].
  change 256 with (2 ^ 8). apply Z.pow_lt_mono_r; lia.
Qed.

Lemma pack_pixels_loop_spec (pixels : list Z) (byte bit_pos : Z) (packed : list Z) :
  0 ≤ bit_pos < 8 → is_byte byte →
  (∀ k, 0 ≤ k < 8 - bit_pos → Z.testbit byte k = false) →
  ∃ tail, pack_pixels_loop pixels byte bit_pos packed = packed ++ tail ∧
    Z.of_nat (length tail) = (bit_pos + Z.of_nat (length pixels) + 7) `div` 8 ∧
    Forall is_byte tail ∧
    ∀ j, 0 ≤ j →
      get_bit tail j =
      if decide (j < bit_pos) then Z.testbit byte (7 - j)
      else pixel_at pixels (j - bit_pos).
Proof.
  revert byte bit_pos packed.
  induction pixels as [|pixel rest IH]; intros byte bit_pos packed Hpos Hbyte Hlow.
  - cbn [pack_pixels_loop length]. case_decide as Hgt.
    + exists [byte]. split; [done|]. split.
      { cbn [length]. apply Z.div_unique with (r := bit_pos - 1); lia. }
      split; [by constructor|]. intros j Hj.
      rewrite get_bit_cons, get_bit_nil, pixel_at_nil by done.
      repeat case_decide; try done; try lia. apply Hlow. lia.
    + exists []. split; [by rewrite app_nil_r|]. split.
      { cbn. replace bit_pos with 0 by lia. done. }
      split; [constructor|]. intros j Hj.
      rewrite get_bit_nil, pixel_at_nil. case_decide; [lia|done].
  - cbn [pack_pixels_loop].
    set (byte' := if truthy pixel then Z.lor byte (1 ≪ (7 - bit_pos)) else byte).
    assert (Hbyte' : is_byte byte').
    { unfold byte'. destruct (truthy pixel); [|done].
      apply is_byte_lor; [done|]. apply is_byte_bit_mask. lia. }
    assert (Hbits' : ∀ k, 0 ≤ k →
      Z.testbit byte' k = Z.testbit byte k || (truthy pixel && bool_decide (k = 7 - bit_pos))).
    { intros k Hk. unfold byte'. destruct (truthy pixel); cbn.
      - by rewrite Z.lor_spec, bit_mask_spec by lia.
      - by rewrite orb_false_r. }
    case_decide as H8.
    + destruct (IH 0 0 (packed ++ [byte'])) as (tail & Hrun & Hlen & Hbytes & Hbit);
        [lia|unfold is_byte; lia|intros; apply Z.bits_0|].
      exists (byte' :: tail). split; [by rewrite Hrun, <- app_assoc|]. split.
      { cbn [length]. rewrite !Nat2Z.inj_succ, Hlen.
        replace (bit_pos + Z.succ (Z.of_nat (length rest)) + 7)
          with (0 + Z.of_nat (length rest) + 7 + 1 * 8) by lia.
        rewrite Z.div_add by lia. lia. }
      split; [by constructor|]. intros j Hj.
      rewrite get_bit_cons by done. case_decide as Hj8.
      * rewrite Hbits' by lia. case_decide as Hjp.
        -- rewrite bool_decide_eq_false_2 by lia. by rewrite andb_false_r, orb_false_r.
        -- replace (j - bit_pos) with 0 by lia.
           replace (7 - j) with 0 by lia.
           rewrite Hlow by lia. rewrite pixel_at_cons, decide_True by done.
           rewrite bool_decide_eq_true_2 by lia. by rewrite andb_true_r.
      * rewrite Hbit by lia. rewrite decide_False by lia.
        rewrite decide_False by lia. rewrite pixel_at_cons, decide_False by lia.
        f_equal. lia.
    + destruct (IH byte' (bit_pos + 1) packed) as (tail & Hrun & Hlen & Hbytes & Hbit);
        [lia|done| |].
      { intros k Hk. rewrite Hbits' by lia. rewrite Hlow by lia.
        rewrite bool_decide_eq_false_2 by lia. by rewrite andb_false_r. }
      exists tail. split; [done|]. split.
      { rewrite Hlen. cbn [length]. rewrite Nat2Z.inj_succ. f_equal. lia. }
      split; [done|]. intros j Hj. rewrite Hbit by done.
      destruct (decide (j < bit_pos)) as [Hlt|Hge].
      * rewrite decide_True by lia. rewrite Hbits' by lia.
        rewrite bool_decide_eq_false_2 by lia. by rewrite andb_false_r, orb_false_r.
      * rewrite pixel_at_cons. destruct (decide (j = bit_pos)) as [->|Hne].
        -- rewrite decide_True by lia. rewrite decide_True by lia.
           rewrite Hbits', Hlow by lia. rewrite bool_decide_eq_true_2 by lia.
           by rewrite andb_true_r.
        -- rewrite decide_False by lia. rewrite decide_False by lia. f_equal. lia.
Qed.

Lemma get_bit_replicate_0 (n : nat) (j : Z) : get_bit (replicate n 0) j = false.
Proof.
  unfold get_bit.
  destruct (replicate n 0 !! _) as [b|] eqn:Hb; cbn; [|apply Z.bits_0].
  apply lookup_replicate in Hb as [-> _]. apply Z.bits_0.
Qed.

Lemma pack_bits_packs (bits : list Z) :
  ∃ bs, pack_bits bits = Ok bs ∧ packs bits bs.
Proof.
  unfold pack_bits.
  set (n := (Z.of_nat (length bits) + 7) `div` 8).
  assert (Hn : Z.of_nat (length bits) ≤ 8 * n).
  { unfold n. pose proof (Z.div_mod (Z.of_nat (length bits) + 7) 8 ltac:(lia)).
    pose proof (Z.mod_pos_bound (Z.of_nat (length bits) + 7) 8 ltac:(lia)). lia. }
  destruct (pack_loop_spec 0 bits (replicate (Z.to_nat n) 0))
    as (bs & Hrun & Hlen & Hbytes & Hbit); [lia| |..].
  { rewrite length_replicate. lia. }
  { apply Forall_replicate. unfold is_byte. lia. }
  exists bs. split; [done|]. split; [|split; [done|]].
  - rewrite Hlen, length_replicate. lia.
  - intros j Hj. by rewrite Hbit, get_bit_replicate_0, Z.sub_0_r.
Qed.

Lemma pack_pixels_packs (pixels : list Z) :
  ∃ bs, pack_pixels pixels = Ok bs ∧ packs pixels bs.
Proof.
  destruct (pack_pixels_loop_spec pixels 0 0 [])
    as (bs & Hrun & Hlen & Hbytes & Hbit);
    [lia|unfold is_byte; lia|intros; apply Z.bits_0|].
  exists bs. unfold pack_pixels, py_bytes. rewrite Hrun. cbn [app].
  rewrite decide_True by done. split; [done|]. split; [|split; [done|]].
  - by rewrite Hlen.
  - intros j Hj. rewrite Hbit, decide_False, Z.sub_0_r by lia. done.
Qed.







(** ** struct.pack *)

Lemma pack_uint_inv (n x : Z) (bs : list Z) :
  pack_uint n x = Ok bs → 0 ≤ x < 2 ^ (8 * n) ∧ bs = Z_to_little_endian n 8 x.
Proof. unfold pack_uint. case_decide; [|done]. by intros [= <-]. Qed.

Lemma pack_uint_Ok (n x : Z) :
  0 ≤ x < 2 ^ (8 * n) → pack_uint n x = Ok (Z_to_little_endian n 8 x).
Proof. intros Hx. unfold pack_uint. by rewrite decide_True. Qed.

Lemma pack_uint_Raise (n x : Z) :
  ¬ (0 ≤ x < 2 ^ (8 * n)) → pack_uint n x = Raise StructError.
Proof. intros Hx. unfold pack_uint. by rewrite decide_False. Qed.

Lemma length_le_bytes (n x : Z) :
  0 ≤ n → length (Z_to_little_endian n 8 x) = Z.to_nat n.
Proof. intros Hn. pose proof (length_Z_to_little_endian n 8 x Hn). lia. Qed.

Lemma le_bytes_roundtrip (n x : Z) :
  0 ≤ n → 0 ≤ x < 2 ^ (8 * n) →
  little_endian_to_Z 8 (Z_to_little_endian n 8 x) = x.
Proof.
  intros Hn Hx. rewrite little_endian_to_Z_to_little_endian by lia.
  apply Z.mod_small. by rewrite (Z.mul_comm n 8).
Qed.

Lemma le_bytes_1 (x : Z) : 0 ≤ x < 256 → Z_to_little_endian 1 8 x = [x].
Proof.
  intros Hx. change 1 with (Z.succ 0).
  rewrite Z_to_little_endian_succ, Z_to_little_endian_0 by done.
  rewrite Z.land_ones by lia. by rewrite Z.mod_small by (change (2 ^ 8) with 256; lia).
Qed.

Lemma pack_uint_1_inv (x : Z) (bs : list Z) :
  pack_uint 1 x = Ok bs → 0 ≤ x < 256 ∧ bs = [x].
Proof.
  intros [Hx ->]%pack_uint_inv. change (2 ^ (8 * 1)) with 256 in Hx.
  by rewrite le_bytes_1.
Qed.

Lemma pack_uint_2_inv (x : Z) (bs : list Z) :
  pack_uint 2 x = Ok bs →
  0 ≤ x < 65536 ∧ length bs = 2%nat ∧ little_endian_to_Z 8 bs = x.
Proof.
  intros [Hx ->]%pack_uint_inv.
  by rewrite length_le_bytes, le_bytes_roundtrip.
Qed.

Lemma pack_uint_4_inv (x : Z) (bs : list Z) :
  pack_uint 4 x = Ok bs →
  0 ≤ x < 2 ^ 32 ∧ length bs = 4%nat ∧ little_endian_to_Z 8 bs = x.
Proof.
  intros [Hx ->]%pack_uint_inv.
  by rewrite length_le_bytes, le_bytes_roundtrip.
Qed.

Lemma read_uint_le_bytes (n : nat) (x : Z) (post : list Z) :
  0 ≤ x < 2 ^ (8 * Z.of_nat n) →
  read_uint n (Z_to_little_endian (Z.of_nat n) 8 x ++ post) 0 = x.
Proof.
  intros Hx. unfold read_uint. rewrite drop_0.
  rewrite take_app_length' by (rewrite length_le_bytes; lia).
  by rewrite le_bytes_roundtrip by lia.
Qed.

Lemma pack_uint_1_Ok (x : Z) : 0 ≤ x < 256 → pack_uint 1 x = Ok [x].
Proof. intros Hx. by rewrite pack_uint_Ok, le_bytes_1. Qed.

Lemma pack_uint_error (n x : Z) (e : exn) : pack_uint n x = Raise e → e = StructError.
Proof. unfold pack_uint. case_decide; [done|]. by intros [= <-]. Qed.

Lemma pack_header_inv (magic : list Z) (v a b f c x : Z) (h : list Z) :
  length magic = 4%nat →
  pack_header magic v a b f c x = Ok h →
  length h = 16%nat ∧ take 4 h = magic ∧
  h !! 4%nat = Some v ∧ h !! 5%nat = Some a ∧ h !! 6%nat = Some b ∧
  h !! 7%nat = Some f ∧ read_uint 4 h 8 = c ∧ read_uint 4 h 12 = x ∧
  (0 ≤ a < 256) ∧ (0 ≤ b < 256) ∧ (0 ≤ c < 2 ^ 32).
Proof.
  intros Hm Hp. unfold pack_header in Hp.
  apply bind_inv in Hp as (bv & Hv & Hp). apply pack_uint_1_inv in Hv as [Hv ->].
  apply bind_inv in Hp as (ba & Ha & Hp). apply pack_uint_1_inv in Ha as [Ha ->].
  apply bind_inv in Hp as (bb & Hb & Hp). apply pack_uint_1_inv in Hb as [Hb ->].
  apply bind_inv in Hp as (bf & Hf & Hp). apply pack_uint_1_inv in Hf as [Hf ->].
  apply bind_inv in Hp as (lc & Hc & Hp). apply pack_uint_4_inv in Hc as (Hc & Hlc & Hrc).
  apply bind_inv in Hp as (lx & Hx & Hp). apply pack_uint_4_inv in Hx as (Hx & Hlx & Hrx).
  injection Hp as <-.
  destruct magic as [|m0 [|m1 [|m2 [|m3 [|? ?]]]]]; try done.
  destruct lc as [|c0 [|c1 [|c2 [|c3 [|? ?]]]]]; try done.
  destruct lx as [|x0 [|x1 [|x2 [|x3 [|? ?]]]]]; try done.
Qed.

Lemma pack_header_error (magic : list Z) (v a b f c x : Z) (e : exn) :
  pack_header magic v a b f c x = Raise e → e = StructError.
Proof.
  unfold pack_header. intros Hp.
  repeat (apply bind_Raise_inv in Hp as [Hp|(? & _ & Hp)];
          [by apply pack_uint_error in Hp|]).
  done.
Qed.

Lemma pack_header_Ok (magic : list Z) (v a b f c x : Z) :
  0 ≤ v < 256 → 0 ≤ a < 256 → 0 ≤ b < 256 → 0 ≤ f < 256 →
  0 ≤ c < 2 ^ 32 → 0 ≤ x < 2 ^ 32 →
  ∃ h, pack_header magic v a b f c x = Ok h.
Proof.
  intros. unfold pack_header.
  rewrite (pack_uint_1_Ok v), bind_Ok by done.
  rewrite (pack_uint_1_Ok a), bind_Ok by done.
  rewrite (pack_uint_1_Ok b), bind_Ok by done.
  rewrite (pack_uint_1_Ok f), bind_Ok by done.
  rewrite (pack_uint_Ok 4 c), bind_Ok by done.
  rewrite (pack_uint_Ok 4 x), bind_Ok by done. by eexists.
Qed.

Lemma pack_header_dim_error (magic : list Z) (v a b f c x : Z) :
  0 ≤ v < 256 → ¬ (0 ≤ a < 256) ∨ ¬ (0 ≤ b < 256) →
  pack_header magic v a b f c x = Raise StructError.
Proof.
  intros Hv Hab. unfold pack_header. rewrite (pack_uint_1_Ok v), bind_Ok by done.
  destruct (decide (0 ≤ a < 256)) as [Ha|Ha].
  - rewrite (pack_uint_1_Ok a), bind_Ok by done.
    rewrite (pack_uint_Raise 1 b); [reflexivity|]. change (2 ^ (8 * 1)) with 256. tauto.
  - rewrite (pack_uint_Raise 1 a); [reflexivity|]. by change (2 ^ (8 * 1)) with 256.
Qed.

Lemma pack_entry_fixed_inv (codepoint offset : Z) (entry : list Z) :
  pack_entry_fixed codepoint offset = Ok entry →
  length entry = 6%nat ∧ read_uint 2 entry 0 = codepoint ∧
  read_uint 4 entry 2 = offset ∧ 0 ≤ codepoint < 65536 ∧ 0 ≤ offset < 2 ^ 32.
Proof.
  unfold pack_entry_fixed. intros Hp.
  apply bind_inv in Hp as (lc & Hc & Hp). apply pack_uint_2_inv in Hc as (Hc & Hlc & Hrc).
  apply bind_inv in Hp as (lo & Ho & Hp). apply pack_uint_4_inv in Ho as (Ho & Hlo & Hro).
  injection Hp as <-.
  destruct lc as [|c0 [|c1 [|? ?]]]; try done.
  destruct lo as [|o0 [|o1 [|o2 [|o3 [|? ?]]]]]; try done.
Qed.

Lemma pack_entry_variable_inv (cp off w h : Z) (entry : list Z) :
  pack_entry_variable cp off w h = Ok entry →
  length entry = 10%nat ∧ read_uint 4 entry 0 = cp ∧ read_uint 4 entry 4 = off ∧
  entry !! 8%nat = Some w ∧ entry !! 9%nat = Some h ∧
  0 ≤ cp < 2 ^ 32 ∧ 0 ≤ off < 2 ^ 32 ∧ 0 ≤ w < 256 ∧ 0 ≤ h < 256.
Proof.
  unfold pack_entry_variable. intros Hp.
  apply bind_inv in Hp as (lc & Hc & Hp). apply pack_uint_4_inv in Hc as (Hc & Hlc & Hrc).
  apply bind_inv in Hp as (lo & Ho & Hp). apply pack_uint_4_inv in Ho as (Ho & Hlo & Hro).
  apply bind_inv in Hp as (lw & Hw & Hp). apply pack_uint_1_inv in Hw as [Hw ->].
  apply bind_inv in Hp as (lh & Hh & Hp). apply pack_uint_1_inv in Hh as [Hh ->].
  injection Hp as <-.
  destruct lc as [|c0 [|c1 [|c2 [|c3 [|? ?]]]]]; try done.
  destruct lo as [|o0 [|o1 [|o2 [|o3 [|? ?]]]]]; try done.
Qed.

Lemma pack_entry_variable_Ok (cp off w h : Z) :
  0 ≤ cp < 2 ^ 32 → 0 ≤ off < 2 ^ 32 → 0 ≤ w < 256 → 0 ≤ h < 256 →
  ∃ entry, pack_entry_variable cp off w h = Ok entry.
Proof.
  intros Hc Ho Hw Hh. unfold pack_entry_variable.
  rewrite (pack_uint_Ok 4 cp), bind_Ok by done.
  rewrite (pack_uint_Ok 4 off), bind_Ok by done.
  rewrite (pack_uint_1_Ok w), bind_Ok by done.
  rewrite (pack_uint_1_Ok h), bind_Ok by done. by eexists.
Qed.

Lemma pack_entry_variable_error (cp off w h : Z) (e : exn) :
  pack_entry_variable cp off w h = Raise e → e = StructError.
Proof.
  unfold pack_entry_variable. intros Hp.
  repeat (apply bind_Raise_inv in Hp as [Hp|(? & _ & Hp)];
          [by apply pack_uint_error in Hp|]).
  done.
Qed.

(** ** Reading fields back from the bytes of a container *)

Lemma drop_concat_chunks {A} (chunks : list (list A)) (es i : nat) :
  Forall (λ c, length c = es) chunks →
  drop (i * es) (concat chunks) = concat (drop i chunks).
Proof.
  intros Hall. revert i. induction Hall as [|c chunks Hc _ IH]; intros i.
  - cbn [concat]. by rewrite !drop_nil.
  - destruct i as [|i]; [done|]. cbn [concat Nat.mul drop].
    rewrite <- Hc at 1. rewrite drop_app_add'; [|done]. apply IH.
Qed.

Lemma drop_concat_sum {A} (l : list (list A)) (i : nat) :
  drop (sum_list_with length (take i l)) (concat l) = concat (drop i l).
Proof.
  revert i. induction l as [|x l IH]; intros i.
  - rewrite take_nil. cbn [concat]. by rewrite !drop_nil.
  - destruct i as [|i]; [done|]. cbn [take sum_list_with concat drop].
    rewrite drop_app_add'; [|done]. apply IH.
Qed.

Lemma sum_list_with_take_S {A} (f : A → nat) (l : list A) (i : nat) (x : A) :
  l !! i = Some x →
  sum_list_with f (take (S i) l) = (sum_list_with f (take i l) + f x)%nat.
Proof.
  intros Hx. rewrite (take_S_r _ _ _ Hx), sum_list_with_app. cbn. lia.
Qed.

Lemma length_concat_sum {A} (l : list (list A)) :
  length (concat l) = sum_list_with length l.
Proof. induction l as [|x l IH]; [done|]. cbn. rewrite length_app. lia. Qed.

Lemma read_uint_prefix (n : nat) (pre rest : list Z) (pos : nat) :
  (pos + n ≤ length pre)%nat → read_uint n (pre ++ rest) pos = read_uint n pre pos.
Proof.
  intros Hlen. unfold read_uint. rewrite drop_app_le by lia.
  rewrite take_app_le; [done|]. rewrite length_drop. lia.
Qed.

Lemma read_uint_skip (n : nat) (pre rest : list Z) (pos : nat) :
  read_uint n (pre ++ rest) (length pre + pos) = read_uint n rest pos.
Proof. unfold read_uint. by rewrite drop_app_add'. Qed.

Lemma read_chunk_field (n es k : nat) (hdr : list Z) (chunks : list (list Z))
    (blob : list Z) (i : nat) (c : list Z) :
  Forall (λ c, length c = es) chunks → chunks !! i = Some c → (k + n ≤ es)%nat →
  read_uint n (hdr ++ concat chunks ++ blob) (length hdr + es * i + k)
  = read_uint n c k.
Proof.
  intros Hes Hc Hk.
  replace (length hdr + es * i + k)%nat with (length hdr + (i * es + k))%nat by lia.
  rewrite read_uint_skip. unfold read_uint.
  rewrite <- drop_drop, drop_app_le.
  2:{ rewrite (length_concat_uniform _ es Hes).
      apply lookup_lt_Some in Hc. nia. }
  rewrite (drop_concat_chunks _ es) by done.
  rewrite (drop_S _ _ _ Hc). cbn [concat].
  assert (Hcl : length c = es) by (eapply Forall_lookup_1 in Hes; eauto).
  rewrite <- !app_assoc, drop_app_le by lia.
  rewrite take_app_le; [done|]. rewrite length_drop. lia.
Qed.

Lemma layout_from_chunks (es k : nat) (hdr : list Z) (chunks bitmaps : list (list Z)) :
  length hdr = 16%nat → read_uint 4 hdr 8 = Z.of_nat (length bitmaps) →
  (k + 4 ≤ es)%nat → length chunks = length bitmaps →
  Forall (λ c, length c = es) chunks →
  (∀ i c, chunks !! i = Some c →
     read_uint 4 c k
     = 16 + Z.of_nat (length bitmaps) * Z.of_nat es
       + Z.of_nat (sum_list_with length (take i bitmaps))) →
  contiguous_layout es k (hdr ++ concat chunks ++ concat bitmaps) bitmaps.
Proof.
  intros Hhdr Hcount Hk Hlen Hes Hoff.
  assert (Hread : ∀ i, (i < length bitmaps)%nat →
    read_uint 4 (hdr ++ concat chunks ++ concat bitmaps) (16 + es * i + k)
    = 16 + Z.of_nat (length bitmaps) * Z.of_nat es
      + Z.of_nat (sum_list_with length (take i bitmaps))).
  { intros i Hi.
    destruct (lookup_lt_is_Some_2 chunks i) as [c Hc]; [lia|].
    rewrite <- (Hoff i c Hc), <- Hhdr. by apply read_chunk_field. }
  assert (Hblob : ∀ i, drop (Z.to_nat (16 + Z.of_nat (length bitmaps) * Z.of_nat es
      + Z.of_nat (sum_list_with length (take i bitmaps))))
      (hdr ++ concat chunks ++ concat bitmaps) = concat (drop i bitmaps)).
  { intros i.
    replace (Z.to_nat _) with
      (length hdr + (length (concat chunks) + sum_list_with length (take i bitmaps)))%nat.
    2:{ rewrite (length_concat_uniform _ es Hes), Hhdr, Hlen, <- Nat2Z.inj_mul. lia. }
    rewrite !drop_app_add' by done. apply drop_concat_sum. }
  unfold contiguous_layout. split; [|split; [|split]].
  - rewrite read_uint_prefix by lia. done.
  - intros bm Hbm. rewrite Hread by (apply lookup_lt_Some in Hbm; lia).
    rewrite take_0. cbn. lia.
  - intros i bm Hbm. pose proof (lookup_lt_Some _ _ _ Hbm) as Hi.
    split; [|split].
    + intros HSi. rewrite !Hread by lia.
      rewrite (sum_list_with_take_S _ _ _ _ Hbm). lia.
    + rewrite Hread by lia. lia.
    + rewrite Hread, Hblob by lia. rewrite (drop_S _ _ _ Hbm). cbn [concat].
      by rewrite take_app_length.
  - intros bm Hbm. rewrite last_lookup in Hbm.
    pose proof (lookup_lt_Some _ _ _ Hbm) as Hi.
    replace (length bitmaps - 1)%nat with (pred (length bitmaps)) by lia.
    rewrite Hread by lia. rewrite !length_app, Hhdr.
    rewrite (length_concat_uniform _ es Hes), length_concat_sum.
    rewrite <- (take_drop (pred (length bitmaps)) bitmaps) at 4.
    rewrite sum_list_with_app, (drop_S _ _ _ Hbm).
    rewrite drop_ge by lia. cbn. lia.
Qed.

Lemma lookup_chunk_byte (es k : nat) (hdr : list Z) (chunks : list (list Z))
    (blob : list Z) (i : nat) (c : list Z) :
  Forall (λ c, length c = es) chunks → chunks !! i = Some c → (k < es)%nat →
  (hdr ++ concat chunks ++ blob) !! (length hdr + es * i + k)%nat = c !! k.
Proof.
  intros Hes Hc Hk.
  assert (Hcl : length c = es) by (eapply Forall_lookup_1 in Hes; eauto).
  rewrite <- Nat.add_assoc, lookup_app_r, Nat.add_comm, Nat.add_sub by lia.
  rewrite lookup_app_l.
  2:{ rewrite (length_concat_uniform _ es Hes). apply lookup_lt_Some in Hc. nia. }
  rewrite <- (lookup_drop _ (es * i)). replace (es * i)%nat with (i * es)%nat by lia.
  rewrite (drop_concat_chunks _ es) by done.
  rewrite (drop_S _ _ _ Hc). cbn [concat]. by rewrite lookup_app_l by lia.
Qed.

(** ** Sorting *)

Section py_sorted.
Context {A : Type} (key : A → Z).

Lemma insert_by_Permutation (x : A) (l : list A) : insert_by key x l ≡ₚ x :: l.
Proof.
  induction l as [|y l IH]; [done|]. cbn. case_decide; [done|].
  rewrite IH. apply Permutation_swap.
Qed.

Lemma py_sorted_Permutation (l : list A) : py_sorted key l ≡ₚ l.
Proof.
  induction l as [|x l IH]; [done|]. cbn.
  by rewrite insert_by_Permutation, IH.
Qed.

Lemma insert_by_sorted (x : A) (l : list A) :
  StronglySorted (λ a b, key a ≤ key b) l →
  StronglySorted (λ a b, key a ≤ key b) (insert_by key x l).
Proof.
  induction 1 as [|y l Hl IH Hy]; cbn; [by repeat constructor|].
  case_decide as Hxy.
  - constructor; [by constructor|]. constructor; [done|].
    eapply Forall_impl; [exact Hy|]. intros z Hz. cbn in Hz. lia.
  - constructor; [done|]. rewrite insert_by_Permutation.
    constructor; [lia|done].
Qed.

Lemma py_sorted_sorted (l : list A) :
  StronglySorted (λ a b, key a ≤ key b) (py_sorted key l).
Proof.
  induction l as [|x l IH]; cbn; [constructor|]. by apply insert_by_sorted.
Qed.

Lemma sorted_NoDup_strict (l : list A) :
  StronglySorted (λ a b, key a ≤ key b) l → NoDup (key <$> l) →
  StronglySorted Z.lt (key <$> l).
Proof.
  induction 1 as [|x l Hl IH Hx]; intros Hnd; cbn; [constructor|].
  apply NoDup_cons in Hnd as [Hnotin Hnd].
  constructor; [by apply IH|].
  apply Forall_fmap, Forall_forall. intros y Hy. cbn.
  rewrite Forall_forall in Hx. specialize (Hx y Hy).
  destruct (decide (key x = key y)) as [Heq|Hne]; [|lia].
  exfalso. apply Hnotin. rewrite Heq. by apply list_elem_of_fmap_2.
Qed.

(** Sorting a list whose keys are pairwise distinct gives strictly
    increasing keys. *)
Lemma py_sorted_strict (l : list A) :
  NoDup (key <$> l) → StronglySorted Z.lt (key <$> py_sorted key l).
Proof.
  intros Hnd. apply sorted_NoDup_strict; [apply py_sorted_sorted|].
  by rewrite py_sorted_Permutation.
Qed.

End py_sorted.

Lemma StronglySorted_sublist {A} (R : relation A) (l k : list A) :
  l `sublist_of` k → StronglySorted R k → StronglySorted R l.
Proof.
  induction 1 as [|x l k Hlk IH|x l k Hlk IH]; intros Hk; [done|..].
  - apply StronglySorted_inv in Hk as [Hk Hx].
    constructor; [by apply IH|].
    rewrite Forall_forall in Hx |- *. intros y Hy. apply Hx.
    by eapply elem_of_sublist.
  - apply StronglySorted_inv in Hk as [Hk _]. by apply IH.
Qed.

Lemma StronglySorted_lt_NoDup (l : list Z) : StronglySorted Z.lt l → NoDup l.
Proof.
  induction 1 as [|x l Hl IH Hx]; constructor; [|done].
  intros Hin. rewrite Forall_forall in Hx. specialize (Hx x Hin). lia.
Qed.

Lemma NoDup_fmap_filter {A B} (f : A → B) (P : A → Prop) `{∀ x, Decision (P x)}
    (l : list A) :
  NoDup (f <$> l) → NoDup (f <$> filter P l).
Proof.
  intros Hnd. eapply sublist_NoDup; [exact Hnd|].
  apply fmap_sublist, sublist_filter.
Qed.

(** ** The fixed-format encoder *)

Lemma build_index_spec (bitmap_start bytes_per_glyph i : Z)
    (rendered : list (Z * list Z)) (index_data bitmap_data idx bm : list Z) :
  build_index bitmap_start bytes_per_glyph i rendered index_data bitmap_data
    = Ok (idx, bm) →
  ∃ chunks,
    idx = index_data ++ concat chunks ∧ bm = bitmap_data ++ concat rendered.*2 ∧
    length chunks = length rendered ∧ Forall (λ c, length c = 6%nat) chunks ∧
    ∀ (j : nat) c, chunks !! j = Some c →
      ∃ cp, rendered.*1 !! j = Some cp ∧ read_uint 2 c 0 = cp ∧
            read_uint 4 c 2 = bitmap_start + (i + Z.of_nat j) * bytes_per_glyph.
Proof.
  revert i index_data bitmap_data.
  induction rendered as [|[cp bitmap] rest IH]; intros i index_data bitmap_data Hb.
  - injection Hb as <- <-. exists []. cbn. rewrite !app_nil_r.
    repeat split; [constructor|]. intros j c Hj. by rewrite lookup_nil in Hj.
  - cbn [build_index] in Hb.
    apply bind_inv in Hb as (entry & He & Hb).
    apply pack_entry_fixed_inv in He as (Hlen & Hcp & Hoff & _ & _).
    apply IH in Hb as (chunks & -> & -> & Hl & Hall & Hread).
    exists (entry :: chunks). cbn [concat fmap list_fmap snd length].
    rewrite <- !app_assoc. repeat split; [by rewrite Hl|by constructor|].
    intros [|j] c Hj; cbn in Hj.
    + injection Hj as <-. exists cp. rewrite Hoff. split; [done|]. split; [done|].
      f_equal. lia.
    + destruct (Hread j c Hj) as (cp' & ? & ? & ->).
      exists cp'. repeat split; [done..|]. f_equal. lia.
Qed.

Lemma render_glyph_to_fixed_size_spec (g : bdf_glyph) (tw th asc desc : Z) :
  ∃ canvas bs,
    render_canvas g tw th asc = Ok canvas ∧
    render_glyph_to_fixed_size g tw th asc desc = Ok bs ∧
    packs (flatten_canvas canvas) bs ∧
    Z.of_nat (length bs) = (Z.of_nat (Z.to_nat th * Z.to_nat tw) + 7) `div` 8.
Proof.
  destruct (render_canvas_spec g tw th asc) as (canvas & Hrun & [Hlen Hrows] & _).
  destruct (pack_bits_packs (flatten_canvas canvas)) as (bs & Hpack & Hpacks).
  exists canvas, bs. unfold render_glyph_to_fixed_size.
  rewrite Hrun, bind_Ok. repeat split; [done|apply Hpacks..|].
  destruct Hpacks as (-> & _). unfold flatten_canvas.
  by rewrite (length_concat_uniform _ _ Hrows), Hlen.
Qed.

Lemma render_all_spec (gs : list bdf_glyph) (tw th asc desc : Z) :
  ∃ rendered,
    render_all gs tw th asc desc = Ok rendered ∧
    rendered.*1 = encoding <$> gs ∧
    Forall (λ bm, Z.of_nat (length bm)
                  = (Z.of_nat (Z.to_nat th * Z.to_nat tw) + 7) `div` 8) rendered.*2.
Proof.
  induction gs as [|g gs (rendered & Hrun & Hcps & Hlens)].
  - exists []. by repeat split.
  - destruct (render_glyph_to_fixed_size_spec g tw th asc desc)
      as (canvas & bs & _ & Hbs & _ & Hlen).
    exists ((encoding g, bs) :: rendered). cbn [render_all].
    rewrite Hbs, bind_Ok, Hrun, bind_Ok. split; [done|]. split.
    + cbn. by rewrite Hcps.
    + by constructor.
Qed.

Lemma encode_fnt_parts (properties : gmap string Z) (glyphs : list bdf_glyph)
    (target_width target_height : option Z) (f : fnt_file) :
  let tw := target_width_of properties target_width in
  let th := target_height_of properties target_height in
  encode_fnt properties glyphs target_width target_height = Ok f →
  ∃ rendered chunks,
    render_all (valid_glyphs glyphs) tw th
      (font_ascent_of properties) (font_descent_of properties) = Ok rendered ∧
    rendered.*1 = encoding <$> valid_glyphs glyphs ∧
    Forall (λ bm, length bm = Z.to_nat ((tw * th + 7) `div` 8)) rendered.*2 ∧
    length (fnt_header f) = 16%nat ∧
    take 4 (fnt_header f) = FONT_MAGIC ∧
    fnt_header f !! 4%nat = Some 1 ∧
    fnt_header f !! 5%nat = Some tw ∧ fnt_header f !! 6%nat = Some th ∧
    fnt_header f !! 7%nat = Some 0 ∧
    read_uint 4 (fnt_header f) 8 = Z.of_nat (length rendered) ∧
    read_uint 4 (fnt_header f) 12 = 16 ∧
    0 ≤ tw < 256 ∧ 0 ≤ th < 256 ∧
    fnt_index f = concat chunks ∧ fnt_bitmap f = concat rendered.*2 ∧
    length chunks = length rendered ∧ Forall (λ c, length c = 6%nat) chunks ∧
    ∀ (j : nat) c, chunks !! j = Some c →
      ∃ cp, rendered.*1 !! j = Some cp ∧ read_uint 2 c 0 = cp ∧
            read_uint 4 c 2
            = 16 + Z.of_nat (length rendered) * 6
              + Z.of_nat j * ((tw * th + 7) `div` 8).
Proof.
  intros tw th. unfold encode_fnt. fold tw th. intros Henc.
  destruct (render_all_spec (valid_glyphs glyphs) tw th
              (font_ascent_of properties) (font_descent_of properties))
    as (rendered & Hrun & Hcps & Hlens).
  rewrite Hrun, bind_Ok in Henc.
  apply bind_inv in Henc as (header & Hhdr & Henc).
  apply pack_header_inv in Hhdr
    as (Hhl & Hmagic & Hv & Ha & Hb & Hf & Hcount & Haux & Htw & Hth & _); [|done].
  apply bind_inv in Henc as ([idx bm] & Hbuild & Henc).
  injection Henc as <-.
  apply build_index_spec in Hbuild as (chunks & -> & -> & Hcl & Hall & Hread).
  exists rendered, chunks. cbn [fnt_header fnt_index fnt_bitmap app].
  do 2 (split; [done|]). split.
  { eapply Forall_impl; [exact Hlens|]. intros bm Hbm. cbn in Hbm.
    rewrite Nat2Z.inj_mul, (Z2Nat.id th), (Z2Nat.id tw) in Hbm by lia.
    by rewrite (Z.mul_comm tw th), <- Hbm, Nat2Z.id. }
  do 14 (split; [done|]).
  intros j c Hc. destruct (Hread j c Hc) as (cp & ? & ? & ->).
  exists cp. do 2 (split; [done|]). by rewrite Z.add_0_l.
Qed.

Lemma encode_fnt_layout (properties : gmap string Z) (glyphs : list bdf_glyph)
    (target_width target_height : option Z) (f : fnt_file) :
  encode_fnt properties glyphs target_width target_height = Ok f →
  ∃ rendered,
    render_all (valid_glyphs glyphs)
      (target_width_of properties target_width)
      (target_height_of properties target_height)
      (font_ascent_of properties) (font_descent_of properties) = Ok rendered ∧
    contiguous_layout 6 2 (file_bytes f) rendered.*2.
Proof.
  intros Henc. apply encode_fnt_parts in Henc
    as (rendered & chunks & Hrun & _ & Hbpg & Hhl & _ & _ & _ & _ & _ & Hcount & _
        & Htw & Hth & Hidx & Hbm & Hcl & Hall & Hread).
  exists rendered. split; [done|]. unfold file_bytes. rewrite Hidx, Hbm.
  apply layout_from_chunks;
    [done|by rewrite length_fmap|lia|by rewrite length_fmap|done|].
  intros i c Hc. destruct (Hread i c Hc) as (cp & _ & _ & ->).
  rewrite length_fmap.
  rewrite (sum_list_with_uniform _ _ _ (Forall_take _ _ _ Hbpg)).
  rewrite length_take, length_fmap.
  apply lookup_lt_Some in Hc.
  match goal with |- context [Z.to_nat ?b] => assert (0 ≤ b) by (apply Z.div_pos; lia) end.
  lia.
Qed.

Lemma encode_fnt_codepoints (properties : gmap string Z) (glyphs : list bdf_glyph)
    (target_width target_height : option Z) (f : fnt_file) :
  encode_fnt properties glyphs target_width target_height = Ok f →
  index_codepoints 6 2 (file_bytes f) = encoding <$> valid_glyphs glyphs.
Proof.
  intros Henc. apply encode_fnt_parts in Henc
    as (rendered & chunks & _ & Hcps & _ & Hhl & _ & _ & _ & _ & _ & Hcount & _
        & _ & _ & Hidx & Hbm & Hcl & Hall & Hread).
  unfold index_codepoints, file_bytes. rewrite Hidx, Hbm.
  rewrite read_uint_prefix, Hcount, Nat2Z.id by lia.
  rewrite <- Hcps. apply list_eq_same_length with (length rendered);
    [by rewrite length_fmap|by rewrite length_fmap, length_seq|].
  intros i x y Hi Hx Hy.
  apply list_lookup_fmap_Some in Hx as (i' & -> & Hseq).
  apply lookup_seq in Hseq as [-> _]. change (0 + i)%nat with i.
  destruct (lookup_lt_is_Some_2 chunks i) as [c Hc]; [lia|].
  destruct (Hread i c Hc) as (cp & Hcp & Hrd & _).
  assert (cp = y) as -> by congruence.
  rewrite <- Hrd, <- Hhl. replace (length (fnt_header f) + 6 * i)%nat
    with (length (fnt_header f) + 6 * i + 0)%nat by lia.
  apply read_chunk_field; [done|done|lia].
Qed.

Lemma valid_glyphs_strict (glyphs : list bdf_glyph) :
  NoDup (encoding <$> glyphs) →
  StronglySorted Z.lt (encoding <$> valid_glyphs glyphs).
Proof.
  intros Hnd. unfold valid_glyphs. apply py_sorted_strict.
  by apply NoDup_fmap_filter.
Qed.

(** ** The variable-format encoder *)

Lemma get_font_codepoints_strict (tables : list cmap_table) :
  StronglySorted Z.lt (get_font_codepoints tables).
Proof.
  unfold get_font_codepoints.
  rewrite <- (list_fmap_id (py_sorted id _)). apply py_sorted_strict.
  rewrite list_fmap_id. apply NoDup_filter, NoDup_elements.
Qed.

Lemma get_font_codepoints_printable (tables : list cmap_table) :
  Forall (λ cp, 0x20 ≤ cp) (get_font_codepoints tables).
Proof.
  unfold get_font_codepoints. rewrite py_sorted_Permutation.
  apply Forall_forall. intros cp [Hcp _]%list_elem_of_filter. lia.
Qed.

Section render_facts.
Context {font image : Type} `{Rasterizer font image}.

Lemma render_glyph_Ok_cp (fnt : font) (cp size : Z) r :
  render_glyph fnt cp size = Ok r → 0 ≤ cp < 0x110000.
Proof. unfold render_glyph. by case_decide. Qed.

Lemma render_codepoints_spec (fnt : font) (size : Z) (cps : list Z)
    (glyphs0 : list ttf_glyph) (mw0 mh0 : Z) glyphs mw mh :
  render_codepoints fnt size cps glyphs0 mw0 mh0 = Ok (glyphs, mw, mh) →
  ∃ new, glyphs = glyphs0 ++ new ∧
    tg_cp <$> new `sublist_of` cps ∧ Forall glyph_ok new ∧
    mw0 ≤ mw ∧ mh0 ≤ mh ∧
    Forall (λ g, tg_width g ≤ mw ∧ tg_height g ≤ mh) new ∧
    (mw = mw0 ∨ ∃ g, g ∈ new ∧ tg_width g = mw) ∧
    (mh = mh0 ∨ ∃ g, g ∈ new ∧ tg_height g = mh) ∧
    Forall (λ g, render_glyph fnt (tg_cp g) size
                 = Ok (Some (tg_bitmap g), tg_width g, tg_height g)) new.
Proof.
  revert glyphs0 mw0 mh0.
  induction cps as [|cp rest IH]; intros glyphs0 mw0 mh0 Hrun; cbn in Hrun.
  - injection Hrun as <- <- <-. exists []. rewrite app_nil_r.
    split; [done|]. split; [constructor|]. split; [constructor|].
    split; [lia|]. split; [lia|]. split; [constructor|].
    split; [by left|]. split; [by left|constructor].
  - apply bind_inv in Hrun as ([[bitmap width] height] & Hg & Hrun).
    pose proof (render_glyph_Ok_cp _ _ _ _ Hg) as Hcp.
    destruct bitmap as [bm|]; [case_decide as Hkeep|].
    2,3: apply IH in Hrun as (new & -> & Hsub & ?); exists new;
         (split; [done|]); (split; [by apply sublist_cons|]); done.
    destruct Hkeep as (Hbm & Hwpos & Hhpos).
    apply IH in Hrun as (new & -> & Hsub & Hok & Hw & Hh & Hmax & Hmw & Hmh & Hrg).
    exists (TtfGlyph cp bm width height :: new). rewrite <- app_assoc.
    split; [done|]. split; [by apply sublist_skip|].
    split; [constructor; [split; cbn; [done|split; [done|lia]]|done]|].
    split; [lia|]. split; [lia|].
    split; [constructor; [cbn; lia|done]|].
    split; [|split].
    + destruct Hmw as [->|(g & Hg' & <-)].
      * destruct (Z.max_spec mw0 width) as [[_ ->]|[_ ->]].
        -- right. eexists. split; [left|done].
        -- by left.
      * right. exists g. split; [by right|done].
    + destruct Hmh as [->|(g & Hg' & <-)].
      * destruct (Z.max_spec mh0 height) as [[_ ->]|[_ ->]].
        -- right. eexists. split; [left|done].
        -- by left.
      * right. exists g. split; [by right|done].
    + by constructor.
Qed.

End render_facts.

Lemma write_bitmaps_concat (glyphs : list ttf_glyph) (f : list Z) :
  write_bitmaps glyphs f = f ++ concat (tg_bitmap <$> glyphs).
Proof.
  unfold write_bitmaps. revert f.
  induction glyphs as [|g glyphs IH]; intros f; cbn; [by rewrite app_nil_r|].
  by rewrite IH, <- app_assoc.
Qed.

Lemma write_index_inv (glyphs : list ttf_glyph) (off : Z) (f f' : list Z) :
  write_index glyphs off f = (f', None) →
  ∃ chunks,
    f' = f ++ concat chunks ∧ length chunks = length glyphs ∧
    Forall (λ c, length c = 10%nat) chunks ∧
    ∀ (j : nat) c, chunks !! j = Some c →
      ∃ g, glyphs !! j = Some g ∧
        read_uint 4 c 0 = tg_cp g ∧
        read_uint 4 c 4
        = off + Z.of_nat (sum_list_with length (take j (tg_bitmap <$> glyphs))) ∧
        c !! 8%nat = Some (tg_width g) ∧ c !! 9%nat = Some (tg_height g) ∧
        entry_fits g (read_uint 4 c 4).
Proof.
  revert off f. induction glyphs as [|g glyphs IH]; intros off f Hw; cbn in Hw.
  - injection Hw as <-. exists []. cbn. rewrite app_nil_r.
    repeat split; [constructor|]. intros j c Hc. by rewrite lookup_nil in Hc.
  - destruct (pack_entry_variable _ _ _ _) as [entry|e] eqn:He; [|done].
    apply pack_entry_variable_inv in He
      as (Hlen & Hcp & Hoff & Hw8 & Hh9 & Hrc & Hro & Hrw & Hrh).
    apply IH in Hw as (chunks & -> & Hl & Hall & Hread).
    exists (entry :: chunks). cbn [concat length]. rewrite <- app_assoc.
    repeat split; [by rewrite Hl|by constructor|].
    intros [|j] c Hc; cbn in Hc.
    + injection Hc as <-. exists g. rewrite Hoff, Hcp. cbn.
      repeat split; try done; lia.
    + destruct (Hread j c Hc) as (g' & Hg' & Hc0 & Hc4 & Hc8 & Hc9 & Hfit).
      exists g'. split; [done|]. split; [done|]. split; [|done].
      rewrite Hc4. cbn [fmap list_fmap take sum_list_with]. lia.
Qed.

Lemma write_index_error (glyphs : list ttf_glyph) (off : Z) (f f' : list Z) (e : exn) :
  write_index glyphs off f = (f', Some e) → e = StructError.
Proof.
  revert off f. induction glyphs as [|g glyphs IH]; intros off f Hw; cbn in Hw; [done|].
  destruct (pack_entry_variable _ _ _ _) as [entry|e'] eqn:He.
  - by eapply IH.
  - injection Hw as _ <-. by eapply pack_entry_variable_error.
Qed.

Lemma write_index_Ok (glyphs : list ttf_glyph) (off : Z) (f : list Z) :
  Forall (λ g, 0 ≤ tg_cp g < 2 ^ 32 ∧ 0 ≤ tg_width g < 256 ∧ 0 ≤ tg_height g < 256)
    glyphs →
  0 ≤ off →
  (∀ i : nat, (i < length glyphs)%nat →
     off + Z.of_nat (sum_list_with length (take i (tg_bitmap <$> glyphs))) < 2 ^ 32) →
  ∃ f', write_index glyphs off f = (f', None).
Proof.
  intros Hall. revert off f.
  induction Hall as [|g glyphs (Hcp & Hw & Hh) _ IH]; intros off f Hoff Hfit; cbn.
  - by eexists.
  - pose proof (Hfit 0%nat ltac:(cbn; lia)) as Hfirst. cbn in Hfirst.
    destruct (pack_entry_variable_Ok (tg_cp g) off (tg_width g) (tg_height g))
      as [entry ->]; [done|lia|done|done|].
    apply IH; [lia|]. intros i Hi.
    pose proof (Hfit (S i) ltac:(cbn; lia)) as Hnext. cbn in Hnext. lia.
Qed.

Section create_font_file_facts.
Context {font image : Type} `{Rasterizer font image}.

Lemma create_font_file_parts (tables : list cmap_table) (size : Z) (bytes : list Z) :
  create_font_file tables size = Run (Returned true) (Some bytes) →
  ∃ fnt glyphs mw mh header chunks,
    truetype size = Some fnt ∧
    render_codepoints fnt size (get_font_codepoints tables) [] 0 0
      = Ok (glyphs, mw, mh) ∧
    glyphs ≠ [] ∧
    bytes = header ++ concat chunks ++ concat (tg_bitmap <$> glyphs) ∧
    length header = 16%nat ∧ take 4 header = FONT_MAGIC ∧
    header !! 4%nat = Some FONT_VERSION ∧
    header !! 5%nat = Some mw ∧ header !! 6%nat = Some mh ∧
    header !! 7%nat = Some 1 ∧
    read_uint 4 header 8 = Z.of_nat (length glyphs) ∧ read_uint 4 header 12 = 0 ∧
    length chunks = length glyphs ∧ Forall (λ c, length c = 10%nat) chunks ∧
    ∀ (j : nat) c, chunks !! j = Some c →
      ∃ g, glyphs !! j = Some g ∧
        read_uint 4 c 0 = tg_cp g ∧
        read_uint 4 c 4
        = 16 + Z.of_nat (length glyphs) * 10
          + Z.of_nat (sum_list_with length (take j (tg_bitmap <$> glyphs))) ∧
        c !! 8%nat = Some (tg_width g) ∧ c !! 9%nat = Some (tg_height g) ∧
        entry_fits g (read_uint 4 c 4).
Proof.
  unfold create_font_file. intros Hrun.
  destruct (truetype size) as [fnt|]; [|done].
  destruct (render_codepoints _ _ _ _ _ _) as [[[glyphs mw] mh]|e] eqn:Hrender; [|done].
  case_decide as Hne; [done|].
  destruct (pack_header _ _ _ _ _ _ _) as [header|e] eqn:Hhdr; [|done].
  apply pack_header_inv in Hhdr
    as (Hhl & Hmagic & Hv & Ha & Hb & Hf & Hcount & Haux & _); [|done].
  destruct (write_index _ _ _) as [f [e|]] eqn:Hidx; [done|].
  injection Hrun as <-.
  apply write_index_inv in Hidx as (chunks & -> & Hcl & Hall & Hread).
  exists fnt, glyphs, mw, mh, header, chunks.
  rewrite write_bitmaps_concat, <- app_assoc. done.
Qed.

Lemma create_font_file_layout (tables : list cmap_table) (size : Z) (bytes : list Z) :
  create_font_file tables size = Run (Returned true) (Some bytes) →
  ∃ fnt glyphs mw mh,
    truetype size = Some fnt ∧
    render_codepoints fnt size (get_font_codepoints tables) [] 0 0
      = Ok (glyphs, mw, mh) ∧
    contiguous_layout 10 4 bytes (tg_bitmap <$> glyphs).
Proof.
  intros (fnt & glyphs & mw & mh & header & chunks & Hfnt & Hrender & _ & -> & Hhl
          & _ & _ & _ & _ & _ & Hcount & _ & Hcl & Hall & Hread)%create_font_file_parts.
  exists fnt, glyphs, mw, mh. do 2 (split; [done|]).
  apply layout_from_chunks;
    [done|by rewrite length_fmap|lia|by rewrite length_fmap|done|].
  intros i c Hc. destruct (Hread i c Hc) as (g & _ & _ & -> & _).
  by rewrite length_fmap.
Qed.

Lemma create_font_file_codepoints (tables : list cmap_table) (size : Z)
    (bytes : list Z) :
  create_font_file tables size = Run (Returned true) (Some bytes) →
  index_codepoints 10 4 bytes `sublist_of` get_font_codepoints tables.
Proof.
  intros (fnt & glyphs & mw & mh & header & chunks & Hfnt & Hrender & _ & -> & Hhl
          & _ & _ & _ & _ & _ & Hcount & _ & Hcl & Hall & Hread)%create_font_file_parts.
  apply render_codepoints_spec in Hrender as (new & Hnew & Hsub & _).
  cbn [app] in Hnew. subst new.
  assert (Hcps : index_codepoints 10 4
                   (header ++ concat chunks ++ concat (tg_bitmap <$> glyphs))
                 = tg_cp <$> glyphs); [|by rewrite Hcps].
  unfold index_codepoints.
  rewrite read_uint_prefix, Hcount, Nat2Z.id by lia.
  apply list_eq_same_length with (length glyphs);
    [by rewrite length_fmap|by rewrite length_fmap, length_seq|].
  intros i x y Hi Hx Hy.
  apply list_lookup_fmap_Some in Hx as (i' & -> & Hseq).
  apply lookup_seq in Hseq as [-> _]. change (0 + i)%nat with i.
  destruct (lookup_lt_is_Some_2 chunks i) as [c Hc]; [lia|].
  destruct (Hread i c Hc) as (g & Hg & Hrd & _).
  rewrite list_lookup_fmap, Hg in Hy. injection Hy as <-.
  rewrite <- Hrd, <- Hhl. replace (length header + 10 * i)%nat
    with (length header + 10 * i + 0)%nat by lia.
  apply read_chunk_field; [done|done|lia].
Qed.

End create_font_file_facts.

(** ** Container layout and index order *)

Section containers.
Context {font image : Type} `{Rasterizer font image}.

(** C6: in every container written by either encoder the first offset of
    the index is 16 + glyph_count * entry_size (6 bytes fixed, 10 bytes
    variable), each further offset is the previous one plus the length of
    the previous bitmap, the bytes at offset i are bitmap i, and the last
    bitmap ends the file. *)
Theorem offsets_are_contiguous :
  (∀ properties glyphs target_width target_height f,
     encode_fnt properties glyphs target_width target_height = Ok f →
     ∃ rendered,
       render_all (valid_glyphs glyphs)
         (target_width_of properties target_width)
         (target_height_of properties target_height)
         (font_ascent_of properties) (font_descent_of properties) = Ok rendered ∧
       contiguous_layout 6 2 (file_bytes f) rendered.*2) ∧
  (∀ tables size bytes,
     create_font_file tables size = Run (Returned true) (Some bytes) →
     ∃ fnt glyphs mw mh,
       truetype size = Some fnt ∧
       render_codepoints fnt size (get_font_codepoints tables) [] 0 0
         = Ok (glyphs, mw, mh) ∧
       contiguous_layout 10 4 bytes (tg_bitmap <$> glyphs)).
Proof.
  split.
  - intros properties glyphs tw th f. apply encode_fnt_layout.
  - intros tables size bytes. apply create_font_file_layout.
Qed.

(** C7: the index code points of a container, read from its bytes, are
    strictly increasing, hence pairwise distinct: for the fixed format
    when the source encodings are pairwise distinct, for the variable
    format always (the code points come from a set). *)
Theorem index_strictly_increasing :
  (∀ properties glyphs target_width target_height f,
     NoDup (encoding <$> glyphs) →
     encode_fnt properties glyphs target_width target_height = Ok f →
     StronglySorted Z.lt (index_codepoints 6 2 (file_bytes f)) ∧
     NoDup (index_codepoints 6 2 (file_bytes f))) ∧
  (∀ tables size bytes,
     create_font_file tables size = Run (Returned true) (Some bytes) →
     StronglySorted Z.lt (index_codepoints 10 4 bytes) ∧
     NoDup (index_codepoints 10 4 bytes)).
Proof.
  split.
  - intros properties glyphs tw th f Hnd Henc.
    rewrite (encode_fnt_codepoints _ _ _ _ _ Henc).
    pose proof (valid_glyphs_strict glyphs Hnd) as Hs.
    split; [done|by apply StronglySorted_lt_NoDup].
  - intros tables size bytes Hrun.
    pose proof (create_font_file_codepoints _ _ _ Hrun) as Hsub.
    pose proof (StronglySorted_sublist _ _ _ Hsub (get_font_codepoints_strict tables)) as Hs.
    split; [done|by apply StronglySorted_lt_NoDup].
Qed.

End containers.

Lemma offsets_are_contiguous_witness :
  contiguous_layout 6 2 (file_bytes two_glyphs_file)
    [[252; 64; 0; 0; 0]; [248; 0; 0; 0; 0]] ∧
  contiguous_layout 10 4 block_font_bytes [[0]; [255]; [255]].
Proof.
  destruct (offsets_are_contiguous (H := block_rasterizer)) as [Hfixed Hvariable].
  split.
  - destruct (Hfixed two_glyphs_properties two_glyphs None None two_glyphs_file)
      as (rendered & Hrendered & Hlayout); [vm_compute; reflexivity|].
    vm_compute in Hrendered. injection Hrendered as <-. exact Hlayout.
  - destruct (Hvariable block_tables 4 block_font_bytes)
      as (fnt & glyphs & mw & mh & Hfnt & Hglyphs & Hlayout); [vm_compute; reflexivity|].
    vm_compute in Hfnt. injection Hfnt as <-.
    vm_compute in Hglyphs. injection Hglyphs as <- <- <-. exact Hlayout.
Defined.

Lemma index_strictly_increasing_witness :
  StronglySorted Z.lt (index_codepoints 6 2 (file_bytes two_glyphs_file)) ∧
  StronglySorted Z.lt (index_codepoints 10 4 block_font_bytes).
Proof.
  destruct (index_strictly_increasing (H := block_rasterizer)) as [Hfixed Hvariable].
  split.
  - apply (Hfixed two_glyphs_properties two_glyphs None None two_glyphs_file).
    + apply (bool_decide_unpack _). vm_compute. reflexivity.
    + vm_compute. reflexivity.
  - apply (Hvariable block_tables 4 block_font_bytes). vm_compute. reflexivity.
Defined.

(** ** Canvas height *)

(** C9 (amended): without FONT_ASCENT the ascent falls back to the font
    bounding box height (9 when that is missing too), without FONT_DESCENT
    the descent falls back to 0, and the canvas height written to the
    header is ascent + descent unless a height is given. *)
Theorem canvas_height_defaults (properties : gmap string Z) (glyphs : list bdf_glyph)
    (target_width target_height : option Z) (f : fnt_file) :
  encode_fnt properties glyphs target_width target_height = Ok f →
  (properties !! "ascent" = None →
     font_ascent_of properties = default 9 (properties !! "fbb_height")) ∧
  (properties !! "descent" = None → font_descent_of properties = 0) ∧
  fnt_header f !! 6%nat
  = Some (match target_height with
          | Some h => h
          | None => font_ascent_of properties + font_descent_of properties
          end).
Proof.
  intros Henc. split; [|split].
  - intros Ha. unfold font_ascent_of. by rewrite Ha.
  - intros Hd. unfold font_descent_of. by rewrite Hd.
  - apply encode_fnt_parts in Henc
      as (rendered & chunks & _ & _ & _ & _ & _ & _ & _ & Hth & _).
    rewrite Hth. by destruct target_height.
Qed.

Lemma canvas_height_defaults_witness :
  font_ascent_of properties_no_metrics = 7 ∧
  font_descent_of properties_no_metrics = 0 ∧
  (FntFile [84; 70; 78; 84; 1; 5; 7; 0; 0; 0; 0; 0; 16; 0; 0; 0] [] []).(fnt_header)
    !! 6%nat = Some 7.
Proof.
  destruct (canvas_height_defaults properties_no_metrics [] None None
              (FntFile [84; 70; 78; 84; 1; 5; 7; 0; 0; 0; 0; 0; 16; 0; 0; 0] [] []))
    as (Ha & Hd & Hh); [vm_compute; reflexivity|].
  split; [exact (Ha eq_refl)|]. split; [exact (Hd eq_refl)|exact Hh].
Defined.

(** C9 as stated fails: with no FONT_DESCENT the descent is 0, not the
    font bounding box height. *)
Lemma descent_fallback_counterexample :
  ¬ (∀ (properties : gmap string Z) (h : Z),
       properties !! "ascent" = None → properties !! "descent" = None →
       properties !! "fbb_height" = Some h →
       font_ascent_of properties = h ∧ font_descent_of properties = h).
Proof.
  intros Hclaim.
  destruct (Hclaim properties_no_metrics 7) as [_ Hd]; [reflexivity..|].
  vm_compute in Hd. discriminate.
Qed.

(** ** Glyph dimensions in the variable format *)

Section dimensions.
Context {font image : Type} `{Rasterizer font image}.

Lemma create_font_file_unfold (tables : list cmap_table) (size : Z) (fnt : font)
    (glyphs : list ttf_glyph) (mw mh : Z) :
  truetype size = Some fnt →
  render_codepoints fnt size (get_font_codepoints tables) [] 0 0
    = Ok (glyphs, mw, mh) →
  glyphs ≠ [] →
  create_font_file tables size =
  match pack_header FONT_MAGIC FONT_VERSION mw mh 1 (Z.of_nat (length glyphs)) 0 with
  | Raise e => Run (Raised e) (Some [])
  | Ok header =>
      match write_index glyphs (16 + Z.of_nat (length glyphs) * 10) header with
      | (f, Some e) => Run (Raised e) (Some f)
      | (f, None) => Run (Returned true) (Some (write_bitmaps glyphs f))
      end
  end.
Proof.
  intros Hfnt Hrender Hne. unfold create_font_file.
  rewrite Hfnt, Hrender. by rewrite decide_False.
Qed.

(** C10 (amended): once at least one glyph has been rendered, a glyph set
    whose widths and heights are at most 255 and whose bitmap offsets are
    all below 2^32 (the range of the offset field) is written, with each
    width and height stored unchanged in one byte of its index entry and
    the maxima in the header; a glyph set with a width or height above 255
    makes [struct.pack] raise on the header, before any byte is written. *)
Theorem dimensions_are_single_bytes (tables : list cmap_table) (size : Z) (fnt : font)
    (glyphs : list ttf_glyph) (max_width max_height : Z) :
  truetype size = Some fnt →
  render_codepoints fnt size (get_font_codepoints tables) [] 0 0
    = Ok (glyphs, max_width, max_height) →
  glyphs ≠ [] →
  (Forall (λ g, tg_width g ≤ 255 ∧ tg_height g ≤ 255) glyphs →
   (∀ i : nat, (i < length glyphs)%nat →
      16 + 10 * Z.of_nat (length glyphs)
        + Z.of_nat (sum_list_with length (take i (tg_bitmap <$> glyphs))) < 2 ^ 32) →
   ∃ bytes,
     create_font_file tables size = Run (Returned true) (Some bytes) ∧
     bytes !! 5%nat = Some max_width ∧ bytes !! 6%nat = Some max_height ∧
     Forall (λ g, tg_width g ≤ max_width ∧ tg_height g ≤ max_height) glyphs ∧
     ∀ (i : nat) g, glyphs !! i = Some g →
       bytes !! (16 + 10 * i + 8)%nat = Some (tg_width g) ∧
       bytes !! (16 + 10 * i + 9)%nat = Some (tg_height g)) ∧
  (Exists (λ g, 255 < tg_width g ∨ 255 < tg_height g) glyphs →
   create_font_file tables size = Run (Raised StructError) (Some [])).
Proof.
  intros Hfnt Hrender Hne.
  pose proof (create_font_file_unfold _ _ _ _ _ _ Hfnt Hrender Hne) as Hcff.
  destruct (render_codepoints_spec _ _ _ _ _ _ _ _ _ Hrender)
    as (new & Hnew & _ & Hok & Hmw0 & Hmh0 & Hmax & Hmw & Hmh & _).
  cbn [app] in Hnew. subst new. split.
  - intros Hdims Hsize.
    assert (Hmwb : 0 ≤ max_width < 256).
    { split; [done|]. destruct Hmw as [->|(g & Hg & <-)]; [lia|].
      rewrite Forall_forall in Hdims. specialize (Hdims g Hg). lia. }
    assert (Hmhb : 0 ≤ max_height < 256).
    { split; [done|]. destruct Hmh as [->|(g & Hg & <-)]; [lia|].
      rewrite Forall_forall in Hdims. specialize (Hdims g Hg). lia. }
    assert (Hcount : Z.of_nat (length glyphs) < 2 ^ 32).
    { assert (Hpos : (0 < length glyphs)%nat) by (destruct glyphs; [done|cbn; lia]).
      pose proof (Hsize 0%nat Hpos) as Hfirst.
      rewrite take_0 in Hfirst. cbn [sum_list_with] in Hfirst. lia. }
    destruct (pack_header_Ok FONT_MAGIC FONT_VERSION max_width max_height 1
                (Z.of_nat (length glyphs)) 0) as [header Hhdr];
      [done|done|done|lia|lia|lia|].
    destruct (write_index_Ok glyphs (16 + Z.of_nat (length glyphs) * 10) header)
      as [f Hidx]; [|lia|intros i Hi; specialize (Hsize i Hi); lia|].
    { rewrite Forall_forall in Hok, Hdims |- *. intros g Hg.
      destruct (Hok g Hg) as (Hcp & _ & Hw & Hh). specialize (Hdims g Hg). lia. }
    rewrite Hhdr, Hidx in Hcff. eexists. split; [exact Hcff|].
    apply create_font_file_parts in Hcff
      as (fnt' & glyphs' & mw' & mh' & header' & chunks & Hfnt' & Hrender' & _ & ->
          & Hhl & _ & _ & Hb5 & Hb6 & _ & _ & _ & Hcl & Hall & Hread).
    rewrite Hfnt in Hfnt'. injection Hfnt' as <-.
    rewrite Hrender in Hrender'. injection Hrender' as <- <- <-.
    split; [by rewrite lookup_app_l by lia|].
    split; [by rewrite lookup_app_l by lia|].
    split; [done|].
    intros i g Hg.
    destruct (lookup_lt_is_Some_2 chunks i) as [c Hc].
    { apply lookup_lt_Some in Hg. lia. }
    destruct (Hread i c Hc) as (g' & Hg' & _ & _ & Hc8 & Hc9 & _).
    assert (g' = g) as -> by congruence.
    rewrite <- Hhl, !(lookup_chunk_byte 10 _ _ _ _ _ c) by (done || lia). done.
  - intros Hbig. rewrite Hcff.
    rewrite pack_header_dim_error; [done|done|].
    apply Exists_exists in Hbig as (g & Hg & Hbig).
    rewrite Forall_forall in Hmax. specialize (Hmax g Hg). lia.
Qed.

End dimensions.

Lemma dimensions_are_single_bytes_witness :
  (∃ bytes,
     create_font_file block_tables 4 = Run (Returned true) (Some bytes) ∧
     bytes !! 5%nat = Some 2 ∧ bytes !! 6%nat = Some 4) ∧
  create_font_file wide_tables 4 = Run (Raised StructError) (Some []).
Proof.
  split.
  - destruct (dimensions_are_single_bytes block_tables 4 4
                [TtfGlyph 32 [0] 1 4; TtfGlyph 65 [255] 2 4; TtfGlyph 66 [255] 2 4] 2 4)
      as [Hsmall _]; [vm_compute; reflexivity..|discriminate|].
    destruct Hsmall as (bytes & Hrun & H5 & H6 & _).
    + repeat constructor; cbn; lia.
    + intros [|[|[|i]]] Hi; cbn in Hi |- *; lia.
    + exists bytes. split; [exact Hrun|]. split; [exact H5|exact H6].
  - destruct (dimensions_are_single_bytes wide_tables 4 4
                [TtfGlyph 65 [255] 2 4; TtfGlyph 0x5F (replicate 32 255) 256 1] 256 4)
      as [_ Hbig]; [vm_compute; reflexivity..|discriminate|].
    apply Hbig. right. left. cbn. lia.
Defined.

(** *** A font whose bitmap offsets overflow *)

Lemma render_glyph_solid (cp : Z) :
  0 ≤ cp < 0x110000 →
  render_glyph (H := solid_rasterizer) 255 cp 255 = Ok (Some solid_bitmap, 255, 255).
Proof.
  intros Hcp. unfold render_glyph. rewrite decide_True by done.
  vm_compute. reflexivity.
Qed.

Lemma length_solid_bitmap : length solid_bitmap = Z.to_nat 8129.
Proof. unfold solid_bitmap. rewrite length_app, length_replicate. cbn [length]. lia. Qed.

Lemma render_codepoints_solid (cps : list Z) (glyphs0 : list ttf_glyph) (mw0 mh0 : Z) :
  Forall (λ cp, 0 ≤ cp < 0x110000) cps → 0 ≤ mw0 ≤ 255 → 0 ≤ mh0 ≤ 255 →
  render_codepoints (H := solid_rasterizer) 255 255 cps glyphs0 mw0 mh0
  = Ok (glyphs0 ++ (solid_glyph <$> cps),
        match cps with [] => mw0 | _ => 255 end,
        match cps with [] => mh0 | _ => 255 end).
Proof.
  intros Hcps. revert glyphs0 mw0 mh0.
  induction Hcps as [|cp cps Hcp _ IH]; intros glyphs0 mw0 mh0 Hmw Hmh.
  { cbn. by rewrite app_nil_r. }
  cbn [render_codepoints]. rewrite (render_glyph_solid cp Hcp), bind_Ok.
  rewrite decide_True.
  2:{ split; [|lia]. unfold solid_bitmap. by destruct (replicate _ _). }
  rewrite IH by lia. cbn [fmap list_fmap]. rewrite <- app_assoc. cbn [app].
  rewrite !Z.max_r by lia. by destruct cps.
Qed.

Lemma StronglySorted_seqZ (m n : Z) : StronglySorted Z.lt (seqZ m n).
Proof.
  destruct (decide (0 ≤ n)) as [Hn|Hn].
  2:{ unfold seqZ. replace (Z.to_nat n) with 0%nat by lia. constructor. }
  revert m. pattern n. apply natlike_ind; [| |done].
  - intros m. constructor.
  - intros k Hk IH m. rewrite seqZ_cons by lia.
    replace (Z.pred (Z.succ k)) with k by lia.
    constructor; [apply IH|]. apply Forall_forall. intros x Hx%elem_of_seqZ. lia.
Qed.

Lemma get_font_codepoints_seqZ (n : Z) :
  get_font_codepoints [CmapTable true (seqZ 0x20 n)] = seqZ 0x20 n.
Proof.
  apply (StronglySorted_unique_strong Z.lt).
  - intros; lia.
  - apply get_font_codepoints_strict.
  - apply StronglySorted_seqZ.
  - unfold get_font_codepoints. rewrite py_sorted_Permutation.
    apply NoDup_Permutation.
    + apply NoDup_filter, NoDup_elements.
    + apply NoDup_seqZ.
    + intros x. rewrite list_elem_of_filter, elem_of_elements. cbn [foldl isUnicode cmap_keys].
      rewrite elem_of_union, elem_of_list_to_set, elem_of_seqZ.
      split; [intros [_ [Hx|Hx]]; [set_solver|done]|].
      intros Hx. split; [lia|by right].
Qed.

Lemma sum_take_solid (cps : list Z) (j : nat) :
  (j ≤ length cps)%nat →
  Z.of_nat (sum_list_with length (take j (tg_bitmap <$> (solid_glyph <$> cps))))
  = 8129 * Z.of_nat j.
Proof.
  revert j. induction cps as [|cp cps IH]; intros [|j] Hj; cbn in *; try lia.
  rewrite Nat2Z.inj_add, IH by lia. rewrite length_solid_bitmap. lia.
Qed.

(** With enough glyphs of 8129 bytes the last offsets leave the range of
    the 4-byte field, and the index loop raises. *)
Lemma offset_overflow_at (n : Z) :
  0 < n → 0x20 + n ≤ 0x110000 → 2 ^ 32 ≤ 16 + 10 * n + 8129 * (n - 1) →
  render_codepoints (H := solid_rasterizer) 255 255
    (get_font_codepoints [CmapTable true (seqZ 0x20 n)]) [] 0 0
  = Ok (solid_glyph <$> seqZ 0x20 n, 255, 255) ∧
  ∃ f, create_font_file (H := solid_rasterizer) [CmapTable true (seqZ 0x20 n)] 255
       = Run (Raised StructError) (Some f).
Proof.
  intros Hn Hmax Hbig.
  assert (Hrender :
    render_codepoints (H := solid_rasterizer) 255 255
      (get_font_codepoints [CmapTable true (seqZ 0x20 n)]) [] 0 0
    = Ok (solid_glyph <$> seqZ 0x20 n, 255, 255)).
  { rewrite get_font_codepoints_seqZ.
    rewrite render_codepoints_solid; [|apply Forall_forall; intros x Hx%elem_of_seqZ; lia|lia|lia].
    cbn [app]. by rewrite (seqZ_cons 0x20 n). }
  split; [done|].
  assert (Hlen : length (solid_glyph <$> seqZ 0x20 n) = Z.to_nat n)
    by by rewrite length_fmap, length_seqZ.
  assert (Hne : solid_glyph <$> seqZ 0x20 n ≠ []).
  { intros Hnil. rewrite Hnil in Hlen. cbn [length] in Hlen. lia. }
  pose proof (create_font_file_unfold (H := solid_rasterizer) _ 255 255
                _ 255 255 eq_refl Hrender Hne) as Hcff.
  destruct (pack_header_Ok FONT_MAGIC FONT_VERSION 255 255 1
              (Z.of_nat (length (solid_glyph <$> seqZ 0x20 n))) 0) as [header Hhdr];
    [done|done|done|done|lia|lia|].
  rewrite Hhdr in Hcff.
  destruct (write_index _ _ header) as [f [e|]] eqn:Hidx.
  - exists f. apply write_index_error in Hidx as ->. done.
  - exfalso. apply write_index_inv in Hidx as (chunks & _ & Hl & _ & Hread).
    destruct (lookup_lt_is_Some_2 chunks (Z.to_nat (n - 1))) as [c Hc]; [lia|].
    destruct (Hread _ c Hc) as (g & _ & _ & Hoff & _ & _ & Hfit).
    rewrite Hoff, sum_take_solid in Hfit by (rewrite length_seqZ; lia).
    destruct Hfit as (_ & Hfit & _). lia.
Qed.

(** C10 as stated fails: at 255 pixels each of the 600000 glyphs of
    [many_tables] is 255 by 255 pixels (8129 bytes), so the offset of the
    last bitmaps exceeds the 4-byte offset field and [struct.pack] raises
    in the index loop, although no width or height exceeds 255. *)
Lemma offset_overflow_counterexample :
  Forall (λ g, tg_width g ≤ 255 ∧ tg_height g ≤ 255) (solid_glyph <$> seqZ 0x20 600000) ∧
  render_codepoints (H := solid_rasterizer) 255 255 (get_font_codepoints many_tables) [] 0 0
  = Ok (solid_glyph <$> seqZ 0x20 600000, 255, 255) ∧
  ∃ f, create_font_file (H := solid_rasterizer) many_tables 255
       = Run (Raised StructError) (Some f).
Proof.
  split.
  - apply Forall_fmap, Forall_forall. intros x _. cbn. lia.
  - apply (offset_overflow_at 600000); lia.
Qed.

(** ** The space glyph *)

(** C1 (the code at the space exception): for every size, an empty ink box
    at code point 0x20 makes [render_glyph] return width [size / 3], height
    [size] and the one-byte bitmap [bytes(1)], whatever [ceil(w * h / 8)]
    is. *)
Theorem space_glyph_is_one_byte {font image : Type} `{Rasterizer font image}
    (fnt : font) (size x0 y0 x1 y1 : Z) :
  font_getbbox fnt 0x20 = Getbbox x0 y0 x1 y1 → x1 ≤ x0 ∨ y1 ≤ y0 →
  render_glyph fnt 0x20 size = Ok (Some [0], size `div` 3, size).
Proof.
  intros Hbox Hempty. unfold render_glyph.
  rewrite decide_True by lia. rewrite Hbox.
  rewrite decide_True by done. by rewrite decide_True.
Qed.

Lemma space_glyph_is_one_byte_witness :
  render_glyph (12 : Z) 0x20 12 = Ok (Some [0], 4, 12) ∧
  Z.of_nat (length [0]) ≠ (4 * 12 + 7) `div` 8.
Proof.
  split; [|vm_compute; discriminate].
  apply (space_glyph_is_one_byte (12 : Z) 12 0 0 0 0); [reflexivity|left; lia].
Defined.

(** ** Malformed glyph blocks *)

Lemma parse_font_lines (lines : list string) (kinds : list font_line)
    (rest : list string) (properties : gmap string Z) (glyphs : list bdf_glyph) :
  font_lines lines kinds →
  parse_lines (lines ++ rest) ScanningFont properties glyphs
  = parse_lines rest ScanningFont (foldl (flip apply_font_line) properties kinds) glyphs.
Proof.
  intros Hl. revert properties.
  induction Hl as [|raw fl lines kinds [Hraw Hfl] _ IH]; intros properties; [done|].
  cbn [app parse_lines foldl]. rewrite Hraw, bind_Ok.
  destruct fl; try done; apply IH.
Qed.

Lemma parse_glyph_lines (lines : list string) (kinds : list glyph_line)
    (rest : list string) (g : glyph_scan) (properties : gmap string Z)
    (glyphs : list bdf_glyph) :
  glyph_lines lines kinds →
  parse_lines (lines ++ rest) (ScanningGlyph g) properties glyphs
  = parse_lines rest (ScanningGlyph (foldl (flip apply_glyph_line) g kinds))
      properties glyphs.
Proof.
  intros Hl. revert g.
  induction Hl as [|raw gl lines kinds [Hraw Hgl] _ IH]; intros g; [done|].
  cbn [app parse_lines foldl]. rewrite Hraw, bind_Ok.
  destruct gl; try done; apply IH.
Qed.

Lemma parse_bitmap_lines (lines : list string) (kinds : list bitmap_line)
    (rest : list string) (g : glyph_scan) (properties : gmap string Z)
    (glyphs : list bdf_glyph) :
  bitmap_lines lines kinds →
  parse_lines (lines ++ rest) (ScanningBitmap g) properties glyphs
  = parse_lines rest (ScanningBitmap (foldl (flip apply_bitmap_line) g kinds))
      properties glyphs.
Proof.
  intros Hl. revert g.
  induction Hl as [|raw bl lines kinds [Hraw Hbl] _ IH]; intros g; [done|].
  cbn [app parse_lines foldl]. rewrite Hraw, bind_Ok.
  destruct bl; try done; apply IH.
Qed.

Lemma glyph_lines_keep_rows (kinds : list glyph_line) (g : glyph_scan) :
  gs_bitmap_rows (foldl (flip apply_glyph_line) g kinds) = gs_bitmap_rows g.
Proof.
  revert g. induction kinds as [|gl kinds IH]; intros g; [done|].
  cbn [foldl]. rewrite IH. by destruct gl.
Qed.

Lemma startswith_head (p c : ascii) (prefix s : string) :
  startswith (String p prefix) (String c s) = true → p = c.
Proof. cbn. intros [Hc _]%andb_true_iff. by apply bool_decide_eq_true in Hc. Qed.

Lemma startswith_head_ne (p c : ascii) (prefix s : string) :
  p ≠ c → startswith (String p prefix) (String c s) = false.
Proof. intros Hne. cbn. by rewrite bool_decide_eq_false_2. Qed.

(** A STARTCHAR line met inside the glyph loop is no glyph property. *)
Lemma start_char_in_glyph (raw : string) :
  read_font_line raw = Ok StartChar → read_glyph_line raw = Ok OtherGlyphLine.
Proof.
  unfold read_font_line, read_glyph_line.
  destruct (startswith "FONTBOUNDINGBOX " (strip raw)) eqn:H1.
  { intros Hb. repeat (apply bind_inv in Hb as (? & _ & Hb)). done. }
  destruct (startswith "FONT_ASCENT " (strip raw)) eqn:H2.
  { intros Hb. repeat (apply bind_inv in Hb as (? & _ & Hb)). done. }
  destruct (startswith "FONT_DESCENT " (strip raw)) eqn:H3.
  { intros Hb. repeat (apply bind_inv in Hb as (? & _ & Hb)). done. }
  destruct (startswith "CHARS " (strip raw)) eqn:H4.
  { intros Hb. repeat (apply bind_inv in Hb as (? & _ & Hb)). done. }
  destruct (startswith "STARTCHAR " (strip raw)) eqn:H5; [|done].
  intros _. destruct (strip raw) as [|c line]; [done|].
  apply startswith_head in H5 as <-.
  rewrite !startswith_head_ne by done.
  by rewrite decide_False.
Qed.

Lemma parse_block_in_glyph (lines rest : list string) (g g0 : glyph_scan)
    (properties : gmap string Z) (glyphs : list bdf_glyph) :
  well_formed_block lines g → gs_bitmap_rows g0 = [] →
  parse_lines (lines ++ rest) (ScanningGlyph g0) properties glyphs
  = parse_lines rest ScanningFont properties (close_glyph g glyphs).
Proof.
  intros (start & header & marker & rows & endchar & hkinds & rkinds & hdr
          & -> & Hstart & Hhdr & Hfull & Hmarker & Hrows & Hend & ->) Hg0.
  cbn [app parse_lines].
  rewrite (start_char_in_glyph _ Hstart), bind_Ok. cbn [apply_glyph_line].
  rewrite <- app_assoc, (parse_glyph_lines _ _ _ _ _ _ Hhdr), (Hfull _ Hg0).
  cbn [app parse_lines]. rewrite Hmarker, bind_Ok.
  rewrite <- app_assoc, (parse_bitmap_lines _ _ _ _ _ _ Hrows).
  cbn [app parse_lines]. by rewrite Hend, bind_Ok.
Qed.

Lemma parse_block (lines rest : list string) (g : glyph_scan)
    (properties : gmap string Z) (glyphs : list bdf_glyph) :
  well_formed_block lines g →
  parse_lines (lines ++ rest) ScanningFont properties glyphs
  = parse_lines rest ScanningFont properties (close_glyph g glyphs).
Proof.
  intros (start & header & marker & rows & endchar & hkinds & rkinds & hdr
          & -> & Hstart & Hhdr & Hfull & Hmarker & Hrows & Hend & ->).
  cbn [app parse_lines]. rewrite Hstart, bind_Ok.
  rewrite <- app_assoc, (parse_glyph_lines _ _ _ _ _ _ Hhdr), (Hfull glyph_scan_init eq_refl).
  cbn [app parse_lines]. rewrite Hmarker, bind_Ok.
  rewrite <- app_assoc, (parse_bitmap_lines _ _ _ _ _ _ Hrows).
  cbn [app parse_lines]. by rewrite Hend, bind_Ok.
Qed.

Lemma parse_blocks (blocks : list (list string)) (gs : list glyph_scan)
    (rest : list string) (properties : gmap string Z) (glyphs : list bdf_glyph) :
  Forall2 well_formed_block blocks gs →
  parse_lines (concat blocks ++ rest) ScanningFont properties glyphs
  = parse_lines rest ScanningFont properties (foldl (flip close_glyph) glyphs gs).
Proof.
  intros Hb. revert glyphs.
  induction Hb as [|lines g blocks gs Hwf _ IH]; intros glyphs; [done|].
  cbn [concat foldl]. rewrite <- app_assoc, (parse_block _ _ _ _ _ Hwf). apply IH.
Qed.

(** *** Reading one line *)

Lemma lstrip_head (s : string) :
  lstrip s = EmptyString ∨ ∃ c rest, lstrip s = String c rest ∧ py_isspace c = false.
Proof.
  induction s as [|c s IH]; cbn; [by left|].
  destruct (py_isspace c) eqn:Hc; [done|]. right. by exists c, s.
Qed.

Lemma ends_nonspace_rev_app (s acc : string) :
  acc ≠ EmptyString → ends_nonspace (String.rev_app s acc) = ends_nonspace acc.
Proof.
  revert acc. induction s as [|c s IH]; intros acc Hacc; cbn; [done|].
  rewrite IH by done. cbn. by destruct acc.
Qed.

Lemma strip_ends_nonspace (raw : string) :
  strip raw = EmptyString ∨ ends_nonspace (strip raw) = true.
Proof.
  unfold strip.
  destruct (lstrip_head (String.rev (lstrip raw))) as [->|(c & rest & -> & Hc)];
    [by left|right].
  unfold String.rev. cbn. rewrite ends_nonspace_rev_app by done. cbn. by rewrite Hc.
Qed.

Lemma split_from_nonempty (word s : string) :
  ends_nonspace s = true → split_from word s ≠ [].
Proof.
  revert word. induction s as [|c s IH]; intros word Hs; [done|]. cbn.
  destruct (py_isspace c) eqn:Hc.
  - destruct s as [|c' s']; [cbn in Hs; by rewrite Hc in Hs|].
    intros Happ. apply app_eq_nil in Happ as [_ Happ]. by eapply IH.
  - destruct s as [|c' s'].
    + cbn. by rewrite decide_False.
    + by apply IH.
Qed.

Lemma startswith_app (p s : string) :
  startswith p s = true → ∃ tail, s = (p +:+ tail)%string.
Proof.
  revert s. induction p as [|c p IH]; intros s Hs; [by exists s|].
  destruct s as [|c' s]; [done|]. cbn in Hs.
  apply andb_true_iff in Hs as [Hc Hs]. apply bool_decide_eq_true in Hc as <-.
  destruct (IH s Hs) as [tail ->]. by exists tail.
Qed.

Lemma split_from_keyword (kw word tail : string) :
  no_space kw = true → kw ≠ EmptyString ∨ word ≠ EmptyString →
  ∃ w0, split_from word (kw +:+ String " " tail)%string = w0 :: split_from EmptyString tail.
Proof.
  revert word. induction kw as [|c kw IH]; intros word Hkw Hne.
  - destruct Hne as [?|Hword]; [done|].
    change (EmptyString +:+ String " " tail)%string with (String " " tail).
    cbn [split_from].
    assert (py_isspace " " = true) as -> by (vm_compute; reflexivity).
    rewrite decide_False by done. by eexists.
  - cbn in Hkw. apply andb_true_iff in Hkw as [Hc Hkw]. apply negb_true_iff in Hc.
    change (String c kw +:+ String " " tail)%string
      with (String c (kw +:+ String " " tail)%string).
    cbn [split_from]. rewrite Hc. apply IH; [done|by right].
Qed.

Lemma ends_nonspace_keyword (kw tail : string) :
  ends_nonspace (kw +:+ String " " tail)%string = true → ends_nonspace tail = true.
Proof.
  induction kw as [|c kw IH].
  - change (EmptyString +:+ String " " tail)%string with (String " " tail).
    cbn [ends_nonspace]. by destruct tail.
  - change (String c kw +:+ String " " tail)%string
      with (String c (kw +:+ String " " tail)%string).
    cbn [ends_nonspace].
    destruct (kw +:+ String " " tail)%string eqn:Hk; [destruct kw; inversion Hk|].
    done.
Qed.

(** A line that starts with a keyword and a space has, once stripped, at
    least one more word: [split()[1]] exists. *)
Lemma second_word (kw raw : string) :
  no_space kw = true → kw ≠ EmptyString →
  startswith (kw +:+ " ")%string (strip raw) = true →
  ∃ w0 w1 rest, split (strip raw) = w0 :: w1 :: rest.
Proof.
  intros Hkw Hne Hstart.
  destruct (startswith_app _ _ Hstart) as [tail Htail].
  assert (Hline : strip raw = (kw +:+ String " " tail)%string).
  { rewrite Htail. clear. induction kw as [|c kw IH]; [done|].
    change (String c (kw +:+ " ") +:+ tail = String c (kw +:+ String " " tail))%string.
    change (String c ((kw +:+ " ") +:+ tail) = String c (kw +:+ String " " tail))%string.
    by rewrite IH. }
  destruct (strip_ends_nonspace raw) as [Hnil|Hend].
  { rewrite Hline in Hnil. by destruct kw. }
  rewrite Hline in Hend |- *. apply ends_nonspace_keyword in Hend.
  unfold split. destruct (split_from_keyword kw EmptyString tail Hkw (or_introl Hne))
    as [w0 ->].
  pose proof (split_from_nonempty EmptyString tail Hend) as Hrest.
  destruct (split_from EmptyString tail) as [|w1 rest]; [done|]. by exists w0, w1, rest.
Qed.

Lemma py_int_error (base : Z) (s : string) (e : exn) :
  py_int base s = Raise e → e = ValueError.
Proof. unfold py_int. intros Hp. repeat case_match; congruence. Qed.

Lemma int_field_error (parts : list string) (k : Z) (e : exn) :
  int_field parts k = Raise e → e = ValueError ∨ e = IndexError.
Proof.
  unfold int_field, py_getitem, py_index. intros Hf.
  repeat case_decide; cbn in Hf;
    try (destruct (parts !! _); cbn in Hf; [left; by eapply py_int_error|right; congruence]).
  right. congruence.
Qed.

Lemma int_field_1_error (kw raw : string) (e : exn) :
  no_space kw = true → kw ≠ EmptyString →
  startswith (kw +:+ " ")%string (strip raw) = true →
  int_field (split (strip raw)) 1 = Raise e → e = ValueError.
Proof.
  intros Hkw Hne Hstart. destruct (second_word kw raw Hkw Hne Hstart) as (w0 & w1 & rest & ->).
  unfold int_field. rewrite (py_getitem_in_range _ 1 w1) by done. rewrite bind_Ok.
  apply py_int_error.
Qed.

Lemma four_fields_error (parts : list string) {A} (k : Z → Z → Z → Z → A) (e : exn) :
  (w ← int_field parts 1; h ← int_field parts 2; x ← int_field parts 3;
   y ← int_field parts 4; Ok (k w h x y)) = Raise e →
  e = ValueError ∨ e = IndexError.
Proof.
  intros Hb.
  repeat (apply bind_Raise_inv in Hb as [Hb|(? & _ & Hb)];
          [by apply int_field_error in Hb|]).
  done.
Qed.

Lemma one_field_error (kw raw : string) {A} (k : Z → A) (e : exn) :
  no_space kw = true → kw ≠ EmptyString →
  startswith (kw +:+ " ")%string (strip raw) = true →
  (v ← int_field (split (strip raw)) 1; Ok (k v)) = Raise e → e = ValueError.
Proof.
  intros Hkw Hne Hstart Hb.
  apply bind_Raise_inv in Hb as [Hb|(? & _ & Hb)]; [|done].
  by eapply int_field_1_error.
Qed.

Lemma read_font_line_error (raw : string) (e : exn) :
  read_font_line raw = Raise e →
  e = ValueError ∨
  e = IndexError ∧ startswith "FONTBOUNDINGBOX " (strip raw) = true.
Proof.
  unfold read_font_line.
  destruct (startswith "FONTBOUNDINGBOX " (strip raw)) eqn:H1.
  { intros [->| ->]%four_fields_error; [by left|by right]. }
  destruct (startswith "FONT_ASCENT " (strip raw)) eqn:H2.
  { intros ->%(one_field_error "FONT_ASCENT"); by try left. }
  destruct (startswith "FONT_DESCENT " (strip raw)) eqn:H3.
  { intros ->%(one_field_error "FONT_DESCENT"); by try left. }
  destruct (startswith "CHARS " (strip raw)) eqn:H4.
  { intros ->%(one_field_error "CHARS"); by try left. }
  by destruct (startswith "STARTCHAR " (strip raw)).
Qed.

Lemma read_glyph_line_error (raw : string) (e : exn) :
  read_glyph_line raw = Raise e →
  e = ValueError ∨ e = IndexError ∧ startswith "BBX " (strip raw) = true.
Proof.
  unfold read_glyph_line.
  destruct (startswith "ENCODING " (strip raw)) eqn:H1.
  { intros ->%(one_field_error "ENCODING"); by try left. }
  destruct (startswith "DWIDTH " (strip raw)) eqn:H2.
  { intros ->%(one_field_error "DWIDTH"); by try left. }
  destruct (startswith "BBX " (strip raw)) eqn:H3.
  { intros [->| ->]%four_fields_error; [by left|by right]. }
  by case_decide.
Qed.

Lemma read_bitmap_line_error (raw : string) (e : exn) :
  read_bitmap_line raw = Raise e → e = ValueError.
Proof.
  unfold read_bitmap_line. repeat case_decide; try done.
  intros [Hb|(? & _ & Hb)]%bind_Raise_inv; [by eapply py_int_error|done].
Qed.

(** *** Reading a font source *)

Lemma close_glyphs_bind (gs : list glyph_scan) (glyphs : list bdf_glyph) :
  foldl (flip close_glyph) glyphs gs = glyphs ++ (gs ≫= λ g, close_glyph g []).
Proof.
  revert glyphs. induction gs as [|g gs IH]; intros glyphs; cbn.
  - by rewrite app_nil_r.
  - rewrite IH, app_assoc. f_equal. unfold close_glyph.
    destruct (gs_encoding g); [case_decide|]; by rewrite ?app_nil_r.
Qed.

Lemma parse_font_source (lines : list string) (kinds : list font_line)
    (gs : list glyph_scan) (rest : list string) (properties : gmap string Z)
    (glyphs : list bdf_glyph) :
  font_source lines kinds gs →
  parse_lines (lines ++ rest) ScanningFont properties glyphs
  = parse_lines rest ScanningFont (foldl (flip apply_font_line) properties kinds)
      (foldl (flip close_glyph) glyphs gs).
Proof.
  intros Hsrc. revert properties glyphs.
  induction Hsrc as [|raw fl lines kinds gs Hraw Hfl _ IH|block g lines kinds gs Hwf _ IH];
    intros properties glyphs; [done| |].
  - cbn [app parse_lines foldl]. rewrite Hraw, bind_Ok.
    destruct fl; try done; apply IH.
  - rewrite <- app_assoc, (parse_block _ _ _ _ _ Hwf). cbn [foldl]. apply IH.
Qed.

(** Once a line has raised, nothing that follows is read. *)
Lemma parse_lines_abort (lines rest : list string) (st : scan_state)
    (properties : gmap string Z) (glyphs : list bdf_glyph) (e : exn) :
  parse_lines lines st properties glyphs = Raise e →
  parse_lines (lines ++ rest) st properties glyphs = Raise e.
Proof.
  revert st properties glyphs.
  induction lines as [|raw lines IH]; intros st properties glyphs Hrun.
  { by destruct st. }
  destruct st as [|g|g]; cbn [app parse_lines] in Hrun |- *;
    (apply bind_Raise_inv in Hrun as [->|(k & -> & Hrun)]; [done|]);
    rewrite bind_Ok; destruct k; by apply IH.
Qed.

(** C3 (amended): take a font source made of font-level lines and
    well-formed glyph blocks in any order, then a STARTCHAR block without a
    BITMAP marker (its other lines readable), then a well-formed glyph
    block, then again font-level lines and well-formed glyph blocks in any
    order. The block without BITMAP leaves no glyph record of its own, and
    every well-formed block before and after it contributes its own record,
    kept when its encoding is not negative. A block with a line that cannot
    be read is not skipped: the parse raises there whatever follows,
    ValueError for a value that is no number or a row that is not
    hexadecimal, IndexError only for a BBX line; and a parse that has raised
    on the first lines of a source raises on the whole source. *)
Theorem block_without_bitmap_is_skipped
    (before : list string) (bkinds : list font_line) (bgs : list glyph_scan)
    (start : string) (body : list string) (gkinds : list glyph_line) :
  font_source before bkinds bgs →
  read_font_line start = Ok StartChar → glyph_lines body gkinds →
  (∀ first g1 after akinds ags,
     well_formed_block first g1 → font_source after akinds ags →
     parse_bdf (before ++ (start :: body) ++ first ++ after)
     = Ok (foldl (flip apply_font_line) ∅ (bkinds ++ akinds),
           (bgs ++ g1 :: ags) ≫= λ g, close_glyph g [])) ∧
  (∀ bad rest e,
     read_glyph_line bad = Raise e →
     parse_bdf (before ++ (start :: body) ++ bad :: rest) = Raise e ∧
     (e = ValueError ∨ e = IndexError ∧ startswith "BBX " (strip bad) = true)) ∧
  (∀ marker rows rkinds bad rest e,
     read_glyph_line marker = Ok BitmapMarker → bitmap_lines rows rkinds →
     read_bitmap_line bad = Raise e →
     parse_bdf (before ++ (start :: body) ++ marker :: rows ++ bad :: rest) = Raise e ∧
     e = ValueError) ∧
  (∀ lines rest e, parse_bdf lines = Raise e → parse_bdf (lines ++ rest) = Raise e).
Proof.
  intros Hbefore Hstart Hbody. unfold parse_bdf.
  assert (Hblock : ∀ rest,
    parse_lines (before ++ (start :: body) ++ rest) ScanningFont ∅ []
    = parse_lines rest
        (ScanningGlyph (foldl (flip apply_glyph_line) glyph_scan_init gkinds))
        (foldl (flip apply_font_line) ∅ bkinds) (foldl (flip close_glyph) [] bgs)).
  { intros rest. rewrite (parse_font_source _ _ _ _ _ _ Hbefore).
    cbn [app parse_lines]. rewrite Hstart, bind_Ok.
    apply (parse_glyph_lines _ _ _ _ _ _ Hbody). }
  split; [|split; [|split]].
  - intros first g1 after akinds ags Hfirst Hafter. rewrite Hblock.
    rewrite (parse_block_in_glyph _ _ _ _ _ _ Hfirst)
      by by rewrite glyph_lines_keep_rows.
    rewrite <- (app_nil_r after), (parse_font_source _ _ _ _ _ _ Hafter).
    cbn [parse_lines]. rewrite foldl_app. do 2 f_equal.
    pose proof (close_glyphs_bind (bgs ++ g1 :: ags) []) as Hbind.
    cbn [app] in Hbind. rewrite <- Hbind. by rewrite foldl_app.
  - intros bad rest e Hbad. split; [|by apply read_glyph_line_error].
    rewrite Hblock. cbn [parse_lines]. by rewrite Hbad.
  - intros marker rows rkinds bad rest e Hmarker Hrows Hbad.
    split; [|by eapply read_bitmap_line_error].
    rewrite Hblock. cbn [parse_lines]. rewrite Hmarker, bind_Ok.
    rewrite (parse_bitmap_lines _ _ _ _ _ _ Hrows).
    cbn [parse_lines]. by rewrite Hbad.
  - intros lines rest e. apply parse_lines_abort.
Qed.

Lemma block_without_bitmap_is_skipped_witness :
  parse_bdf font_missing_bitmap
  = Ok ({[ "fbb_width" := 5; "fbb_height" := 7; "fbb_x" := 0; "fbb_y" := -1 ]},
        [BdfGlyph 65 6 5 2 0 0 [0xF8; 0x88]; BdfGlyph 67 8 5 1 0 0 [0x70]]) ∧
  parse_bdf font_bad_encoding = Raise ValueError.
Proof.
  assert (Hbox : font_source ["FONTBOUNDINGBOX 5 7 0 -1"] [FontBoundingBox 5 7 0 (-1)] []).
  { apply font_source_line; [reflexivity|discriminate|constructor]. }
  split.
  - destruct (block_without_bitmap_is_skipped
                ["FONTBOUNDINGBOX 5 7 0 -1";
                 "STARTCHAR A"; "ENCODING 65"; "DWIDTH 6 0"; "BBX 5 2 0 0"; "BITMAP"; "F8";
                 "88"; "ENDCHAR"]
                [FontBoundingBox 5 7 0 (-1)] [GlyphScan (Some 65) 6 5 2 0 0 [0xF8; 0x88]]
                "STARTCHAR B" ["ENCODING 66"; "DWIDTH 7 0"; "BBX 5 3 0 0"; "ENDCHAR"]
                [Encoding 66; DWidth 7; Bbx 5 3 0 0; OtherGlyphLine]) as [Hskip _].
    + apply font_source_line; [reflexivity|discriminate|].
      apply (font_source_block
               ["STARTCHAR A"; "ENCODING 65"; "DWIDTH 6 0"; "BBX 5 2 0 0"; "BITMAP"; "F8";
                "88"; "ENDCHAR"] _ [] [] []); [|constructor].
      exists "STARTCHAR A", ["ENCODING 65"; "DWIDTH 6 0"; "BBX 5 2 0 0"], "BITMAP",
        ["F8"; "88"], "ENDCHAR", [Encoding 65; DWidth 6; Bbx 5 2 0 0], [Row 0xF8; Row 0x88],
        (GlyphScan (Some 65) 6 5 2 0 0 []).
      split; [reflexivity|]. split; [reflexivity|].
      split; [repeat constructor; discriminate|].
      split; [intros g0 Hg0; cbn; rewrite Hg0; reflexivity|].
      split; [reflexivity|]. split; [repeat constructor; discriminate|].
      split; reflexivity.
    + reflexivity.
    + repeat constructor; discriminate.
    + apply (Hskip ["STARTCHAR C"; "ENCODING 67"; "DWIDTH 8 0"; "BBX 5 1 0 0"; "BITMAP"; "70";
                    "ENDCHAR"]
               (GlyphScan (Some 67) 8 5 1 0 0 [0x70]) ["ENDFONT"] [OtherFontLine] []).
      * exists "STARTCHAR C", ["ENCODING 67"; "DWIDTH 8 0"; "BBX 5 1 0 0"], "BITMAP", ["70"],
          "ENDCHAR", [Encoding 67; DWidth 8; Bbx 5 1 0 0], [Row 0x70],
          (GlyphScan (Some 67) 8 5 1 0 0 []).
        split; [reflexivity|]. split; [reflexivity|].
        split; [repeat constructor; discriminate|].
        split; [intros g0 Hg0; cbn; rewrite Hg0; reflexivity|].
        split; [reflexivity|]. split; [repeat constructor; discriminate|].
        split; reflexivity.
      * apply font_source_line; [reflexivity|discriminate|constructor].
  - destruct (block_without_bitmap_is_skipped
                ["FONTBOUNDINGBOX 5 7 0 -1"] [FontBoundingBox 5 7 0 (-1)] []
                "STARTCHAR A" [] [] Hbox eq_refl (Forall2_nil_2 _ _ _)) as (_ & Hraise & _).
    apply (Hraise "ENCODING x41"
             ["DWIDTH 6 0"; "BBX 5 2 0 0"; "BITMAP"; "F8"; "88"; "ENDCHAR";
              "STARTCHAR B"; "ENCODING 66"; "DWIDTH 7 0"; "BBX 5 1 0 0"; "BITMAP"; "70";
              "ENDCHAR"; "ENDFONT"] ValueError).
    reflexivity.
Defined.

(** C3 as stated fails: a glyph block whose ENCODING is no number makes
    [int] raise ValueError, which ends the parse; the well-formed block
    after it yields no record. *)
Lemma bad_encoding_counterexample :
  parse_bdf font_bad_encoding = Raise ValueError.
Proof. reflexivity. Qed.

(** ** Fonts without glyphs *)

(** C2 (the code on a font without glyphs): the fixed-format converter
    writes a 16-byte file whose glyph count is 0. *)
Theorem empty_font_is_written :
  create_fnt_file font_without_glyphs None None
  = Ok (FntFile [84; 70; 78; 84; 1; 5; 7; 0; 0; 0; 0; 0; 16; 0; 0; 0] [] []) ∧
  read_uint 4 [84; 70; 78; 84; 1; 5; 7; 0; 0; 0; 0; 0; 16; 0; 0; 0] 8 = 0.
Proof. split; reflexivity. Qed.

Section empty_result.
Context {font image : Type} `{Rasterizer font image}.

(** When no code point renders, [create_font_file] returns [False] before
    the output path is opened, and the tool exits with status 1. *)
Lemma no_glyphs_no_file (tables : list cmap_table) (size : Z) (fnt : font)
    (max_width max_height : Z) :
  truetype size = Some fnt →
  render_codepoints fnt size (get_font_codepoints tables) [] 0 0
    = Ok ([], max_width, max_height) →
  create_font_file tables size = Run (Returned false) None ∧
  exit_code (create_font_file tables size) = 1.
Proof.
  intros Hfnt Hrender. unfold create_font_file. by rewrite Hfnt, Hrender.
Qed.

End empty_result.

Lemma no_glyphs_no_file_witness :
  create_font_file [CmapTable true [10; 200]; CmapTable false [67]] 4
  = Run (Returned false) None.
Proof.
  apply (no_glyphs_no_file (H := block_rasterizer)
           [CmapTable true [10; 200]; CmapTable false [67]] 4 4 0 0);
    vm_compute; reflexivity.
Defined.

(** * Further properties of the converters *)

(** ** Parsing *)

(** A font made of font-level lines and well-formed glyph blocks parses to
    the properties of its font-level lines and, in source order, one record
    for each block whose encoding is not negative. *)
Theorem parse_bdf_well_formed_font
    (preamble : list string) (pkinds : list font_line)
    (blocks : list (list string)) (gs : list glyph_scan)
    (trailer : list string) (tkinds : list font_line) :
  font_lines preamble pkinds → Forall2 well_formed_block blocks gs →
  font_lines trailer tkinds →
  parse_bdf (preamble ++ concat blocks ++ trailer)
  = Ok (foldl (flip apply_font_line) ∅ (pkinds ++ tkinds),
        gs ≫= λ g, close_glyph g []).
Proof.
  intros Hpre Hblocks Htrail. unfold parse_bdf.
  rewrite (parse_font_lines _ _ _ _ _ Hpre), (parse_blocks _ _ _ _ _ Hblocks).
  rewrite <- (app_nil_r trailer), (parse_font_lines _ _ _ _ _ Htrail).
  cbn [parse_lines]. by rewrite foldl_app, close_glyphs_bind.
Qed.

Lemma parse_bdf_well_formed_font_witness :
  parse_bdf font_two_blocks
  = Ok ({[ "ascent" := 7 ]}, [BdfGlyph 65 6 5 2 0 0 [0xF8; 0x88]]).
Proof.
  apply (parse_bdf_well_formed_font
           ["STARTFONT 2.1"; "FONT_ASCENT 7"] [OtherFontLine; FontAscent 7]
           [["STARTCHAR A"; "ENCODING 65"; "DWIDTH 6 0"; "BBX 5 2 0 0"; "BITMAP"; "F8"; "88";
             "ENDCHAR"];
            ["STARTCHAR none"; "ENCODING -1"; "DWIDTH 6 0"; "BBX 5 1 0 0"; "BITMAP"; "70";
             "ENDCHAR"]]
           [GlyphScan (Some 65) 6 5 2 0 0 [0xF8; 0x88];
            GlyphScan (Some (-1)) 6 5 1 0 0 [0x70]]
           ["ENDFONT"] [OtherFontLine]).
  - repeat constructor; discriminate.
  - constructor; [|constructor; [|constructor]].
    + exists "STARTCHAR A", ["ENCODING 65"; "DWIDTH 6 0"; "BBX 5 2 0 0"], "BITMAP",
        ["F8"; "88"], "ENDCHAR", [Encoding 65; DWidth 6; Bbx 5 2 0 0], [Row 0xF8; Row 0x88],
        (GlyphScan (Some 65) 6 5 2 0 0 []).
      split; [reflexivity|]. split; [reflexivity|].
      split; [repeat constructor; discriminate|].
      split; [intros g0 Hg0; cbn; rewrite Hg0; reflexivity|].
      split; [reflexivity|]. split; [repeat constructor; discriminate|].
      split; reflexivity.
    + exists "STARTCHAR none", ["ENCODING -1"; "DWIDTH 6 0"; "BBX 5 1 0 0"], "BITMAP",
        ["70"], "ENDCHAR", [Encoding (-1); DWidth 6; Bbx 5 1 0 0], [Row 0x70],
        (GlyphScan (Some (-1)) 6 5 1 0 0 []).
      split; [reflexivity|]. split; [reflexivity|].
      split; [repeat constructor; discriminate|].
      split; [intros g0 Hg0; cbn; rewrite Hg0; reflexivity|].
      split; [reflexivity|]. split; [repeat constructor; discriminate|].
      split; reflexivity.
  - repeat constructor; discriminate.
Defined.





(** A glyph block that the end of the file cuts short, after any
    font-level lines and complete glyph blocks, is still recorded: without a
    BITMAP marker with an empty bitmap, after it with the rows read so far. *)
Theorem parse_bdf_unterminated_glyph
    (before : list string) (bkinds : list font_line) (bgs : list glyph_scan)
    (start : string) (body : list string) (gkinds : list glyph_line) :
  font_source before bkinds bgs → read_font_line start = Ok StartChar →
  glyph_lines body gkinds →
  let g := foldl (flip apply_glyph_line) glyph_scan_init gkinds in
  parse_bdf (before ++ start :: body)
  = Ok (foldl (flip apply_font_line) ∅ bkinds,
        (bgs ++ [g]) ≫= λ g', close_glyph g' []) ∧
  ∀ marker rows rkinds,
    read_glyph_line marker = Ok BitmapMarker → bitmap_lines rows rkinds →
    parse_bdf (before ++ start :: body ++ marker :: rows)
    = Ok (foldl (flip apply_font_line) ∅ bkinds,
          (bgs ++ [foldl (flip apply_bitmap_line) g rkinds]) ≫= λ g', close_glyph g' []).
Proof.
  intros Hbefore Hstart Hbody g. unfold parse_bdf.
  assert (Hend : ∀ g', close_glyph g' (foldl (flip close_glyph) [] bgs)
                       = (bgs ++ [g']) ≫= λ g'', close_glyph g'' []).
  { intros g'. pose proof (close_glyphs_bind (bgs ++ [g']) []) as Hbind.
    cbn [app] in Hbind. rewrite <- Hbind. by rewrite foldl_app. }
  split.
  - rewrite (parse_font_source _ _ _ _ _ _ Hbefore). cbn [parse_lines].
    rewrite Hstart, bind_Ok. rewrite <- (app_nil_r body).
    rewrite (parse_glyph_lines _ _ _ _ _ _ Hbody). cbn [parse_lines]. by rewrite Hend.
  - intros marker rows rkinds Hmarker Hrows.
    rewrite (parse_font_source _ _ _ _ _ _ Hbefore). cbn [parse_lines].
    rewrite Hstart, bind_Ok, (parse_glyph_lines _ _ _ _ _ _ Hbody).
    cbn [parse_lines]. rewrite Hmarker, bind_Ok. rewrite <- (app_nil_r rows).
    rewrite (parse_bitmap_lines _ _ _ _ _ _ Hrows). cbn [parse_lines]. by rewrite Hend.
Qed.

Lemma parse_bdf_unterminated_glyph_witness :
  parse_bdf font_cut_short
  = Ok ({[ "ascent" := 7 ]},
        [BdfGlyph 65 6 5 2 0 0 [0xF8; 0x88]; BdfGlyph 66 0 5 2 0 0 []]) ∧
  parse_bdf (font_cut_short ++ ["BITMAP"; "F8"])
  = Ok ({[ "ascent" := 7 ]},
        [BdfGlyph 65 6 5 2 0 0 [0xF8; 0x88]; BdfGlyph 66 0 5 2 0 0 [0xF8]]).
Proof.
  destruct (parse_bdf_unterminated_glyph
              ["FONT_ASCENT 7";
               "STARTCHAR A"; "ENCODING 65"; "DWIDTH 6 0"; "BBX 5 2 0 0"; "BITMAP"; "F8";
               "88"; "ENDCHAR"]
              [FontAscent 7] [GlyphScan (Some 65) 6 5 2 0 0 [0xF8; 0x88]]
              "STARTCHAR B" ["ENCODING 66"; "BBX 5 2 0 0"] [Encoding 66; Bbx 5 2 0 0])
    as [Hcut Hrows].
  - apply font_source_line; [reflexivity|discriminate|].
    apply (font_source_block
             ["STARTCHAR A"; "ENCODING 65"; "DWIDTH 6 0"; "BBX 5 2 0 0"; "BITMAP"; "F8";
              "88"; "ENDCHAR"] _ [] [] []); [|constructor].
    exists "STARTCHAR A", ["ENCODING 65"; "DWIDTH 6 0"; "BBX 5 2 0 0"], "BITMAP",
      ["F8"; "88"], "ENDCHAR", [Encoding 65; DWidth 6; Bbx 5 2 0 0], [Row 0xF8; Row 0x88],
      (GlyphScan (Some 65) 6 5 2 0 0 []).
    split; [reflexivity|]. split; [reflexivity|].
    split; [repeat constructor; discriminate|].
    split; [intros g0 Hg0; cbn; rewrite Hg0; reflexivity|].
    split; [reflexivity|]. split; [repeat constructor; discriminate|].
    split; reflexivity.
  - reflexivity.
  - repeat constructor; discriminate.
  - split; [exact Hcut|].
    apply (Hrows "BITMAP" ["F8"] [Row 0xF8]); [reflexivity|repeat constructor; discriminate].
Defined.

(** *** Errors *)

Lemma parse_lines_error (lines : list string) (st : scan_state)
    (properties : gmap string Z) (glyphs : list bdf_glyph) (e : exn) :
  parse_lines lines st properties glyphs = Raise e →
  e = ValueError ∨
  e = IndexError ∧
  ∃ raw, raw ∈ lines ∧ (startswith "FONTBOUNDINGBOX " (strip raw) = true ∨
                        startswith "BBX " (strip raw) = true).
Proof.
  revert st properties glyphs.
  induction lines as [|raw rest IH]; intros st properties glyphs Hrun.
  { by destruct st. }
  assert (Hrest : ∀ st' p' g', parse_lines rest st' p' g' = Raise e →
            e = ValueError ∨
            e = IndexError ∧
            ∃ raw', raw' ∈ raw :: rest ∧
                    (startswith "FONTBOUNDINGBOX " (strip raw') = true ∨
                     startswith "BBX " (strip raw') = true)).
  { intros st' p' g' [->|(-> & raw' & Hin & Hkw)]%IH; [by left|right].
    split; [done|]. exists raw'. split; [by right|done]. }
  destruct st as [|g|g]; cbn [parse_lines] in Hrun;
    apply bind_Raise_inv in Hrun as [Hline|(k & _ & Hrun)].
  - apply read_font_line_error in Hline as [->|[-> Hkw]]; [by left|right].
    split; [done|]. exists raw. split; [left|by left].
  - destruct k; by eapply Hrest.
  - apply read_glyph_line_error in Hline as [->|[-> Hkw]]; [by left|right].
    split; [done|]. exists raw. split; [left|by right].
  - destruct k; by eapply Hrest.
  - apply read_bitmap_line_error in Hline as ->. by left.
  - destruct k; by eapply Hrest.
Qed.

(** What can stop [parse_bdf]: ValueError, when a value is no number, or
    IndexError, and that only on a FONTBOUNDINGBOX or BBX line, which read
    four values. A FONT_ASCENT, FONT_DESCENT, CHARS, ENCODING or DWIDTH line
    always has a value to read. *)
Theorem parse_bdf_failures (lines : list string) (e : exn) :
  parse_bdf lines = Raise e →
  e = ValueError ∨
  e = IndexError ∧
  ∃ raw, raw ∈ lines ∧ (startswith "FONTBOUNDINGBOX " (strip raw) = true ∨
                        startswith "BBX " (strip raw) = true).
Proof. apply parse_lines_error. Qed.

Lemma parse_bdf_failures_witness :
  parse_bdf ["FONT_ASCENT 7"; "FONTBOUNDINGBOX 5 7"] = Raise IndexError ∧
  (IndexError = ValueError ∨
   IndexError = IndexError ∧
   ∃ raw, raw ∈ ["FONT_ASCENT 7"; "FONTBOUNDINGBOX 5 7"] ∧
          (startswith "FONTBOUNDINGBOX " (strip raw) = true ∨
           startswith "BBX " (strip raw) = true)).
Proof.
  assert (Hrun : parse_bdf ["FONT_ASCENT 7"; "FONTBOUNDINGBOX 5 7"] = Raise IndexError)
    by reflexivity.
  split; [exact Hrun|].
  exact (parse_bdf_failures ["FONT_ASCENT 7"; "FONTBOUNDINGBOX 5 7"] IndexError Hrun).
Defined.

(** ** Fixed-size bitmaps and [verify_glyph] *)

Lemma mapM_Ok {A B} (f : A → result B) (g : A → B) (l : list A) :
  (∀ x, x ∈ l → f x = Ok (g x)) → mapM f l = Ok (g <$> l).
Proof.
  induction l as [|x l IH]; intros Hf; [done|]. cbn.
  rewrite (Hf x) by left. cbn. rewrite IH; [done|]. intros y Hy. apply Hf. by right.
Qed.

Lemma land_bit_mask (b k : Z) : 0 ≤ k → truthy (Z.land b (1 ≪ k)) = Z.testbit b k.
Proof.
  intros Hk. unfold truthy.
  destruct (Z.testbit b k) eqn:Hb.
  - apply negb_true_iff, Z.eqb_neq. intros H0.
    assert (Z.testbit (Z.land b (1 ≪ k)) k = true) as Ht.
    { rewrite Z.land_spec, Hb, bit_mask_spec by done. by rewrite bool_decide_eq_true_2. }
    rewrite H0, Z.bits_0 in Ht. done.
  - apply negb_false_iff, Z.eqb_eq. apply Z.bits_inj'. intros i Hi.
    rewrite Z.land_spec, Z.bits_0, bit_mask_spec by done.
    case_bool_decide as Hik; [subst; by rewrite Hb|by rewrite andb_false_r].
Qed.

Lemma concat_lookup_cell (c : list (list Z)) (tw th y x : Z) :
  wf_canvas tw th c → 0 ≤ y < th → 0 ≤ x < tw →
  concat c !! Z.to_nat (y * tw + x) = Some (cell c y x).
Proof.
  intros [Hlen Hrows] Hy Hx.
  destruct (lookup_lt_is_Some_2 c (Z.to_nat y)) as [row Hrow]; [lia|].
  assert (Hrl : length row = Z.to_nat tw) by by eapply Forall_lookup_1 in Hrows.
  destruct (lookup_lt_is_Some_2 row (Z.to_nat x)) as [p Hp]; [lia|].
  unfold cell. rewrite decide_True by lia. rewrite Hrow. cbn. rewrite Hp. cbn.
  replace (Z.to_nat (y * tw + x)) with (Z.to_nat y * Z.to_nat tw + Z.to_nat x)%nat by nia.
  rewrite <- lookup_drop, (drop_concat_chunks c (Z.to_nat tw) (Z.to_nat y) Hrows).
  rewrite (drop_S _ _ _ Hrow). cbn [concat].
  by rewrite lookup_app_l by lia.
Qed.

Lemma shown_pixel_packed (bits bs : list Z) (j : Z) :
  packs bits bs → 0 ≤ j < Z.of_nat (length bits) →
  shown_pixel bs j = Ok (pixel_at bits j).
Proof.
  intros (Hlen & Hbytes & Hbits) Hj. unfold shown_pixel.
  assert (Hidx : 0 ≤ j `div` 8 < Z.of_nat (length bs)).
  { split; [apply Z.div_pos; lia|]. rewrite Hlen.
    apply Z.div_lt_upper_bound; [lia|].
    pose proof (Z.mul_div_le (Z.of_nat (length bits) + 7) 8 ltac:(lia)).
    pose proof (Z.mod_pos_bound (Z.of_nat (length bits) + 7) 8 ltac:(lia)).
    pose proof (Z.div_mod (Z.of_nat (length bits) + 7) 8 ltac:(lia)). lia. }
  destruct (lookup_lt_is_Some_2 bs (Z.to_nat (j `div` 8))) as [byte Hbyte]; [lia|].
  rewrite (py_getitem_in_range _ _ _ (proj1 Hidx) Hbyte), bind_Ok.
  pose proof (Z.mod_pos_bound j 8 ltac:(lia)).
  rewrite land_bit_mask by lia. rewrite <- Hbits by lia.
  unfold get_bit. by rewrite Hbyte.
Qed.

Lemma shown_rows_packed (c : list (list Z)) (tw th : Z) (bs : list Z) :
  wf_canvas tw th c → packs (flatten_canvas c) bs →
  shown_rows bs tw th
  = Ok ((λ y, (λ x, truthy (cell c y x)) <$> seqZ 0 tw) <$> seqZ 0 th).
Proof.
  intros Hwf Hpacks. unfold shown_rows.
  apply (mapM_Ok _ (λ y, (λ x, truthy (cell c y x)) <$> seqZ 0 tw)).
  intros y Hy%elem_of_seqZ.
  apply (mapM_Ok _ (λ x, truthy (cell c y x))). intros x Hx%elem_of_seqZ.
  pose proof (concat_lookup_cell c tw th y x Hwf ltac:(lia) ltac:(lia)) as Hcell.
  rewrite (shown_pixel_packed (flatten_canvas c) bs) by
    (try done; apply lookup_lt_Some in Hcell; unfold flatten_canvas; nia).
  unfold pixel_at, flatten_canvas. rewrite Hcell. cbn.
  rewrite bool_decide_eq_true_2 by nia. done.
Qed.

Lemma lookup_seqZ_fmap {A} (f : Z → A) (n i : Z) :
  0 ≤ i < n → (f <$> seqZ 0 n) !! Z.to_nat i = Some (f i).
Proof.
  intros Hi. rewrite list_lookup_fmap, lookup_seqZ_lt by lia. cbn. f_equal. f_equal. lia.
Qed.

(** Decoding a fixed-size bitmap the way [verify_glyph] does, with pixel
    [(y, x)] at bit [y * target_width + x], never leaves the bitmap and
    gives back the placed glyph: cell [(y, x)] is drawn exactly when the
    source bit that falls on it is set. *)
Lemma shown_rows_of_rendered (g : bdf_glyph)
    (target_width target_height font_ascent font_descent : Z) :
  ∃ bitmap rows,
    render_glyph_to_fixed_size g target_width target_height font_ascent font_descent
    = Ok bitmap ∧
    shown_rows bitmap target_width target_height = Ok rows ∧
    length rows = Z.to_nat target_height ∧
    Forall (λ row, length row = Z.to_nat target_width) rows ∧
    ∀ y x, 0 ≤ y < target_height → 0 ≤ x < target_width →
      rows !! Z.to_nat y ≫= (.!! Z.to_nat x)
      = Some (src_bit g (y - glyph_top_y g font_ascent) (x - glyph_left_x g)).
Proof.
  destruct (render_glyph_to_fixed_size_spec g target_width target_height
              font_ascent font_descent) as (c & bs & Hc & Hbs & Hpacks & _).
  destruct (render_canvas_spec g target_width target_height font_ascent)
    as (c' & Hc' & Hwf & Hcell).
  assert (c' = c) as -> by congruence.
  exists bs. eexists. split; [done|].
  split; [by apply shown_rows_packed|].
  split; [by rewrite length_fmap, length_seqZ|].
  split.
  { apply Forall_fmap, Forall_forall. intros y _. cbn.
    by rewrite length_fmap, length_seqZ. }
  intros y x Hy Hx. rewrite lookup_seqZ_fmap by done. cbn.
  rewrite lookup_seqZ_fmap by done. rewrite Hcell by done.
  by destruct (src_bit _ _ _).
Qed.

Lemma find_encoding_first (cp : Z) (before after : list bdf_glyph) (g : bdf_glyph) :
  Forall (λ g', encoding g' ≠ cp) before → encoding g = cp →
  find_encoding cp (before ++ g :: after) = Some g.
Proof.
  intros Hb Hg. induction Hb as [|g' before Hg' _ IH]; cbn.
  - by rewrite decide_True.
  - by rewrite decide_False.
Qed.

Lemma find_encoding_none (cp : Z) (glyphs : list bdf_glyph) :
  Forall (λ g, encoding g ≠ cp) glyphs → find_encoding cp glyphs = None.
Proof. induction 1 as [|g glyphs Hg _ IH]; cbn; [done|by rewrite decide_False]. Qed.

(** Once the source parses, [verify_glyph] does not raise. It reports a
    code point that no glyph has as not found; otherwise it draws the first
    glyph with that encoding, placed with the declared ascent or 9: cell
    [(y, x)] is filled exactly when the source bit that falls on it is
    set. *)
Theorem verify_glyph_shows_first_match (lines : list string)
    (properties : gmap string Z) (glyphs : list bdf_glyph)
    (codepoint target_width : Z) (target_height : option Z) :
  parse_bdf lines = Ok (properties, glyphs) →
  let font_ascent := default 9 (properties !! "ascent") in
  let height :=
    default (font_ascent + default 0 (properties !! "descent")) target_height in
  (Forall (λ g, encoding g ≠ codepoint) glyphs →
   verify_glyph lines codepoint target_width target_height = Ok None) ∧
  (∀ before g after,
     glyphs = before ++ g :: after →
     Forall (λ g', encoding g' ≠ codepoint) before → encoding g = codepoint →
     ∃ rows,
       verify_glyph lines codepoint target_width target_height = Ok (Some rows) ∧
       length rows = Z.to_nat height ∧
       ∀ y x, 0 ≤ y < height → 0 ≤ x < target_width →
         rows !! Z.to_nat y ≫= (.!! Z.to_nat x)
         = Some (src_bit g (y - glyph_top_y g font_ascent) (x - glyph_left_x g))).
Proof.
  intros Hparse font_ascent height. unfold verify_glyph. rewrite Hparse, bind_Ok.
  assert (Hh : match target_height with
               | Some h => h
               | None => default 9 (properties !! "ascent")
                         + default 0 (properties !! "descent")
               end = height) by by destruct target_height.
  rewrite Hh. split.
  - intros Hnone. by rewrite find_encoding_none.
  - intros before g after -> Hbefore Hg.
    rewrite (find_encoding_first _ _ _ _ Hbefore Hg).
    destruct (shown_rows_of_rendered g target_width height font_ascent
                (default 0 (properties !! "descent")))
      as (bitmap & rows & Hbitmap & Hrows & Hlen & _ & Hcells).
    exists rows. fold font_ascent. rewrite Hbitmap, bind_Ok, Hrows. done.
Qed.

Lemma verify_glyph_shows_first_match_witness :
  verify_glyph ["FONTBOUNDINGBOX 5 7 0 -1"; "STARTCHAR A"; "ENCODING 65"; "BBX 5 2 0 0";
                "BITMAP"; "F8"; "88"; "ENDCHAR"] 66 3 (Some 2) = Ok None ∧
  verify_glyph ["FONTBOUNDINGBOX 5 7 0 -1"; "STARTCHAR A"; "ENCODING 65"; "BBX 5 2 0 0";
                "BITMAP"; "F8"; "88"; "ENDCHAR"] 65 3 None
  = Ok (Some [[false; false; false]; [false; false; false]; [false; false; false];
              [false; false; false]; [false; false; false]; [false; false; false];
              [false; false; false]; [true; true; true]; [true; false; false]]).
Proof.
  destruct (verify_glyph_shows_first_match
              ["FONTBOUNDINGBOX 5 7 0 -1"; "STARTCHAR A"; "ENCODING 65"; "BBX 5 2 0 0";
               "BITMAP"; "F8"; "88"; "ENDCHAR"]
              {[ "fbb_width" := 5; "fbb_height" := 7; "fbb_x" := 0; "fbb_y" := -1 ]}
              [BdfGlyph 65 0 5 2 0 0 [0xF8; 0x88]] 66 3 (Some 2))
    as [Hnone _]; [vm_compute; reflexivity|].
  split; [apply Hnone; repeat constructor; discriminate|].
  destruct (verify_glyph_shows_first_match
              ["FONTBOUNDINGBOX 5 7 0 -1"; "STARTCHAR A"; "ENCODING 65"; "BBX 5 2 0 0";
               "BITMAP"; "F8"; "88"; "ENDCHAR"]
              {[ "fbb_width" := 5; "fbb_height" := 7; "fbb_x" := 0; "fbb_y" := -1 ]}
              [BdfGlyph 65 0 5 2 0 0 [0xF8; 0x88]] 65 3 None)
    as [_ Hsome]; [vm_compute; reflexivity|].
  destruct (Hsome [] (BdfGlyph 65 0 5 2 0 0 [0xF8; 0x88]) [] eq_refl
              (Forall_nil_2 _) eq_refl) as (rows & Hrows & _).
  pose proof Hrows as Hval. vm_compute in Hval. injection Hval as Hval.
  rewrite Hrows, <- Hval. reflexivity.
Defined.

Lemma pack_loop_zeros (i : Z) (bits buf : list Z) :
  Forall (λ b, b = 0) bits → pack_loop i bits buf = Ok buf.
Proof.
  intros Hz. revert i. induction Hz as [|b bits -> _ IH]; intros i; cbn; [done|apply IH].
Qed.

(** A glyph without a bounding box or without bitmap rows, such as the
    space, is rendered as a bitmap of the full fixed size whose bytes are
    all zero. *)
Theorem blank_glyph_bitmap_is_zero (g : bdf_glyph)
    (target_width target_height font_ascent font_descent : Z) :
  bbx_w g = 0 ∨ bbx_h g = 0 ∨ bitmap g = [] →
  render_glyph_to_fixed_size g target_width target_height font_ascent font_descent
  = Ok (replicate
          (Z.to_nat ((Z.max 0 target_width * Z.max 0 target_height + 7) `div` 8)) 0).
Proof.
  intros Hblank. unfold render_glyph_to_fixed_size, render_canvas.
  rewrite decide_True by done. rewrite bind_Ok. unfold pack_bits, flatten_canvas.
  rewrite pack_loop_zeros.
  - do 3 f_equal. unfold new_canvas.
    rewrite (length_concat_uniform _ (Z.to_nat target_width))
      by (apply Forall_replicate; by rewrite length_replicate).
    rewrite length_replicate. f_equal. nia.
  - unfold new_canvas. apply Forall_concat, Forall_replicate, Forall_replicate. done.
Qed.

Lemma blank_glyph_bitmap_is_zero_witness :
  render_glyph_to_fixed_size (BdfGlyph 32 6 0 0 0 0 []) 5 7 7 0 = Ok [0; 0; 0; 0; 0].
Proof. apply (blank_glyph_bitmap_is_zero (BdfGlyph 32 6 0 0 0 0 []) 5 7 7 0). by left. Defined.

(** The fixed-size bitmap of a glyph, for every glyph and target size:
    [ceil(width * height / 8)] bytes, bit [y * width + x] (MSB first) set
    exactly when a source bit falls on cell [(y, x)], and no bit set past
    the last cell. *)
Theorem fixed_bitmap_bits (g : bdf_glyph)
    (target_width target_height font_ascent font_descent : Z) :
  ∃ bitmap,
    render_glyph_to_fixed_size g target_width target_height font_ascent font_descent
    = Ok bitmap ∧
    Z.of_nat (length bitmap)
    = (Z.max 0 target_width * Z.max 0 target_height + 7) `div` 8 ∧
    Forall (λ byte, 0 ≤ byte < 256) bitmap ∧
    (∀ y x, 0 ≤ y < target_height → 0 ≤ x < target_width →
       get_bit bitmap (y * target_width + x)
       = src_bit g (y - glyph_top_y g font_ascent) (x - glyph_left_x g)) ∧
    (∀ i, Z.max 0 target_width * Z.max 0 target_height ≤ i → get_bit bitmap i = false).
Proof.
  destruct (render_glyph_to_fixed_size_spec g target_width target_height
              font_ascent font_descent) as (c & bs & Hc & Hbs & Hpacks & Hlen).
  destruct (render_canvas_spec g target_width target_height font_ascent)
    as (c' & Hc' & Hwf & Hcell).
  assert (c' = c) as -> by congruence.
  assert (Hbits : Z.of_nat (length (flatten_canvas c))
                  = Z.max 0 target_width * Z.max 0 target_height).
  { destruct Hwf as [Hl Hrows]. unfold flatten_canvas.
    rewrite (length_concat_uniform _ _ Hrows), Hl. nia. }
  destruct Hpacks as (Hl & Hbytes & Hget).
  exists bs. split; [done|]. split; [by rewrite Hl, Hbits|]. split; [done|]. split.
  - intros y x Hy Hx. rewrite Hget by nia. unfold pixel_at, flatten_canvas.
    rewrite (concat_lookup_cell c target_width target_height) by done. cbn.
    rewrite bool_decide_eq_true_2 by nia. rewrite Hcell by done.
    by destruct (src_bit _ _ _).
  - intros i Hi. rewrite Hget by lia. unfold pixel_at.
    rewrite lookup_ge_None_2 by lia. cbn. by rewrite andb_false_r.
Qed.

(** ** The fixed-format container *)

Lemma render_all_lookup (gs : list bdf_glyph) (tw th asc desc : Z)
    (rendered : list (Z * list Z)) (j : nat) (g : bdf_glyph) :
  render_all gs tw th asc desc = Ok rendered → gs !! j = Some g →
  ∃ bm, rendered !! j = Some (encoding g, bm) ∧
        render_glyph_to_fixed_size g tw th asc desc = Ok bm.
Proof.
  revert rendered j. induction gs as [|g0 gs IH]; intros rendered j Hrun Hj; [done|].
  cbn [render_all] in Hrun.
  apply bind_inv in Hrun as (bm0 & Hbm0 & Hrun).
  apply bind_inv in Hrun as (rest & Hrest & Hrun). injection Hrun as <-.
  destruct j as [|j]; cbn in Hj.
  - injection Hj as ->. by exists bm0.
  - by apply (IH rest j).
Qed.

Lemma build_index_Ok (bitmap_start bytes_per_glyph i : Z)
    (rendered : list (Z * list Z)) (index_data bitmap_data : list Z) :
  Forall (λ p, 0 ≤ p.1 < 65536) rendered →
  0 ≤ bitmap_start → 0 ≤ bytes_per_glyph → 0 ≤ i →
  bitmap_start + (i + Z.of_nat (length rendered)) * bytes_per_glyph < 2 ^ 32 →
  ∃ r, build_index bitmap_start bytes_per_glyph i rendered index_data bitmap_data = Ok r.
Proof.
  intros Hall Hs Hb. revert i index_data bitmap_data.
  induction Hall as [|[cp bm] rendered Hcp _ IH]; intros i idx bmd Hi Hfit; cbn.
  - by eexists.
  - cbn in Hcp. unfold pack_entry_fixed.
    rewrite (pack_uint_Ok 2 cp), bind_Ok by (change (2 ^ (8 * 2)) with 65536; lia).
    rewrite (pack_uint_Ok 4), bind_Ok by (change (2 ^ (8 * 4)) with (2 ^ 32); cbn in Hfit; nia).
    rewrite bind_Ok. apply IH; [lia|]. cbn [length] in Hfit. nia.
Qed.

Lemma NoDup_range_length (l : list Z) (lo n : Z) :
  NoDup l → Forall (λ x, lo ≤ x < lo + n) l → Z.of_nat (length l) ≤ Z.max 0 n.
Proof.
  intros Hnd Hall.
  assert (Hsub : l ⊆+ seqZ lo n).
  { apply NoDup_submseteq; [done|]. intros x Hx. apply elem_of_seqZ.
    rewrite Forall_forall in Hall. by apply Hall. }
  apply submseteq_length in Hsub. rewrite length_seqZ in Hsub. lia.
Qed.

Lemma valid_glyphs_range (glyphs : list bdf_glyph) :
  Forall (λ g, 0 < encoding g ≤ 65535) (valid_glyphs glyphs).
Proof.
  unfold valid_glyphs. rewrite py_sorted_Permutation.
  apply Forall_forall. by intros g [Hg _]%list_elem_of_filter.
Qed.

Lemma valid_glyphs_elem_of (glyphs : list bdf_glyph) (g : bdf_glyph) :
  g ∈ valid_glyphs glyphs ↔ g ∈ glyphs ∧ 0 < encoding g ≤ 65535.
Proof.
  unfold valid_glyphs. rewrite py_sorted_Permutation, list_elem_of_filter. tauto.
Qed.

(** The fixed-format encoder fails only on the canvas size: with pairwise
    distinct encodings it writes a container whenever the target width and
    height fit one byte each, and with a width or height outside [0, 255]
    [struct.pack] raises on the header, before the output file is opened. *)
Theorem fixed_encoder_fails_only_on_size (properties : gmap string Z)
    (glyphs : list bdf_glyph) (target_width target_height : option Z) :
  let width := target_width_of properties target_width in
  let height := target_height_of properties target_height in
  (NoDup (encoding <$> glyphs) → 0 ≤ width ≤ 255 → 0 ≤ height ≤ 255 →
   ∃ f, encode_fnt properties glyphs target_width target_height = Ok f) ∧
  (¬ (0 ≤ width ≤ 255 ∧ 0 ≤ height ≤ 255) →
   encode_fnt properties glyphs target_width target_height = Raise StructError).
Proof.
  intros width height. unfold encode_fnt. fold width height.
  destruct (render_all_spec (valid_glyphs glyphs) width height
              (font_ascent_of properties) (font_descent_of properties))
    as (rendered & -> & Hcps & _).
  rewrite bind_Ok. split.
  - intros Hnd Hw Hh.
    assert (Hn : Z.of_nat (length rendered) ≤ 65535).
    { rewrite <- (length_fmap fst rendered), Hcps.
      etrans; [apply (NoDup_range_length _ 1 65535)|lia].
      - by apply StronglySorted_lt_NoDup, valid_glyphs_strict.
      - apply Forall_fmap. eapply Forall_impl; [apply valid_glyphs_range|].
        intros g Hg. cbn in Hg |- *. lia. }
    destruct (pack_header_Ok FONT_MAGIC 1 width height 0 (Z.of_nat (length rendered)) 16)
      as [header ->]; [lia..|].
    rewrite bind_Ok.
    assert (Hbpg : 0 ≤ (width * height + 7) `div` 8 ≤ 8129).
    { split; [apply Z.div_pos; nia|]. apply Z.div_le_upper_bound; nia. }
    destruct (build_index_Ok (16 + Z.of_nat (length rendered) * 6)
                ((width * height + 7) `div` 8) 0 rendered [] []) as [[idx bm] ->];
      [|lia|lia|lia|nia|by eexists].
    rewrite Forall_forall. intros [cp bm] Hin. cbn.
    assert (cp ∈ encoding <$> valid_glyphs glyphs) as Hcp.
    { rewrite <- Hcps. apply list_elem_of_fmap. by exists (cp, bm). }
    apply list_elem_of_fmap in Hcp as (g & -> & Hg).
    pose proof (valid_glyphs_range glyphs) as Hr. rewrite Forall_forall in Hr.
    specialize (Hr g Hg). lia.
  - intros Hsize. rewrite pack_header_dim_error; [done|done|]. lia.
Qed.

Lemma fixed_encoder_fails_only_on_size_witness :
  (∃ f, encode_fnt two_glyphs_properties two_glyphs None None = Ok f) ∧
  encode_fnt two_glyphs_properties two_glyphs (Some 256) None = Raise StructError.
Proof.
  destruct (fixed_encoder_fails_only_on_size two_glyphs_properties two_glyphs None None)
    as [Hok _].
  destruct (fixed_encoder_fails_only_on_size two_glyphs_properties two_glyphs
              (Some 256) None) as [_ Hraise].
  split.
  - apply Hok; [apply (bool_decide_unpack _); vm_compute; reflexivity|vm_compute..];
      split; discriminate.
  - apply Hraise. vm_compute. intros [[_ Hw] _]. by apply Hw.
Defined.

(** The index of a fixed-format container lists, in ascending order, the
    encodings of the source glyphs that lie in 1..65535, each as often as
    the source has it; glyphs with encoding 0 or above 65535 are left
    out. *)
Theorem fixed_index_lists_valid_encodings (properties : gmap string Z)
    (glyphs : list bdf_glyph) (target_width target_height : option Z) (f : fnt_file) :
  encode_fnt properties glyphs target_width target_height = Ok f →
  index_codepoints 6 2 (file_bytes f)
    ≡ₚ encoding <$> filter (λ g, 0 < encoding g ≤ 65535) glyphs ∧
  StronglySorted Z.le (index_codepoints 6 2 (file_bytes f)).
Proof.
  intros Henc. rewrite (encode_fnt_codepoints _ _ _ _ _ Henc). unfold valid_glyphs. split.
  - by rewrite py_sorted_Permutation.
  - eapply StronglySorted_fmap; [|apply py_sorted_sorted]. done.
Qed.

Lemma fixed_index_lists_valid_encodings_witness :
  index_codepoints 6 2 (file_bytes two_glyphs_file) ≡ₚ [66; 65] ∧
  StronglySorted Z.le (index_codepoints 6 2 (file_bytes two_glyphs_file)).
Proof.
  apply (fixed_index_lists_valid_encodings two_glyphs_properties two_glyphs None None).
  vm_compute. reflexivity.
Defined.

(** The bytes of a fixed-format container: the magic TFNT, version 1, the
    canvas width and height, flags 0, the glyph count, the index offset 16,
    and in all 16 bytes of header plus 6 bytes of index and
    [ceil(width * height / 8)] bytes of bitmap for each kept glyph. *)
Theorem fixed_header_and_size (properties : gmap string Z)
    (glyphs : list bdf_glyph) (target_width target_height : option Z) (f : fnt_file) :
  encode_fnt properties glyphs target_width target_height = Ok f →
  let width := target_width_of properties target_width in
  let height := target_height_of properties target_height in
  let count := Z.of_nat (length (filter (λ g, 0 < encoding g ≤ 65535) glyphs)) in
  take 4 (file_bytes f) = [84; 70; 78; 84] ∧
  file_bytes f !! 4%nat = Some 1 ∧
  file_bytes f !! 5%nat = Some width ∧
  file_bytes f !! 6%nat = Some height ∧
  file_bytes f !! 7%nat = Some 0 ∧
  read_uint 4 (file_bytes f) 8 = count ∧
  read_uint 4 (file_bytes f) 12 = 16 ∧
  Z.of_nat (length (file_bytes f))
  = 16 + count * (6 + (width * height + 7) `div` 8).
Proof.
  intros Henc width height count. apply encode_fnt_parts in Henc
    as (rendered & chunks & _ & Hcps & Hbpg & Hhl & Hmagic & Hv & Hw & Hh & Hf & Hcount
        & Haux & Htw & Hth & Hidx & Hbm & Hcl & Hall & _).
  fold width height in Hbpg, Hw, Hh, Htw, Hth.
  assert (Hn : Z.of_nat (length rendered) = count).
  { unfold count. rewrite <- (length_fmap fst rendered), Hcps, length_fmap.
    unfold valid_glyphs. by rewrite py_sorted_Permutation. }
  unfold file_bytes.
  split; [by rewrite take_app_le by lia|].
  do 4 (split; [by rewrite lookup_app_l by lia|]).
  split; [by rewrite read_uint_prefix, Hcount by lia|].
  split; [by rewrite read_uint_prefix by lia|].
  rewrite !length_app, Hidx, Hbm, Hhl.
  rewrite (length_concat_uniform _ _ Hall), Hcl.
  rewrite (length_concat_uniform _ _ Hbpg), length_fmap.
  assert (0 ≤ (width * height + 7) `div` 8) by (apply Z.div_pos; nia).
  rewrite <- Hn. nia.
Qed.

Lemma fixed_header_and_size_witness :
  read_uint 4 (file_bytes two_glyphs_file) 8 = 2 ∧
  Z.of_nat (length (file_bytes two_glyphs_file)) = 38.
Proof.
  destruct (fixed_header_and_size two_glyphs_properties two_glyphs None None
              two_glyphs_file) as (_ & _ & _ & _ & _ & Hcount & _ & Hsize);
    [vm_compute; reflexivity|].
  split; [exact Hcount|exact Hsize].
Defined.

(** Looking a glyph up in a fixed-format container: every source glyph with
    an encoding in 1..65535 has an index entry with its encoding, and the
    bytes at the offset of that entry are the bitmap that
    [render_glyph_to_fixed_size] gives for the glyph. *)
Theorem fixed_container_holds_every_glyph (properties : gmap string Z)
    (glyphs : list bdf_glyph) (target_width target_height : option Z) (f : fnt_file)
    (g : bdf_glyph) :
  encode_fnt properties glyphs target_width target_height = Ok f →
  g ∈ glyphs → 0 < encoding g ≤ 65535 →
  ∃ (j : nat) (bitmap : list Z),
    index_codepoints 6 2 (file_bytes f) !! j = Some (encoding g) ∧
    render_glyph_to_fixed_size g
      (target_width_of properties target_width)
      (target_height_of properties target_height)
      (font_ascent_of properties) (font_descent_of properties) = Ok bitmap ∧
    take (length bitmap)
         (drop (Z.to_nat (read_uint 4 (file_bytes f) (16 + 6 * j + 2))) (file_bytes f))
    = bitmap.
Proof.
  intros Henc Hg Hcp.
  assert (Hvalid : g ∈ valid_glyphs glyphs) by by apply valid_glyphs_elem_of.
  apply list_elem_of_lookup_1 in Hvalid as [j Hj].
  destruct (encode_fnt_layout _ _ _ _ _ Henc) as (rendered & Hrun & Hlayout).
  destruct (render_all_lookup _ _ _ _ _ _ _ _ Hrun Hj) as (bm & Hbm & Hrender).
  exists j, bm. split; [|split; [done|]].
  - rewrite (encode_fnt_codepoints _ _ _ _ _ Henc), list_lookup_fmap, Hj. done.
  - destruct Hlayout as (_ & _ & Hat & _).
    destruct (Hat j bm) as (_ & _ & Hbytes); [|done].
    by rewrite list_lookup_fmap, Hbm.
Qed.

Lemma fixed_container_holds_every_glyph_witness :
  ∃ (j : nat) (bitmap : list Z),
    index_codepoints 6 2 (file_bytes two_glyphs_file) !! j = Some 66 ∧
    render_glyph_to_fixed_size (BdfGlyph 66 6 5 7 0 0 [0xF8]) 5 7 7 0 = Ok bitmap ∧
    take (length bitmap)
         (drop (Z.to_nat (read_uint 4 (file_bytes two_glyphs_file) (16 + 6 * j + 2)))
               (file_bytes two_glyphs_file))
    = bitmap.
Proof.
  apply (fixed_container_holds_every_glyph two_glyphs_properties two_glyphs None None
           two_glyphs_file (BdfGlyph 66 6 5 7 0 0 [0xF8])).
  - vm_compute. reflexivity.
  - left.
  - cbn. lia.
Defined.

Lemma build_index_error (bitmap_start bytes_per_glyph i : Z)
    (rendered : list (Z * list Z)) (index_data bitmap_data : list Z) (e : exn) :
  build_index bitmap_start bytes_per_glyph i rendered index_data bitmap_data = Raise e →
  e = StructError.
Proof.
  revert i index_data bitmap_data.
  induction rendered as [|[cp bm] rendered IH]; intros i idx bmd Hb; [done|].
  cbn [build_index] in Hb.
  apply bind_Raise_inv in Hb as [Hb|(entry & _ & Hb)]; [|by eapply IH].
  unfold pack_entry_fixed in Hb.
  repeat (apply bind_Raise_inv in Hb as [Hb|(? & _ & Hb)];
          [by apply pack_uint_error in Hb|]).
  done.
Qed.

Lemma encode_fnt_error (properties : gmap string Z) (glyphs : list bdf_glyph)
    (target_width target_height : option Z) (e : exn) :
  encode_fnt properties glyphs target_width target_height = Raise e → e = StructError.
Proof.
  unfold encode_fnt.
  destruct (render_all_spec (valid_glyphs glyphs)
              (target_width_of properties target_width)
              (target_height_of properties target_height)
              (font_ascent_of properties) (font_descent_of properties))
    as (rendered & -> & _).
  rewrite bind_Ok. intros Hb.
  apply bind_Raise_inv in Hb as [Hb|(header & _ & Hb)];
    [by apply pack_header_error in Hb|].
  apply bind_Raise_inv in Hb as [Hb|([idx bm] & _ & Hb)]; [|done].
  by apply build_index_error in Hb.
Qed.

(** A run of the fixed-format converter that fails either fails in
    [parse_bdf], with ValueError or IndexError, or, once the source is
    parsed, in [struct.pack], with struct.error; placing and packing the
    glyphs never fails. Either way the output file has not been opened. *)
Theorem fixed_converter_failures (lines : list string)
    (target_width target_height : option Z) (e : exn) :
  create_fnt_file lines target_width target_height = Raise e →
  parse_bdf lines = Raise e ∧ (e = ValueError ∨ e = IndexError) ∨
  ∃ properties glyphs,
    parse_bdf lines = Ok (properties, glyphs) ∧
    encode_fnt properties glyphs target_width target_height = Raise StructError ∧
    e = StructError.
Proof.
  unfold create_fnt_file. intros Hb.
  apply bind_Raise_inv in Hb as [Hb|([properties glyphs] & Hparse & Hb)].
  - left. split; [done|].
    apply parse_lines_error in Hb as [->|[-> _]]; [by left|by right].
  - right. exists properties, glyphs. split; [done|].
    pose proof (encode_fnt_error _ _ _ _ _ Hb) as ->. done.
Qed.

Lemma fixed_converter_failures_witness :
  parse_bdf font_bad_encoding = Raise ValueError ∧
  (ValueError = ValueError ∨ ValueError = IndexError) ∨
  ∃ properties glyphs,
    parse_bdf font_bad_encoding = Ok (properties, glyphs) ∧
    encode_fnt properties glyphs None None = Raise StructError ∧
    ValueError = StructError.
Proof.
  apply (fixed_converter_failures font_bad_encoding None None ValueError). reflexivity.
Defined.

(** ** The variable-format converter *)

Lemma preview_pixel_get_bit (bitmap : list Z) (j : Z) :
  0 ≤ j → preview_pixel bitmap j = Ok (get_bit bitmap j).
Proof.
  intros Hj. unfold preview_pixel, get_bit.
  pose proof (Z.mod_pos_bound j 8 ltac:(lia)).
  assert (0 ≤ j `div` 8) by (apply Z.div_pos; lia).
  case_decide as Hin.
  - destruct (lookup_lt_is_Some_2 bitmap (Z.to_nat (j `div` 8))) as [byte Hbyte]; [lia|].
    rewrite (py_getitem_in_range _ _ _ ltac:(done) Hbyte), bind_Ok, Hbyte. cbn.
    by rewrite land_bit_mask by lia.
  - rewrite lookup_ge_None_2 by lia. cbn. by rewrite Z.bits_0.
Qed.

Lemma preview_row_spec (bitmap : list Z) (xs : list Z) (i : Z) :
  0 ≤ i →
  preview_row bitmap xs i
  = Ok ((λ k, get_bit bitmap (i + k)) <$> seqZ 0 (Z.of_nat (length xs)),
        i + Z.of_nat (length xs)).
Proof.
  revert i. induction xs as [|x xs IH]; intros i Hi.
  - cbn. do 2 f_equal. lia.
  - cbn [preview_row length]. rewrite preview_pixel_get_bit, bind_Ok by done.
    rewrite IH by lia. rewrite bind_Ok.
    rewrite Nat2Z.inj_succ, (seqZ_cons 0 (Z.succ _)), Z.pred_succ by lia.
    rewrite fmap_cons, Z.add_0_r. f_equal. f_equal; [f_equal|lia].
    change (Z.succ 0) with (1 + 0).
    rewrite <- (fmap_add_seqZ 1 0), <- list_fmap_compose.
    apply list_fmap_ext. intros _ k _. cbn. f_equal. lia.
Qed.

Lemma preview_rows_from_spec (bitmap : list Z) (width : Z) (ys : list Z) (i : Z) :
  0 ≤ i → 0 ≤ width →
  preview_rows_from bitmap width ys i
  = Ok ((λ y, (λ x, get_bit bitmap (i + y * width + x)) <$> seqZ 0 width)
          <$> seqZ 0 (Z.of_nat (length ys))).
Proof.
  intros Hi Hw. revert i Hi. induction ys as [|y ys IH]; intros i Hi; [done|].
  cbn [preview_rows_from length]. rewrite preview_row_spec, bind_Ok by done.
  rewrite length_seqZ, Z2Nat.id by done. rewrite IH by lia. rewrite bind_Ok.
  rewrite Nat2Z.inj_succ, (seqZ_cons 0 (Z.succ _)), Z.pred_succ by lia.
  rewrite fmap_cons. f_equal. f_equal.
  - apply list_fmap_ext. intros _ x _. cbn. f_equal. lia.
  - change (Z.succ 0) with (1 + 0).
    rewrite <- (fmap_add_seqZ 1 0), <- list_fmap_compose.
    apply list_fmap_ext. intros _ k _. cbn.
    apply list_fmap_ext. intros _ x _. cbn. f_equal. lia.
Qed.

Lemma preview_rows_from_narrow (bitmap : list Z) (width : Z) (ys : list Z) (i : Z) :
  width ≤ 0 → preview_rows_from bitmap width ys i = Ok (replicate (length ys) []).
Proof.
  intros Hw. revert i. induction ys as [|y ys IH]; intros i; [done|].
  cbn [preview_rows_from]. unfold seqZ at 1.
  replace (Z.to_nat width) with 0%nat by lia. cbn. by rewrite IH.
Qed.

Lemma preview_rows_spec (bitmap : list Z) (width height : Z) :
  ∃ rows,
    preview_rows bitmap width height = Ok rows ∧
    length rows = Z.to_nat height ∧
    Forall (λ row, length row = Z.to_nat width) rows ∧
    ∀ y x, 0 ≤ y < height → 0 ≤ x < width →
      rows !! Z.to_nat y ≫= (.!! Z.to_nat x) = Some (get_bit bitmap (y * width + x)).
Proof.
  unfold preview_rows. destruct (decide (0 ≤ width)) as [Hw|Hw].
  - eexists. split; [by apply preview_rows_from_spec|].
    rewrite length_seqZ.
    split; [by rewrite length_fmap, length_seqZ, Nat2Z.id|]. split.
    + apply Forall_fmap, Forall_forall. intros y _. cbn.
      by rewrite length_fmap, length_seqZ.
    + intros y x Hy Hx. rewrite Z2Nat.id by lia.
      rewrite lookup_seqZ_fmap by done. cbn. by rewrite lookup_seqZ_fmap by done.
  - exists (replicate (Z.to_nat height) []). split; [|split; [|split]].
    + by rewrite preview_rows_from_narrow, length_seqZ by lia.
    + by rewrite length_replicate.
    + apply Forall_replicate. cbn. lia.
    + intros; lia.
Qed.

Section variable_format.
Context {font image : Type} `{Rasterizer font image}.

(** Previewing draws the bitmap that [render_glyph] returns, [height] rows
    of [width] cells with the cell at row [y], column [x] taken from bit
    [y * width + x]; bits past the end of the bitmap count as blank, so the
    preview never reads outside the bitmap. A code point without a glyph is
    reported as not available. *)
Theorem preview_glyph_draws_bitmap (fnt : font) (codepoint size : Z)
    (bitmap : option (list Z)) (width height : Z) :
  render_glyph fnt codepoint size = Ok (bitmap, width, height) →
  match bitmap with
  | None => preview_glyph fnt codepoint size = Ok None
  | Some bm =>
      ∃ rows,
        preview_glyph fnt codepoint size = Ok (Some rows) ∧
        length rows = Z.to_nat height ∧
        Forall (λ row, length row = Z.to_nat width) rows ∧
        ∀ y x, 0 ≤ y < height → 0 ≤ x < width →
          rows !! Z.to_nat y ≫= (.!! Z.to_nat x)
          = Some (Z.testbit (default 0 (bm !! Z.to_nat ((y * width + x) `div` 8)))
                            (7 - (y * width + x) `mod` 8))
  end.
Proof.
  intros Hrender. unfold preview_glyph. rewrite Hrender, bind_Ok.
  destruct bitmap as [bm|]; [|done].
  destruct (preview_rows_spec bm width height) as (rows & -> & Hlen & Hrows & Hcells).
  exists rows. by rewrite bind_Ok.
Qed.

End variable_format.

Lemma preview_glyph_draws_bitmap_witness :
  preview_glyph (12 : Z) 0x20 12 = Ok (Some (replicate 12 (replicate 4 false))).
Proof.
  destruct (preview_glyph_draws_bitmap (12 : Z) 0x20 12 (Some [0]) 4 12)
    as (rows & Hrows & _); [vm_compute; reflexivity|].
  pose proof Hrows as Hval. vm_compute in Hval. injection Hval as Hval.
  rewrite Hrows, <- Hval. reflexivity.
Defined.

Lemma elem_of_get_font_codepoints (tables : list cmap_table) (cp : Z) :
  cp ∈ get_font_codepoints tables ↔
  0x20 ≤ cp ∧ ∃ table, table ∈ tables ∧ isUnicode table = true ∧ cp ∈ cmap_keys table.
Proof.
  unfold get_font_codepoints.
  rewrite py_sorted_Permutation, list_elem_of_filter, elem_of_elements.
  assert (Hfold : ∀ (acc : gset Z),
    cp ∈ foldl (λ acc table,
                  if isUnicode table then acc ∪ list_to_set (cmap_keys table) else acc)
               acc tables
    ↔ cp ∈ acc ∨ ∃ table, table ∈ tables ∧ isUnicode table = true ∧ cp ∈ cmap_keys table).
  { induction tables as [|t tables IH]; intros acc; cbn [foldl].
    - split; [by left|]. intros [?|(t & Ht & _)]; [done|]. by apply elem_of_nil in Ht.
    - rewrite IH. split.
      + intros [Hacc|(t' & Ht' & Hu & Hcp)].
        * destruct (isUnicode t) eqn:Hu; [|by left].
          apply elem_of_union in Hacc as [?|Hin]; [by left|].
          right. exists t. split; [left|]. split; [done|].
          by apply elem_of_list_to_set in Hin.
        * right. exists t'. split; [by right|done].
      + intros [Hacc|(t' & Ht' & Hu & Hcp)].
        * left. destruct (isUnicode t); [|done]. by apply elem_of_union_l.
        * apply elem_of_cons in Ht' as [->|Ht'].
          -- left. rewrite Hu. apply elem_of_union_r. by apply elem_of_list_to_set.
          -- right. by exists t'. }
  rewrite Hfold. split.
  - intros [Hge [Hemp|Hex]]; [by apply elem_of_empty in Hemp|]. split; [lia|done].
  - intros [Hge Hex]. split; [lia|by right].
Qed.

(** The cmap scan: a code point is returned exactly when it is at least
    0x20 and a key of some unicode subtable; the result is strictly
    increasing, so a code point that several subtables map occurs once. *)
Theorem codepoints_are_printable_unicode_keys (tables : list cmap_table) :
  (∀ cp, cp ∈ get_font_codepoints tables ↔
         0x20 ≤ cp ∧ ∃ table, table ∈ tables ∧ isUnicode table = true ∧
                              cp ∈ cmap_keys table) ∧
  StronglySorted Z.lt (get_font_codepoints tables).
Proof.
  split; [apply elem_of_get_font_codepoints|apply get_font_codepoints_strict].
Qed.

Section variable_container.
Context {font image : Type} `{Rasterizer font image}.

Lemma render_codepoints_kept (fnt : font) (size : Z) (cps : list Z)
    (glyphs0 : list ttf_glyph) (mw0 mh0 : Z) glyphs mw mh :
  render_codepoints fnt size cps glyphs0 mw0 mh0 = Ok (glyphs, mw, mh) →
  ∀ cp, cp ∈ tg_cp <$> glyphs ↔
        cp ∈ tg_cp <$> glyphs0 ∨
        (cp ∈ cps ∧ ∃ bm w h, render_glyph fnt cp size = Ok (Some bm, w, h) ∧
                              bm ≠ [] ∧ 0 < w ∧ 0 < h).
Proof.
  revert glyphs0 mw0 mh0.
  induction cps as [|c rest IH]; intros glyphs0 mw0 mh0 Hrun cp; cbn in Hrun.
  - injection Hrun as <- <- <-. split; [by left|].
    intros [?|[Hin _]]; [done|]. by apply elem_of_nil in Hin.
  - apply bind_inv in Hrun as ([[bitmap width] height] & Hg & Hrun).
    assert (Hskip : ¬ (∃ bm w h, render_glyph fnt c size = Ok (Some bm, w, h) ∧
                                 bm ≠ [] ∧ 0 < w ∧ 0 < h) →
                    render_codepoints fnt size rest glyphs0 mw0 mh0 = Ok (glyphs, mw, mh) →
                    cp ∈ tg_cp <$> glyphs ↔
                    cp ∈ tg_cp <$> glyphs0 ∨
                    (cp ∈ c :: rest ∧ ∃ bm w h,
                       render_glyph fnt cp size = Ok (Some bm, w, h) ∧
                       bm ≠ [] ∧ 0 < w ∧ 0 < h)).
    { intros Hno Hrest. rewrite (IH _ _ _ Hrest cp). split.
      - intros [?|[Hin Hk]]; [by left|]. right. split; [by right|done].
      - intros [?|[Hin Hk]]; [by left|].
        apply elem_of_cons in Hin as [->|Hin]; [done|]. right. by split. }
    destruct bitmap as [bm|]; [case_decide as Hkeep|].
    + rewrite (IH _ _ _ Hrun cp), fmap_app, elem_of_app. cbn.
      destruct Hkeep as (Hbm & Hw & Hh). split.
      * intros [[?|Hc]|[Hin Hk]]; [by left| |].
        -- apply list_elem_of_singleton in Hc as ->. right. split; [left|].
           exists bm, width, height. repeat split; [done..|lia|lia].
        -- right. split; [by right|done].
      * intros [?|[Hin Hk]]; [left; by left|].
        apply elem_of_cons in Hin as [->|Hin]; [|right; by split].
        left. right. by apply list_elem_of_singleton.
    + apply Hskip; [|done]. intros (bm' & w & h & Hg' & Hbm' & Hw & Hh).
      rewrite Hg in Hg'. injection Hg' as <- <- <-. apply Hkeep. repeat split; [done|lia..].
    + apply Hskip; [|done]. intros (bm' & w & h & Hg' & _). by rewrite Hg in Hg'.
Qed.

Lemma create_font_file_index (tables : list cmap_table) (size : Z) (bytes : list Z)
    (fnt : font) (glyphs : list ttf_glyph) (mw mh : Z) :
  create_font_file tables size = Run (Returned true) (Some bytes) →
  truetype size = Some fnt →
  render_codepoints fnt size (get_font_codepoints tables) [] 0 0 = Ok (glyphs, mw, mh) →
  index_codepoints 10 4 bytes = tg_cp <$> glyphs.
Proof.
  intros (fnt' & glyphs' & mw' & mh' & header & chunks & Hfnt & Hrender & _ & -> & Hhl
          & _ & _ & _ & _ & _ & Hcount & _ & Hcl & Hall & Hread)%create_font_file_parts
         Hfnt' Hrender'.
  rewrite Hfnt' in Hfnt. injection Hfnt as <-.
  rewrite Hrender' in Hrender. injection Hrender as <- <- <-.
  unfold index_codepoints.
  rewrite read_uint_prefix, Hcount, Nat2Z.id by lia.
  apply list_eq_same_length with (length glyphs);
    [by rewrite length_fmap|by rewrite length_fmap, length_seq|].
  intros i x y Hi Hx Hy.
  apply list_lookup_fmap_Some in Hx as (i' & -> & Hseq).
  apply lookup_seq in Hseq as [-> _]. change (0 + i)%nat with i.
  destruct (lookup_lt_is_Some_2 chunks i) as [c Hc]; [lia|].
  destruct (Hread i c Hc) as (g & Hg & Hrd & _).
  rewrite list_lookup_fmap, Hg in Hy. injection Hy as <-.
  rewrite <- Hrd, <- Hhl. replace (length header + 10 * i)%nat
    with (length header + 10 * i + 0)%nat by lia.
  apply read_chunk_field; [done|done|lia].
Qed.

(** The index of a variable-format container holds exactly the code points
    of the cmap scan for which [render_glyph] returns a bitmap that is not
    empty, with a positive width and height. *)
Theorem variable_index_lists_rendered_codepoints (tables : list cmap_table)
    (size : Z) (bytes : list Z) :
  create_font_file tables size = Run (Returned true) (Some bytes) →
  ∃ fnt, truetype size = Some fnt ∧
    ∀ cp, cp ∈ index_codepoints 10 4 bytes ↔
          cp ∈ get_font_codepoints tables ∧
          ∃ bm w h, render_glyph fnt cp size = Ok (Some bm, w, h) ∧
                    bm ≠ [] ∧ 0 < w ∧ 0 < h.
Proof.
  intros Hrun.
  destruct (create_font_file_parts _ _ _ Hrun)
    as (fnt & glyphs & mw & mh & _ & _ & Hfnt & Hrender & _).
  exists fnt. split; [done|]. intros cp.
  rewrite (create_font_file_index _ _ _ _ _ _ _ Hrun Hfnt Hrender).
  rewrite (render_codepoints_kept _ _ _ _ _ _ _ _ _ Hrender cp). cbn. split.
  - intros [Hnil|?]; [by apply elem_of_nil in Hnil|done].
  - intros ?. by right.
Qed.

End variable_container.

Lemma variable_index_lists_rendered_codepoints_witness :
  65 ∈ index_codepoints 10 4 block_font_bytes ↔
  65 ∈ get_font_codepoints block_tables ∧
  ∃ bm w h, render_glyph (4 : Z) 65 4 = Ok (Some bm, w, h) ∧ bm ≠ [] ∧ 0 < w ∧ 0 < h.
Proof.
  destruct (variable_index_lists_rendered_codepoints (H := block_rasterizer)
              block_tables 4 block_font_bytes) as (fnt & Hfnt & Hcps);
    [vm_compute; reflexivity|].
  vm_compute in Hfnt. injection Hfnt as <-. exact (Hcps 65).
Defined.

Section variable_bytes.
Context {font image : Type} `{Rasterizer font image}.

(** The bytes of a variable-format container: the magic TFNT, version 1,
    the largest glyph width and height, flags 1, the glyph count, a zero
    reserved word, and in all 16 bytes of header plus 10 bytes of index per
    glyph plus the bitmaps. *)
Theorem variable_header_and_size (tables : list cmap_table) (size : Z)
    (bytes : list Z) :
  create_font_file tables size = Run (Returned true) (Some bytes) →
  ∃ fnt glyphs max_width max_height,
    truetype size = Some fnt ∧
    render_codepoints fnt size (get_font_codepoints tables) [] 0 0
      = Ok (glyphs, max_width, max_height) ∧
    take 4 bytes = [84; 70; 78; 84] ∧ bytes !! 4%nat = Some 1 ∧
    bytes !! 5%nat = Some max_width ∧ bytes !! 6%nat = Some max_height ∧
    bytes !! 7%nat = Some 1 ∧
    read_uint 4 bytes 8 = Z.of_nat (length glyphs) ∧ glyphs ≠ [] ∧
    read_uint 4 bytes 12 = 0 ∧
    (∃ g, g ∈ glyphs ∧ tg_width g = max_width) ∧
    (∃ g, g ∈ glyphs ∧ tg_height g = max_height) ∧
    Z.of_nat (length bytes)
    = 16 + 10 * Z.of_nat (length glyphs)
      + Z.of_nat (sum_list_with length (tg_bitmap <$> glyphs)).
Proof.
  intros (fnt & glyphs & mw & mh & header & chunks & Hfnt & Hrender & Hne & -> & Hhl
          & Hmagic & Hv & Hw & Hh & Hf & Hcount & Haux & Hcl & Hall & Hread)
         %create_font_file_parts.
  exists fnt, glyphs, mw, mh. do 2 (split; [done|]).
  split; [by rewrite take_app_le by lia|].
  do 4 (split; [by rewrite lookup_app_l by lia|]).
  split; [by rewrite read_uint_prefix by lia|].
  split; [done|].
  split; [by rewrite read_uint_prefix by lia|].
  destruct (render_codepoints_spec _ _ _ _ _ _ _ _ _ Hrender)
    as (new & Hnew & _ & Hok & _ & _ & Hmax & Hmw & Hmh & _).
  cbn [app] in Hnew. subst new.
  assert (Hg0 : ∃ g0, g0 ∈ glyphs) by (destruct glyphs as [|g0 ?]; [done|exists g0; left]).
  destruct Hg0 as [g0 Hg0].
  rewrite Forall_forall in Hok, Hmax.
  destruct (Hok g0 Hg0) as (_ & _ & Hw0 & Hh0). destruct (Hmax g0 Hg0) as [Hwm Hhm].
  split; [destruct Hmw as [->|?]; [lia|done]|].
  split; [destruct Hmh as [->|?]; [lia|done]|].
  rewrite !length_app, Hhl, (length_concat_uniform _ _ Hall), Hcl, length_concat_sum. lia.
Qed.

(** Looking a glyph up in a variable-format container: index entry [j]
    holds a code point, the width and the height that [render_glyph]
    returns for it, and the bytes at the offset of the entry are the bitmap
    that [render_glyph] returns. *)
Theorem variable_container_holds_rendered_glyphs (tables : list cmap_table)
    (size : Z) (bytes : list Z) (j : nat) (cp : Z) :
  create_font_file tables size = Run (Returned true) (Some bytes) →
  index_codepoints 10 4 bytes !! j = Some cp →
  ∃ fnt bitmap width height,
    truetype size = Some fnt ∧
    render_glyph fnt cp size = Ok (Some bitmap, width, height) ∧
    bytes !! (16 + 10 * j + 8)%nat = Some width ∧
    bytes !! (16 + 10 * j + 9)%nat = Some height ∧
    take (length bitmap)
         (drop (Z.to_nat (read_uint 4 bytes (16 + 10 * j + 4))) bytes)
    = bitmap.
Proof.
  intros Hrun Hj.
  destruct (create_font_file_parts _ _ _ Hrun)
    as (fnt & glyphs & mw & mh & header & chunks & Hfnt & Hrender & Hne & Hbytes & Hhl
        & _ & _ & _ & _ & _ & _ & _ & Hcl & Hall & Hread).
  rewrite (create_font_file_index _ _ _ _ _ _ _ Hrun Hfnt Hrender) in Hj.
  apply list_lookup_fmap_Some in Hj as (g & -> & Hg).
  destruct (render_codepoints_spec _ _ _ _ _ _ _ _ _ Hrender)
    as (new & Hnew & _ & _ & _ & _ & _ & _ & _ & Hrg).
  cbn [app] in Hnew. subst new.
  eapply Forall_lookup_1 in Hrg; [|exact Hg].
  exists fnt, (tg_bitmap g), (tg_width g), (tg_height g). do 2 (split; [done|]).
  destruct (lookup_lt_is_Some_2 chunks j) as [c Hc];
    [apply lookup_lt_Some in Hg; lia|].
  destruct (Hread j c Hc) as (g' & Hg' & _ & _ & Hc8 & Hc9 & _).
  assert (g' = g) as -> by congruence.
  split; [|split].
  - rewrite Hbytes, <- Hhl, (lookup_chunk_byte 10 _ _ _ _ _ c) by (done || lia). done.
  - rewrite Hbytes, <- Hhl, (lookup_chunk_byte 10 _ _ _ _ _ c) by (done || lia). done.
  - destruct (create_font_file_layout _ _ _ Hrun)
      as (fnt' & glyphs' & mw' & mh' & Hfnt' & Hrender' & Hlayout).
    rewrite Hfnt in Hfnt'. injection Hfnt' as <-.
    rewrite Hrender in Hrender'. injection Hrender' as <- <- <-.
    destruct Hlayout as (_ & _ & Hat & _).
    destruct (Hat j (tg_bitmap g)) as (_ & _ & Hblob); [|done].
    by rewrite list_lookup_fmap, Hg.
Qed.

End variable_bytes.

Lemma variable_header_and_size_witness :
  read_uint 4 block_font_bytes 8 = 3 ∧ Z.of_nat (length block_font_bytes) = 49.
Proof.
  destruct (variable_header_and_size (H := block_rasterizer) block_tables 4 block_font_bytes)
    as (fnt & glyphs & mw & mh & Hfnt & Hrender & _ & _ & _ & _ & _ & Hcount & _ & _ & _ & _
        & Hsize); [vm_compute; reflexivity|].
  vm_compute in Hfnt. injection Hfnt as <-.
  vm_compute in Hrender. injection Hrender as <- <- <-.
  split; [exact Hcount|exact Hsize].
Defined.

Lemma variable_container_holds_rendered_glyphs_witness :
  ∃ bitmap width height,
    render_glyph (4 : Z) 65 4 = Ok (Some bitmap, width, height) ∧
    block_font_bytes !! 34%nat = Some width ∧ block_font_bytes !! 35%nat = Some height ∧
    take (length bitmap) (drop 47 block_font_bytes) = bitmap.
Proof.
  destruct (variable_container_holds_rendered_glyphs (H := block_rasterizer)
              block_tables 4 block_font_bytes 1 65)
    as (fnt & bitmap & width & height & Hfnt & Hrender & Hw & Hh & Hblob);
    [vm_compute; reflexivity..|].
  vm_compute in Hfnt. injection Hfnt as <-.
  exists bitmap, width, height. split; [exact Hrender|]. split; [exact Hw|].
  split; [exact Hh|exact Hblob].
Defined.

Section rendering.
Context {font image : Type} `{Rasterizer font image}.

(** A glyph with ink is cropped to its ink box and thresholded at 30: the
    returned width and height are those of the ink box, bit [j] of the
    bitmap (MSB first) is set exactly when grey value [j] of the cropped
    image is above 30, and the bitmap has one bit per grey value, padded
    with zero bits to a whole byte. The font size does not enter. *)
Theorem rendered_bitmap_thresholds_at_30 (fnt : font) (codepoint size : Z)
    (x0 y0 x1 y1 cx0 cy0 cx1 cy1 : Z) :
  0 ≤ codepoint < 0x110000 →
  font_getbbox fnt codepoint = Getbbox x0 y0 x1 y1 → x0 < x1 → y0 < y1 →
  image_getbbox (draw_text fnt (x1 - x0 + 2) (y1 - y0 + 2) (1 - x0) (1 - y0) codepoint)
  = Some (cx0, cy0, cx1, cy1) →
  let greys :=
    image_getdata
      (image_crop (draw_text fnt (x1 - x0 + 2) (y1 - y0 + 2) (1 - x0) (1 - y0) codepoint)
         (cx0, cy0, cx1, cy1)) in
  ∃ bitmap,
    render_glyph fnt codepoint size = Ok (Some bitmap, cx1 - cx0, cy1 - cy0) ∧
    Z.of_nat (length bitmap) = (Z.of_nat (length greys) + 7) `div` 8 ∧
    (∀ (j : nat) grey, greys !! j = Some grey →
       get_bit bitmap (Z.of_nat j) = bool_decide (30 < grey)) ∧
    (∀ j, Z.of_nat (length greys) ≤ j → get_bit bitmap j = false).
Proof.
  intros Hcp Hbox Hx Hy Hink greys.
  destruct (pack_pixels_packs (threshold <$> greys)) as (bs & Hbs & Hlen & _ & Hbits).
  exists bs. split; [|split; [|split]].
  - unfold render_glyph. rewrite decide_True by done. rewrite Hbox.
    rewrite decide_False by lia. cbn zeta. rewrite Hink. fold greys.
    by rewrite Hbs.
  - by rewrite Hlen, length_fmap.
  - intros j grey Hj. rewrite Hbits by lia. unfold pixel_at.
    rewrite Nat2Z.id, list_lookup_fmap, Hj. cbn.
    rewrite bool_decide_eq_true_2 by lia. unfold threshold.
    case_decide; [by rewrite bool_decide_eq_true_2 by lia
                 |by rewrite bool_decide_eq_false_2 by lia].
  - intros j Hj. rewrite Hbits by lia. unfold pixel_at.
    rewrite lookup_ge_None_2 by (rewrite length_fmap; lia). cbn.
    by rewrite andb_false_r.
Qed.

End rendering.

Lemma rendered_bitmap_thresholds_at_30_witness :
  ∃ bitmap, render_glyph (4 : Z) 65 4 = Ok (Some bitmap, 3 - 1, 5 - 1) ∧
            Z.of_nat (length bitmap) = 1.
Proof.
  destruct (rendered_bitmap_thresholds_at_30 (H := block_rasterizer) 4 65 4 0 0 2 4 1 1 3 5)
    as (bitmap & Hrender & Hlen & _); [lia|reflexivity|lia|lia|vm_compute; reflexivity|].
  exists bitmap. split; [exact Hrender|]. rewrite Hlen. vm_compute. reflexivity.
Defined.

Section space.
Context {font image : Type} `{Rasterizer font image}.

(** A space without ink is stored only from size 3 on: below that its
    width [size // 3] is 0 and the glyph is dropped from the container. *)
Theorem space_is_stored_from_size_3 (tables : list cmap_table) (size : Z)
    (bytes : list Z) (fnt : font) (x0 y0 x1 y1 : Z) :
  create_font_file tables size = Run (Returned true) (Some bytes) →
  truetype size = Some fnt →
  font_getbbox fnt 0x20 = Getbbox x0 y0 x1 y1 → x1 ≤ x0 ∨ y1 ≤ y0 →
  0x20 ∈ get_font_codepoints tables →
  0x20 ∈ index_codepoints 10 4 bytes ↔ 3 ≤ size.
Proof.
  intros Hrun Hfnt Hbox Hempty Hspace.
  destruct (create_font_file_parts _ _ _ Hrun)
    as (fnt' & glyphs & mw & mh & _ & _ & Hfnt' & Hrender & _).
  rewrite Hfnt in Hfnt'. injection Hfnt' as <-.
  rewrite (create_font_file_index _ _ _ _ _ _ _ Hrun Hfnt Hrender).
  rewrite (render_codepoints_kept _ _ _ _ _ _ _ _ _ Hrender 0x20).
  assert (Hglyph : render_glyph fnt 0x20 size = Ok (Some [0], size `div` 3, size)).
  { unfold render_glyph. rewrite decide_True by lia. rewrite Hbox.
    rewrite decide_True by done. by rewrite decide_True. }
  split.
  - intros [Hnil|(_ & bm & w & h & Hg & _ & Hw & Hh)]; [by apply elem_of_nil in Hnil|].
    rewrite Hglyph in Hg. injection Hg as <- <- <-.
    destruct (decide (3 ≤ size)) as [|Hsmall]; [done|].
    rewrite Z.div_small in Hw by lia. lia.
  - intros Hsize. right. split; [done|].
    exists [0], (size `div` 3), size. split; [done|]. split; [done|].
    split; [apply Z.div_str_pos; lia|lia].
Qed.

End space.

Lemma space_is_stored_from_size_3_witness :
  32 ∈ index_codepoints 10 4 block_font_bytes ↔ 3 ≤ 4.
Proof.
  apply (space_is_stored_from_size_3 (H := block_rasterizer) block_tables 4 block_font_bytes
           4 0 0 0 0); [vm_compute; reflexivity..|left; lia|].
  apply (bool_decide_unpack _). vm_compute. reflexivity.
Defined.

Section inkless.
Context {font image : Type} `{Rasterizer font image}.

(** Only the space is stored without ink: any other code point whose
    bounding box is empty or missing, or whose bounding box query raises, is
    left out of the container. *)
Theorem inkless_glyphs_are_left_out (tables : list cmap_table) (size : Z)
    (bytes : list Z) (fnt : font) (codepoint : Z) :
  create_font_file tables size = Run (Returned true) (Some bytes) →
  truetype size = Some fnt → codepoint ≠ 0x20 →
  match font_getbbox fnt codepoint with
  | Getbbox x0 y0 x1 y1 => x1 ≤ x0 ∨ y1 ≤ y0
  | GetbboxNone | GetbboxRaises => True
  end →
  codepoint ∉ index_codepoints 10 4 bytes.
Proof.
  intros Hrun Hfnt Hcp Hbox.
  destruct (create_font_file_parts _ _ _ Hrun)
    as (fnt' & glyphs & mw & mh & _ & _ & Hfnt' & Hrender & _).
  rewrite Hfnt in Hfnt'. injection Hfnt' as <-.
  rewrite (create_font_file_index _ _ _ _ _ _ _ Hrun Hfnt Hrender).
  rewrite (render_codepoints_kept _ _ _ _ _ _ _ _ _ Hrender codepoint).
  intros [Hnil|(_ & bm & w & h & Hg & _)]; [by apply elem_of_nil in Hnil|].
  unfold render_glyph in Hg. case_decide; [|done].
  destruct (font_getbbox fnt codepoint) as [| |x0 y0 x1 y1]; [done..|].
  rewrite decide_True in Hg by done. by rewrite decide_False in Hg.
Qed.

End inkless.

Lemma inkless_glyphs_are_left_out_witness :
  200 ∉ index_codepoints 10 4 block_font_bytes.
Proof.
  apply (inkless_glyphs_are_left_out (H := block_rasterizer) block_tables 4
           block_font_bytes 4 200); [vm_compute; reflexivity..|discriminate|exact I].
Defined.
